(* ===== verification/_CoqProject ===== *)
-Q . S2P
Prelude.v
PyFloat.v
PyParse.v
Units.v
Amounts.v
Interact.v
Traces.v
Address.v
Submit.v
Vault.v
Guards.v
Sends.v
Runs.v
Progress.v
Cli.v
Argparse.v
