(* ===== verification/Prelude.v ===== *)
(** * A verification development for [src/scripts/vault_cli.py]

    The program is a command-line client for an on-chain vault (an
    ERC-4626 style vault with oracle-driven buy/sell signals).  [main]
    reads the arguments, connects to an Ethereum node through web3,
    resolves the acting account, and runs one handler per subcommand.  A
    handler reads chain state, converts the operator's decimal amounts
    and percentages to integers, checks the caller's role, submits one or
    two transactions through [send_transaction], and reports whether the
    last receipt succeeded.  Every handler body is wrapped in
    [try]/[except Exception] and returns a boolean.

    ** Files and what they model (the order of [_CoqProject])

    - [Prelude] (this file): Python exceptions ([exn]), the [result] type
      of fallible pure code with its [let?] notation, the tactics [inv],
      [zbool] and [case_zbool], the hint databases [vault] and [traces],
      and lemmas on powers of two and ten.
    - [PyFloat] (Module [PyFloat]): binary64 as CPython computes with it.
      A finite float is [Fin m e], of value [m * 2^e]; [round_Q] rounds an
      exact rational to nearest-even, with subnormals ([emin = -1074]) and
      overflow to an infinity at [2^1024], computed on [Z] so that it runs
      under [vm_compute].  Each float operation of the source is [round_Q]
      of its exact result: [fmul], [fdiv] (ZeroDivisionError),
      [float_of_int] (the int operand of a float operation,
      OverflowError), [int_truediv] (int [/] int), [int_of_float]
      ([int(x)], truncating, ValueError/OverflowError on nan/inf).
      Lemmas: monotonicity, exactness on representable values, exact
      integers below [2^53], truncation bounds.
    - [PyParse] (Module [PyParse]): CPython's [float(str)] ([py_float]:
      underscores, ASCII whitespace, sign, digits with point and exponent,
      [inf]/[infinity]/[nan], one rounding) and [int(str)] in base 10
      ([py_int], with the 4300-digit limit).
    - [Units]: [to_wei] and [from_wei] (lines 29-33).
    - [Amounts]: the amount expressions written inline in the handlers:
      withdrawal basis points (line 231), the buy amount and cap (lines
      284-298), [int(balance * percentage / 100)] (lines 290 and 366), the
      sell overshoot clamp (lines 371-373), the pair allocation (lines
      409-413).
    - [Interact]: the effects.  A handler is a [prog], a finite tree of
      web3 calls ([event]: contract reads, [transact], locally signed
      sends, receipt waits, prints) whose continuations receive the
      call's answer or [None] when the call raised; [catch] is
      [try]/[except].  [run] executes a [prog] against an [env], the node
      and the chain, which answers each call as a function of the calls
      already made, and returns the trace and the outcome.  [avoids bad]
      states that no branch of a program makes a call [bad] flags:
      [unsigned] (no local signing) and [read_only] (no submission).
    - [Traces]: two views of a [prog] shared by the theorems on runs:
      [awaits p] says that every transaction the node accepts is
      followed at once by [wait_for_transaction_receipt] of its hash (a
      mutual inductive, carried to traces by [awaits_run]); [step] and
      [eventually] are the small-step semantics of [run], in the style of
      coqutil's [OmniSmallstepCombinators] ([run_eventually]).
    - [Address]: [normalize_address] and [get_account] (lines 12-17,
      44-57) over web3's [to_checksum_address], the [Checksum] interface
      (a partial function whose outputs are [0x] strings of 42
      characters); [lower_checksum] is an instance for concrete runs.
    - [Submit]: [send_transaction] (lines 86-104) and the [Submitter]
      interface the handlers are written against: a submission sends at
      most its own transaction, and one that returns a receipt has sent
      it.  [send_transaction] is the instance.
    - [Vault]: every handler (lines 107-618), each in full, inside a
      Section over [Checksum] and [Submitter]; a concrete chain
      ([demo_env]) on which the handlers run by [vm_compute]; the
      lemmas that no handler signs except through [submit] and that
      [get_info] and [get_portfolio] submit nothing ([Interact.avoids]).
    - [Guards]: the role pre-checks and the balance checks, as
      refusals: the handler returns [false] and sends nothing.
    - [Sends]: for each handler, the transactions any run sends, with the
      arguments computed from what the chain reports.
    - [Runs]: concrete runs that exhibit the findings.
    - [Progress]: liveness of a handler in the small-step semantics.
    - [Cli]: [connect_web3], [load_contracts] and [main] (lines 35-42,
      59-84, 699-779) on the [args] record the parser returns, with
      [int(args.min)]; the proofs that [main] awaits every receipt.
    - [Argparse]: the parser [main] builds (lines 621-692) as data, and
      [parser.parse_args()] (line 697) as a model of CPython 3.11's
      [argparse._parse_known_args] (classification of the strings,
      prefix matching, [=] arguments, [-h], positionals by [nargs]
      pattern, ['--'], [choices], [type=bool], mutually exclusive
      conflicts, required actions and groups, sub-parsers, the
      %-formatting of help texts); [of_namespace] reads the namespace as
      [main] reads [args], and [cli] composes parsing with [main].  The
      model agrees with CPython 3.11 on 6528 generated command lines.

    ** What the theorems show

    - Credentials: [main] never signs a transaction locally, for any
      arguments and any node ([Cli.main_never_signs]); the signing branch
      of [send_transaction] is dead code.  An unreachable node ends
      [main] with [SystemExit 1] before any transaction, and a vault
      subcommand without [--vault] sends nothing.
    - Authorization: every privileged handler returns [False] and sends
      nothing for an account without the role
      ([Guards.privileged_ops_require_role]).
    - Transactions of each handler ([Sends]): deposit sends approve then
      deposit of [to_wei(amount, d)] on the vault's asset, [d] its
      decimals; buy sends the amount and cap of [buy_amounts]; sell
      sends the sentinel [0] for "all" and [min(to_wei s, balance)] for
      an exact amount; withdraw sends the share balance, or
      [withdraw_bps p]; mint's ownership check never aborts it; deposit
      and transfer above the balance send nothing ([Guards]).
    - Receipts (an invariant of every run): in any run of [main], with
      any arguments and any node, a transaction the node accepts is
      followed at once by the wait for its receipt, so two transactions
      are never in flight ([Cli.main_awaits_receipts]).
    - Progress: on a node that answers and mines, a covered deposit
      eventually returns [True] having sent approve then deposit; on a
      node where the approval fails on chain, the deposit is still sent
      and reported as a success ([Progress]).
    - Command line ([Argparse]): a parsed [withdraw] has exactly one of
      [--amount], [--percentage], [--all] (an invariant of every parser
      action); a parsed [role] is one of the three roles, so
      [manage_role]'s unknown-role branch is dead; every [args] value
      prints to a command line that parses back to it; [--enabled S] is
      [bool(S)]; [-h] after [withdraw], [buy], [sell] or [pair] raises
      ValueError whatever follows; the parser's loop never runs out of
      its fuel.
    - Refinement of the spec's percentage rule: for an integer
      percentage [P <= 100] of a balance [B] with [100 * B < 2^53], a buy
      computes [floor(B * P / 100)] with the cap [100 * P], and a sell
      sends [floor(B * P / 100)] ([PyFloat.round_Q_div100_floor]: the
      float quotient never reaches the next integer there); above 100 the
      same formulas apply unclamped ([Amounts.buy_cap_unclamped]).
    - Amounts: withdrawal basis points lie in [[1, 10000]], and are
      [100 * P] clamped for an integer [P]; a percentage in [[0, 100]] of
      a balance [B] with [100 * B < 2^53] lies in [[0, B]]; [to_wei] of
      a digit string whose scaled value fits in 53 bits is exact and
      [from_wei] undoes it; [pair --max] reads ["P"] and ["P%"] alike.
    - Concrete runs that illustrate the findings ([Runs], examples in
      [Units], [Amounts], [Cli], [Argparse]): [to_wei] is not
      decimal-safe; percentages are truncated; 100% of a balance above
      [2^53] exceeds it; [--min 0.5] raises outside every [try]; an empty
      [--percentage=] does nothing.

    ** Bounds and fuel

    No fuel is needed for the handlers: [prog] trees are finite and [run]
    is structural, so every handler terminates.  The parser's [loop]
    takes the fuel [S (length items)] and a value [oot] to return when
    the fuel runs out: each round consumes an argument, and
    [Argparse.loop_fuel_enough] shows that with any fuel above the number
    of arguments the result depends neither on the fuel nor on [oot], so
    the fuel never runs out.  The hypotheses [100 * B < 2^53],
    [B * P < 2^53] and [N * 5^d < 2^53] are where float arithmetic is
    exact; the concrete runs show what happens beyond them.

    ** Not modelled

    argparse's usage and error messages and the help it prints (the
    model keeps the exit status, and the ValueError of a help text that
    does not %-format); reading the ABI files (assumed
    to succeed); web3's checksum algorithm, HTTP transport and ABI
    encoding (the [Checksum] interface and the environment of [run]); the
    contracts (their answers are the environment's); the text of printed
    messages (a [msg] keeps its level, leading words and float values);
    Unicode digits and whitespace in [float()] and [int()].  [catch]
    catches every exception, [SystemExit] included; no [try] body of the
    source raises [SystemExit], so this matches [except Exception]. *)

From Stdlib Require Import ZArith List String Lia.
Import ListNotations.
Open Scope Z_scope.

(** ** Python exceptions *)

(** The exceptions the modelled code can raise.  [RemoteError] is any
    exception raised by a web3 call (connection, revert on [call()],
    ABI encoding); the source catches all of them with the same
    [except Exception].  [SystemExit] is [sys.exit(code)]. *)
Inductive exn : Type :=
| ValueError
| OverflowError
| ZeroDivisionError
| IndexError
| RemoteError
| SystemExit (code : Z).

Definition exn_eq_dec (x y : exn) : {x = y} + {x <> y}.
Proof. decide equality. apply Z.eq_dec. Defined.

(** ** Results of fallible pure code *)

Inductive result (A : Type) : Type :=
| Ok (a : A)
| Err (x : exn).
Arguments Ok {A} a.
Arguments Err {A} x.

Definition result_bind {A B} (r : result A) (f : A -> result B) : result B :=
  match r with
  | Ok a => f a
  | Err x => Err x
  end.

Definition result_map {A B} (f : A -> B) (r : result A) : result B :=
  result_bind r (fun a => Ok (f a)).

Definition is_ok {A} (r : result A) : bool :=
  match r with Ok _ => true | Err _ => false end.

Declare Scope py_scope.
Delimit Scope py_scope with py.
Notation "'let?' x ':=' c 'in' k" := (result_bind c (fun x => k))
  (at level 10, x name, c at level 100, k at level 200) : py_scope.
Open Scope py_scope.

Lemma result_bind_ok {A B} (r : result A) (f : A -> result B) b :
  result_bind r f = Ok b -> exists a, r = Ok a /\ f a = Ok b.
Proof. destruct r; simpl; [eauto | discriminate]. Qed.

Lemma result_bind_err {A B} (r : result A) (f : A -> result B) x :
  result_bind r f = Err x -> r = Err x \/ exists a, r = Ok a /\ f a = Err x.
Proof. destruct r; simpl; [eauto | intros H; inversion H; auto]. Qed.

(** ** Tactics *)

(** [inv H]: invert and clean up. *)
Ltac inv H := inversion H; clear H; subst.

(** Break the boolean tests of [Z] that the model computes with into the
    propositions [lia] reads. *)
Ltac zbool :=
  repeat match goal with
  | H : (_ <=? _) = true |- _ => apply Z.leb_le in H
  | H : (_ <=? _) = false |- _ => apply Z.leb_gt in H
  | H : (_ <? _) = true |- _ => apply Z.ltb_lt in H
  | H : (_ <? _) = false |- _ => apply Z.ltb_ge in H
  | H : (_ =? _) = true |- _ => apply Z.eqb_eq in H
  | H : (_ =? _) = false |- _ => apply Z.eqb_neq in H
  end.

(** Case on the first boolean test of [Z] in the goal. *)
Ltac case_zbool :=
  match goal with
  | |- context [if ?b then _ else _] =>
      lazymatch b with
      | (_ <=? _) => destruct b eqn:?
      | (_ <? _) => destruct b eqn:?
      | (_ =? _) => destruct b eqn:?
      end
  end; zbool.

(** ** Powers of two and ten *)

Create HintDb vault.

(** Rewrite rules that compute the transactions of a trace. *)
Create Rewrite HintDb traces.

Lemma pow2_pos (e : Z) : 0 <= e -> 0 < 2 ^ e.
Proof. intros; apply Z.pow_pos_nonneg; lia. Qed.

Lemma pow10_pos (e : Z) : 0 <= e -> 0 < 10 ^ e.
Proof. intros; apply Z.pow_pos_nonneg; lia. Qed.

Lemma pow2_add (a b : Z) : 0 <= a -> 0 <= b -> 2 ^ (a + b) = 2 ^ a * 2 ^ b.
Proof. intros; apply Z.pow_add_r; lia. Qed.

Lemma pow2_le_mono (a b : Z) : 0 <= a <= b -> 2 ^ a <= 2 ^ b.
Proof. intros; apply Z.pow_le_mono_r; lia. Qed.

Lemma pow2_lt_mono (a b : Z) : 0 <= a < b -> 2 ^ a < 2 ^ b.
Proof. intros; apply Z.pow_lt_mono_r; lia. Qed.

Lemma pow2_succ (a : Z) : 0 <= a -> 2 ^ (a + 1) = 2 * 2 ^ a.
Proof. intros; rewrite Z.pow_add_r by lia; lia. Qed.

#[export] Hint Resolve pow2_pos pow10_pos : vault.

(** Division by a positive number, the bounds [lia] needs. *)
Lemma div_mod_bounds (n d : Z) :
  0 < d -> n = d * (n / d) + n mod d /\ 0 <= n mod d < d.
Proof.
  intros Hd. split; [apply Z.div_mod; lia | apply Z.mod_pos_bound; lia].
Qed.

(** Truncating division of a value between two multiples. *)
Lemma quot_nonneg_le (n d : Z) : 0 <= n -> 0 < d -> d * Z.quot n d <= n.
Proof.
  intros Hn Hd. rewrite Z.quot_div_nonneg by lia.
  pose proof (div_mod_bounds n d Hd). lia.
Qed.
