(* ===== verification/PyFloat.v ===== *)
(** * Binary64 floats as CPython computes with them

    A Python [float] is an IEEE-754 binary64 value.  The source converts
    decimal strings with [float()], multiplies a float by an int
    ([to_wei], line 30; percentages, lines 290 and 366), divides
    ([from_wei], line 33; line 296) and truncates with [int()].  Each of
    these is, in CPython, the exact result rounded once to the nearest
    binary64 value, ties to even; ints are converted to float first
    (raising OverflowError when too large), [int()] raises on inf and nan,
    and division by a zero float raises ZeroDivisionError.

    [round_Q] is that rounding, computed with [Z] only so that it runs
    under [vm_compute]; its properties (exactness on representable
    values, monotonicity, half-ulp error) are proved below.  The sign of a
    zero is not kept: no modelled code path observes it. *)

From Stdlib Require Import ZArith QArith Lia.
From S2P Require Import Prelude.
Open Scope Z_scope.

Module PyFloat.

(** ** Data *)

(** [Fin m e] is the finite float of value [m * 2^e]. *)
Inductive float : Type :=
| Fin (m e : Z)
| Inf (neg : bool)
| NaN.

(** The format: 53-bit significands, least exponent [-1074] (the
    subnormals), overflow at [2^1024]. *)
Definition prec : Z := 53.
Definition emin : Z := -1074.
Definition emax : Z := 1024.

(** ** Rounding *)

(** Nearest integer to [n / d] ([0 < d]), ties to even. *)
Definition rne_div (n d : Z) : Z :=
  let q := n / d in
  let r := n mod d in
  match Z.compare (2 * r) d with
  | Lt => q
  | Gt => q + 1
  | Eq => if Z.even q then q else q + 1
  end.

(** [d * 2^e <= n], for an exponent of either sign. *)
Definition pow2_le (d e n : Z) : bool :=
  if 0 <=? e then d * 2 ^ e <=? n else d <=? n * 2 ^ (- e).

(** [floor (log2 (n / d))] for [0 < n] and [0 < d]. *)
Definition ilog2q (n d : Z) : Z :=
  let e := Z.log2 n - Z.log2 d in
  if pow2_le d e n then e else e - 1.

(** [n / (d * 2^s)] as a numerator and a denominator. *)
Definition scaled (n d s : Z) : Z * Z :=
  if 0 <=? s then (n, d * 2 ^ s) else (n * 2 ^ (- s), d).

(** The unbounded-exponent significand of [n / d] at exponent [s]. *)
Definition sig (n d s : Z) : Z :=
  let '(nn, dd) := scaled n d s in rne_div nn dd.

(** The exponent of the last significand bit of a value of binade [e]. *)
Definition ulp_exp (e : Z) : Z := Z.max (e - (prec - 1)) emin.

(** Rounding of the positive rational [n / d] to [Some (m, s)], the
    float [m * 2^s], or [None] on overflow. *)
Definition round_pos (n d : Z) : option (Z * Z) :=
  let e := ilog2q n d in
  if emax <=? e then None
  else
    let s := ulp_exp e in
    let m := sig n d s in
    if (m =? 2 ^ prec) && (s =? emax - prec) then None else Some (m, s).

(** Round-to-nearest-even of an exact rational. *)
Definition round_Q (x : Q) : float :=
  match Qnum x with
  | Z0 => Fin 0 0
  | Zpos p =>
      match round_pos (Zpos p) (Zpos (Qden x)) with
      | Some (m, s) => Fin m s
      | None => Inf false
      end
  | Zneg p =>
      match round_pos (Zpos p) (Zpos (Qden x)) with
      | Some (m, s) => Fin (- m) s
      | None => Inf true
      end
  end.

(** ** Values *)

Definition pow2Q (e : Z) : Q :=
  if 0 <=? e then inject_Z (2 ^ e) else 1 # Z.to_pos (2 ^ (- e)).

Definition fin_val (m e : Z) : Q := inject_Z m * pow2Q e.

(** The sign bit of a non-zero, non-nan float. *)
Definition is_neg (f : float) : bool :=
  match f with
  | Fin m _ => m <? 0
  | Inf b => b
  | NaN => false
  end.

Definition is_zero (f : float) : bool :=
  match f with
  | Fin m _ => m =? 0
  | _ => false
  end.

(** ** Operations *)

(** [x * y] on floats. *)
Definition fmul (x y : float) : float :=
  match x, y with
  | NaN, _ | _, NaN => NaN
  | Inf a, Inf b => Inf (xorb a b)
  | Inf a, Fin m _ | Fin m _, Inf a =>
      if m =? 0 then NaN else Inf (xorb a (m <? 0))
  | Fin m1 e1, Fin m2 e2 => round_Q (fin_val m1 e1 * fin_val m2 e2)
  end.

(** [x / y] on floats ([float_div]: a zero divisor raises). *)
Definition fdiv (x y : float) : result float :=
  if is_zero y then Err ZeroDivisionError
  else
    match x, y with
    | NaN, _ | _, NaN => Ok NaN
    | Inf _, Inf _ => Ok NaN
    | Inf a, Fin m _ => Ok (Inf (xorb a (m <? 0)))
    | Fin _ _, Inf _ => Ok (Fin 0 0)
    | Fin m1 e1, Fin m2 e2 => Ok (round_Q (fin_val m1 e1 / fin_val m2 e2))
    end.

(** [float(n)] of an int, as [PyLong_AsDouble] does for the int operand
    of a float operation: rounded, OverflowError past the range. *)
Definition float_of_int (n : Z) : result float :=
  match round_Q (inject_Z n) with
  | Inf _ => Err OverflowError
  | f => Ok f
  end.

(** [a / b] on ints: the quotient rounded once ([long_true_divide]). *)
Definition int_truediv (a b : Z) : result float :=
  if b =? 0 then Err ZeroDivisionError
  else
    match round_Q (inject_Z a / inject_Z b) with
    | Inf _ => Err OverflowError
    | f => Ok f
    end.

(** [int(x)]: truncation towards zero. *)
Definition trunc (m e : Z) : Z :=
  if 0 <=? e then m * 2 ^ e else Z.quot m (2 ^ (- e)).

Definition int_of_float (f : float) : result Z :=
  match f with
  | Fin m e => Ok (trunc m e)
  | Inf _ => Err OverflowError
  | NaN => Err ValueError
  end.

(** [f * n] and [n * f] with [n] an int: the int is converted first. *)
Definition fmul_int (f : float) (n : Z) : result float :=
  let? g := float_of_int n in Ok (fmul f g).

(** [f / n] with [n] an int. *)
Definition fdiv_int (f : float) (n : Z) : result float :=
  let? g := float_of_int n in fdiv f g.

(** ** Rounding an integer quotient *)

Section RneDiv.

Lemma rne_div_floor (n d : Z) :
  0 < d -> n / d <= rne_div n d <= n / d + 1.
Proof.
  intros Hd. unfold rne_div.
  destruct (Z.compare_spec (2 * (n mod d)) d); try destruct (Z.even (n / d)); lia.
Qed.

(** The rounded quotient is within half a unit: [|n/d - m| <= 1/2]. *)
Lemma rne_div_half (n d : Z) :
  0 < d -> 2 * Z.abs (n - d * rne_div n d) <= d.
Proof.
  intros Hd. pose proof (div_mod_bounds n d Hd) as [Hq Hr]. unfold rne_div.
  destruct (Z.compare_spec (2 * (n mod d)) d); try destruct (Z.even (n / d)); lia.
Qed.

Lemma rne_div_exact (k d : Z) : 0 < d -> rne_div (k * d) d = k.
Proof.
  intros Hd. unfold rne_div.
  rewrite Z.div_mul, Z_mod_mult by lia.
  destruct (Z.compare_spec (2 * 0) d); lia.
Qed.

Lemma rne_div_le_int (n d K : Z) : 0 < d -> n < K * d -> rne_div n d <= K.
Proof.
  intros Hd Hn. pose proof (rne_div_floor n d Hd).
  assert (n / d < K) by (apply Z.div_lt_upper_bound; lia). lia.
Qed.

Lemma rne_div_ge_int (n d K : Z) : 0 < d -> K * d <= n -> K <= rne_div n d.
Proof.
  intros Hd Hn. pose proof (rne_div_floor n d Hd).
  assert (K <= n / d) by (apply Z.div_le_lower_bound; lia). lia.
Qed.

(** A quotient more than half a unit below [K] rounds below [K]. *)
Lemma rne_div_lt_int (n d K : Z) : 0 < d -> 2 * n < (2 * K - 1) * d -> rne_div n d < K.
Proof.
  intros Hd Hn. pose proof (div_mod_bounds n d Hd) as [Hq Hr]. unfold rne_div.
  destruct (Z.compare_spec (2 * (n mod d)) d); try destruct (Z.even (n / d)); nia.
Qed.

(** Rounding is monotone in the quotient [n1/d1 <= n2/d2]. *)
Lemma rne_div_mono (n1 d1 n2 d2 : Z) :
  0 < d1 -> 0 < d2 -> n1 * d2 <= n2 * d1 -> rne_div n1 d1 <= rne_div n2 d2.
Proof.
  intros H1 H2 Hle.
  pose proof (div_mod_bounds n1 d1 H1) as [Hq1 Hr1].
  pose proof (div_mod_bounds n2 d2 H2) as [Hq2 Hr2].
  pose proof (rne_div_floor n1 d1 H1). pose proof (rne_div_floor n2 d2 H2).
  set (q1 := n1 / d1) in *. set (q2 := n2 / d2) in *.
  set (r1 := n1 mod d1) in *. set (r2 := n2 mod d2) in *.
  assert (q1 <= q2).
  { destruct (Z.le_gt_cases q1 q2) as [|Hgt]; [lia|].
    exfalso. assert (n2 < (q2 + 1) * d2) by lia.
    assert ((q2 + 1) * d1 <= n1) by nia. nia. }
  destruct (Z.lt_ge_cases q1 q2); [lia|].
  assert (q1 = q2) as Hq by lia.
  assert (r1 * d2 <= r2 * d1) by (rewrite Hq1, Hq2, Hq in Hle; nia).
  unfold rne_div; fold q1 q2 r1 r2; rewrite <- Hq.
  destruct (Z.compare_spec (2 * r1) d1), (Z.compare_spec (2 * r2) d2);
    try destruct (Z.even q1); try lia; nia.
Qed.

(** So it depends only on the quotient. *)
Lemma rne_div_ratio (n1 d1 n2 d2 : Z) :
  0 < d1 -> 0 < d2 -> n1 * d2 = n2 * d1 -> rne_div n1 d1 = rne_div n2 d2.
Proof.
  intros. apply Z.le_antisymm; apply rne_div_mono; lia.
Qed.

End RneDiv.

(** ** Binades *)

Section Binade.

(** [pow2_le d e n] compares [d * 2^e] with [n] after scaling both by
    any [2^k] that makes the exponents non-negative. *)
Lemma pow2_le_shift (d e n k : Z) :
  0 <= k -> 0 <= e + k ->
  pow2_le d e n = true <-> d * 2 ^ (e + k) <= n * 2 ^ k.
Proof.
  intros Hk Hek. unfold pow2_le. case_zbool.
  - rewrite Z.leb_le, Z.pow_add_r by lia.
    pose proof (pow2_pos k Hk). rewrite Z.mul_assoc.
    apply Z.mul_le_mono_pos_r; lia.
  - rewrite Z.leb_le.
    replace (n * 2 ^ k) with (n * 2 ^ (- e) * 2 ^ (e + k))
      by (rewrite <- Z.mul_assoc, <- Z.pow_add_r by lia; f_equal; f_equal; lia).
    pose proof (pow2_pos (e + k) Hek).
    apply Z.mul_le_mono_pos_r; lia.
Qed.

Lemma pow2_le_anti (d e e' n : Z) :
  0 < d -> e' <= e -> pow2_le d e n = true -> pow2_le d e' n = true.
Proof.
  intros Hd Hle H. set (k := Z.max 0 (- e')).
  apply (pow2_le_shift d e n k) in H; try lia.
  apply (pow2_le_shift d e' n k); try lia.
  assert (2 ^ (e' + k) <= 2 ^ (e + k)) by (apply pow2_le_mono; lia). nia.
Qed.

(** [pow2_le] is monotone in the ratio [n / d]. *)
Lemma pow2_le_ratio (n1 d1 n2 d2 e : Z) :
  0 < d1 -> 0 < d2 -> n1 * d2 <= n2 * d1 ->
  pow2_le d1 e n1 = true -> pow2_le d2 e n2 = true.
Proof.
  intros H1 H2 Hle H. set (k := Z.max 0 (- e)).
  apply (pow2_le_shift d1 e n1 k) in H; try lia.
  apply (pow2_le_shift d2 e n2 k); try lia.
  pose proof (pow2_pos k ltac:(lia)). pose proof (pow2_pos (e + k) ltac:(lia)).
  apply (Z.mul_le_mono_pos_l _ _ d1); [lia|]. nia.
Qed.

Lemma ilog2q_spec (n d : Z) :
  0 < n -> 0 < d ->
  pow2_le d (ilog2q n d) n = true /\ pow2_le d (ilog2q n d + 1) n = false.
Proof.
  intros Hn Hd.
  pose proof (Z.log2_spec n Hn) as [Ha1 Ha2]. pose proof (Z.log2_spec d Hd) as [Hb1 Hb2].
  pose proof (Z.log2_nonneg n). pose proof (Z.log2_nonneg d).
  set (a := Z.log2 n) in *. set (b := Z.log2 d) in *.
  assert (Lo : pow2_le d (a - b - 1) n = true).
  { apply (pow2_le_shift _ _ _ (b + 1)); try lia.
    replace (a - b - 1 + (b + 1)) with a by lia.
    rewrite Z.pow_succ_r in Hb2 by lia. rewrite Z.pow_add_r by lia. nia. }
  assert (Hi : pow2_le d (a - b + 1) n = false).
  { destruct (pow2_le d (a - b + 1) n) eqn:E; [exfalso|reflexivity].
    apply (pow2_le_shift _ _ _ (b + 1)) in E; try lia.
    replace (a - b + 1 + (b + 1)) with (a + 1 + 1) in E by lia.
    rewrite Z.pow_succ_r in Ha2 by lia.
    rewrite !Z.pow_add_r in E by lia. nia. }
  unfold ilog2q. fold a b.
  destruct (pow2_le d (a - b) n) eqn:E; split; auto.
  replace (a - b - 1 + 1) with (a - b) by lia. exact E.
Qed.

Lemma ilog2q_unique (n d e : Z) :
  0 < n -> 0 < d ->
  pow2_le d e n = true -> pow2_le d (e + 1) n = false -> ilog2q n d = e.
Proof.
  intros Hn Hd H1 H2. pose proof (ilog2q_spec n d Hn Hd) as [S1 S2].
  destruct (Z.lt_trichotomy (ilog2q n d) e) as [Hlt|[Heq|Hgt]]; auto.
  - pose proof (pow2_le_anti d e (ilog2q n d + 1) n Hd ltac:(lia) H1). congruence.
  - pose proof (pow2_le_anti d (ilog2q n d) (e + 1) n Hd ltac:(lia) S1). congruence.
Qed.

Lemma ilog2q_mono (n1 d1 n2 d2 : Z) :
  0 < n1 -> 0 < d1 -> 0 < n2 -> 0 < d2 -> n1 * d2 <= n2 * d1 ->
  ilog2q n1 d1 <= ilog2q n2 d2.
Proof.
  intros. pose proof (ilog2q_spec n1 d1) as [A _]; auto.
  pose proof (ilog2q_spec n2 d2) as [_ B]; auto.
  apply (pow2_le_ratio n1 d1 n2 d2) in A; auto.
  destruct (Z.le_gt_cases (ilog2q n1 d1) (ilog2q n2 d2)); auto.
  rewrite (pow2_le_anti d2 (ilog2q n1 d1) (ilog2q n2 d2 + 1) n2 ltac:(lia) ltac:(lia) A) in B.
  discriminate.
Qed.

End Binade.

(** ** Significands *)

Section Significand.

Lemma scaled_den_pos (n d s : Z) : 0 < d -> 0 < snd (scaled n d s).
Proof.
  intros Hd. unfold scaled. case_zbool; simpl; [pose proof (pow2_pos s) | ]; nia.
Qed.

Lemma scaled_num_nonneg (n d s : Z) : 0 <= n -> 0 <= fst (scaled n d s).
Proof.
  intros Hn. unfold scaled. case_zbool; simpl; [| pose proof (pow2_pos (- s))]; nia.
Qed.

Lemma scaled_mono (n1 d1 n2 d2 s : Z) :
  n1 * d2 <= n2 * d1 ->
  fst (scaled n1 d1 s) * snd (scaled n2 d2 s) <= fst (scaled n2 d2 s) * snd (scaled n1 d1 s).
Proof.
  intros H. unfold scaled. case_zbool; simpl.
  - pose proof (pow2_pos s ltac:(lia)). nia.
  - pose proof (pow2_pos (- s) ltac:(lia)). nia.
Qed.

(** Comparing [n / d] with [2^j], read on the scaled pair. *)
Lemma scaled_pow2_le (n d s j : Z) :
  s <= j ->
  pow2_le d j n = true <-> 2 ^ (j - s) * snd (scaled n d s) <= fst (scaled n d s).
Proof.
  intros Hsj. unfold scaled. case_zbool; simpl.
  - rewrite (pow2_le_shift d j n 0) by lia. rewrite Z.add_0_r, Z.pow_0_r, Z.mul_1_r.
    replace j with ((j - s) + s) at 1 by lia. rewrite Z.pow_add_r by lia.
    split; intros; lia.
  - rewrite (pow2_le_shift d j n (- s)) by lia.
    replace (j + - s) with (j - s) by lia. split; intros; lia.
Qed.

Lemma sig_upper (n d s j : Z) :
  0 < n -> 0 < d -> s <= j -> ilog2q n d + 1 <= j -> sig n d s <= 2 ^ (j - s).
Proof.
  intros Hn Hd Hsj Hj. pose proof (ilog2q_spec n d Hn Hd) as [_ Hf].
  assert (pow2_le d j n = false).
  { destruct (pow2_le d j n) eqn:E; auto.
    rewrite (pow2_le_anti d j _ n Hd Hj E) in Hf. discriminate. }
  pose proof (scaled_den_pos n d s Hd).
  assert (fst (scaled n d s) < 2 ^ (j - s) * snd (scaled n d s)).
  { destruct (Z.lt_ge_cases (fst (scaled n d s)) (2 ^ (j - s) * snd (scaled n d s))); auto.
    apply (scaled_pow2_le n d s j Hsj) in H1. congruence. }
  unfold sig. destruct (scaled n d s) as [nn dd]. simpl in *.
  apply rne_div_le_int; lia.
Qed.

Lemma sig_lower (n d s : Z) :
  0 < n -> 0 < d -> s <= ilog2q n d -> 2 ^ (ilog2q n d - s) <= sig n d s.
Proof.
  intros Hn Hd Hs. pose proof (ilog2q_spec n d Hn Hd) as [Ht _].
  apply (scaled_pow2_le n d s _ Hs) in Ht.
  pose proof (scaled_den_pos n d s Hd).
  unfold sig. destruct (scaled n d s) as [nn dd]. simpl in *.
  apply rne_div_ge_int; lia.
Qed.

Lemma sig_nonneg (n d s : Z) : 0 <= n -> 0 < d -> 0 <= sig n d s.
Proof.
  intros Hn Hd. pose proof (scaled_den_pos n d s Hd). pose proof (scaled_num_nonneg n d s Hn).
  unfold sig. destruct (scaled n d s) as [nn dd]. simpl in *.
  apply rne_div_ge_int; lia.
Qed.

Lemma sig_mono (n1 d1 n2 d2 s : Z) :
  0 < d1 -> 0 < d2 -> n1 * d2 <= n2 * d1 -> sig n1 d1 s <= sig n2 d2 s.
Proof.
  intros H1 H2 Hle. pose proof (scaled_mono n1 d1 n2 d2 s Hle).
  pose proof (scaled_den_pos n1 d1 s H1). pose proof (scaled_den_pos n2 d2 s H2).
  unfold sig. destruct (scaled n1 d1 s), (scaled n2 d2 s). simpl in *.
  apply rne_div_mono; lia.
Qed.

Lemma sig_ratio (n1 d1 n2 d2 s : Z) :
  0 < d1 -> 0 < d2 -> n1 * d2 = n2 * d1 -> sig n1 d1 s = sig n2 d2 s.
Proof. intros. apply Z.le_antisymm; apply sig_mono; lia. Qed.

Lemma sig_exact (n d s K : Z) :
  0 < d -> fst (scaled n d s) = K * snd (scaled n d s) -> sig n d s = K.
Proof.
  intros Hd H. pose proof (scaled_den_pos n d s Hd).
  unfold sig. destruct (scaled n d s). simpl in *. subst. apply rne_div_exact; lia.
Qed.

End Significand.

(** ** Rounding a positive rational *)

Section RoundPos.

Lemma round_pos_some (n d m s : Z) :
  round_pos n d = Some (m, s) ->
  ilog2q n d < emax /\ s = ulp_exp (ilog2q n d) /\ m = sig n d s.
Proof.
  unfold round_pos. case_zbool; [discriminate|].
  destruct (_ && _); intros H; inv H. auto.
Qed.

Lemma round_pos_range (n d m s : Z) :
  0 < n -> 0 < d -> round_pos n d = Some (m, s) ->
  emin <= s /\ 0 <= m <= 2 ^ prec.
Proof.
  intros Hn Hd H. apply round_pos_some in H as (He & -> & ->).
  unfold ulp_exp, prec, emin in *. split; [lia|]. split; [apply sig_nonneg; lia|].
  set (e := ilog2q n d) in *.
  pose proof (sig_upper n d (Z.max (e - (53 - 1)) (-1074)) (Z.max (e + 1) (Z.max (e - (53 - 1)) (-1074)))
    Hn Hd ltac:(lia) ltac:(lia)).
  assert (2 ^ (Z.max (e + 1) (Z.max (e - (53 - 1)) (-1074)) - Z.max (e - (53 - 1)) (-1074)) <= 2 ^ 53)
    by (apply pow2_le_mono; lia).
  lia.
Qed.

(** [m * 2^s] against [2^j], in units of [2^emin]. *)
Lemma units_pow2 (m s j : Z) :
  emin <= s <= j -> m <= 2 ^ (j - s) -> m * 2 ^ (s - emin) <= 2 ^ (j - emin).
Proof.
  intros Hs Hm. replace (j - emin) with ((j - s) + (s - emin)) by lia.
  rewrite Z.pow_add_r by lia. pose proof (pow2_pos (s - emin)). nia.
Qed.

Lemma pow2_units (m s j : Z) :
  emin <= s <= j -> 2 ^ (j - s) <= m -> 2 ^ (j - emin) <= m * 2 ^ (s - emin).
Proof.
  intros Hs Hm. replace (j - emin) with ((j - s) + (s - emin)) by lia.
  rewrite Z.pow_add_r by lia. pose proof (pow2_pos (s - emin)). nia.
Qed.

(** Rounding is monotone: [n1/d1 <= n2/d2] gives [m1 * 2^s1 <= m2 * 2^s2]. *)
Lemma round_pos_mono (n1 d1 n2 d2 m1 s1 m2 s2 : Z) :
  0 < n1 -> 0 < d1 -> 0 < n2 -> 0 < d2 -> n1 * d2 <= n2 * d1 ->
  round_pos n1 d1 = Some (m1, s1) -> round_pos n2 d2 = Some (m2, s2) ->
  m1 * 2 ^ (s1 - emin) <= m2 * 2 ^ (s2 - emin).
Proof.
  intros Hn1 Hd1 Hn2 Hd2 Hle R1 R2.
  pose proof (round_pos_range _ _ _ _ Hn1 Hd1 R1) as [Hs1 _].
  pose proof (round_pos_range _ _ _ _ Hn2 Hd2 R2) as [Hs2 _].
  apply round_pos_some in R1 as (_ & E1 & M1). apply round_pos_some in R2 as (_ & E2 & M2).
  pose proof (ilog2q_mono n1 d1 n2 d2 Hn1 Hd1 Hn2 Hd2 Hle) as He.
  set (e1 := ilog2q n1 d1) in *. set (e2 := ilog2q n2 d2) in *.
  unfold ulp_exp, prec in E1, E2.
  destruct (Z.eq_dec s1 s2) as [<-|Hne].
  - subst m1 m2. pose proof (sig_mono n1 d1 n2 d2 s1 Hd1 Hd2 Hle).
    pose proof (pow2_pos (s1 - emin) ltac:(lia)). nia.
  - assert (Hlt : e1 < e2) by lia.
    set (j := Z.max (e1 + 1) s1).
    pose proof (sig_upper n1 d1 s1 j Hn1 Hd1 ltac:(lia) ltac:(lia)) as U.
    pose proof (sig_lower n2 d2 s2 Hn2 Hd2 ltac:(lia)) as L. fold e2 in L.
    rewrite <- M1 in U. rewrite <- M2 in L.
    pose proof (units_pow2 m1 s1 j ltac:(lia) U).
    pose proof (pow2_units m2 s2 e2 ltac:(lia) L).
    assert (2 ^ (j - emin) <= 2 ^ (e2 - emin)) by (apply pow2_le_mono; unfold emin in *; lia).
    lia.
Qed.

(** Overflow is monotone too. *)
Lemma round_pos_overflow_mono (n1 d1 n2 d2 : Z) :
  0 < n1 -> 0 < d1 -> 0 < n2 -> 0 < d2 -> n1 * d2 <= n2 * d1 ->
  round_pos n1 d1 = None -> round_pos n2 d2 = None.
Proof.
  intros Hn1 Hd1 Hn2 Hd2 Hle.
  pose proof (ilog2q_mono n1 d1 n2 d2 Hn1 Hd1 Hn2 Hd2 Hle) as He.
  unfold round_pos. set (e1 := ilog2q n1 d1) in *. set (e2 := ilog2q n2 d2) in *.
  destruct (emax <=? e1) eqn:O1; zbool; [intros _; case_zbool; [reflexivity | lia]|].
  destruct (emax <=? e2) eqn:O2; zbool; [reflexivity|].
  destruct (sig n1 d1 (ulp_exp e1) =? 2 ^ prec) eqn:S1, (ulp_exp e1 =? emax - prec) eqn:T1;
    simpl; intros H; try discriminate; zbool.
  unfold ulp_exp, emax, prec, emin in *.
  assert (e1 = 1023) by lia. assert (e2 = 1023) by lia.
  assert (Hs : ulp_exp e2 = ulp_exp e1) by (unfold ulp_exp; f_equal; lia).
  unfold ulp_exp, prec, emin in Hs. rewrite Hs.
  pose proof (sig_mono n1 d1 n2 d2 (Z.max (e1 - (53 - 1)) (-1074)) Hd1 Hd2 Hle).
  pose proof (sig_upper n2 d2 (Z.max (e1 - (53 - 1)) (-1074)) 1024 Hn2 Hd2 ltac:(lia) ltac:(lia)).
  replace (1024 - Z.max (e1 - (53 - 1)) (-1074)) with 53 in * by lia.
  assert (A : sig n2 d2 (Z.max (e1 - (53 - 1)) (-1074)) = 2 ^ 53) by lia.
  assert (B : Z.max (e1 - (53 - 1)) (-1074) = 971) by lia.
  rewrite A, B. reflexivity.
Qed.

Lemma scaled_shift (n d s s0 : Z) :
  s <= s0 ->
  fst (scaled n d s) * snd (scaled n d s0) = 2 ^ (s0 - s) * fst (scaled n d s0) * snd (scaled n d s).
Proof.
  intros H. unfold scaled.
  destruct (0 <=? s) eqn:A, (0 <=? s0) eqn:B; zbool; simpl; try lia.
  - replace s0 with ((s0 - s) + s) at 1 by lia. rewrite Z.pow_add_r by lia. ring.
  - replace (s0 - s) with (s0 + - s) by lia. rewrite Z.pow_add_r by lia. ring.
  - replace (- s) with ((s0 - s) + - s0) by lia. rewrite Z.pow_add_r by lia. ring.
Qed.

(** A value [K * 2^s0] with [K] below [2^53] and [s0] in the exponent
    range is a float: rounding returns it unchanged. *)
Lemma round_pos_exact (n d K s0 : Z) :
  0 < n -> 0 < d -> 0 < K < 2 ^ prec -> emin <= s0 <= emax - prec ->
  fst (scaled n d s0) = K * snd (scaled n d s0) ->
  exists m s, round_pos n d = Some (m, s) /\ m * 2 ^ (s - emin) = K * 2 ^ (s0 - emin).
Proof.
  intros Hn Hd HK Hs0 HN. unfold prec, emin, emax in *.
  pose proof (Z.log2_spec K ltac:(lia)) as [La Lb]. pose proof (Z.log2_nonneg K).
  assert (Z.log2 K < 53) by (apply Z.log2_lt_pow2; lia).
  assert (He : ilog2q n d = Z.log2 K + s0).
  { pose proof (scaled_den_pos n d s0 Hd).
    apply ilog2q_unique; auto.
    - rewrite (scaled_pow2_le n d s0) by lia.
      replace (Z.log2 K + s0 - s0) with (Z.log2 K) by lia. nia.
    - destruct (pow2_le d (Z.log2 K + s0 + 1) n) eqn:E; auto.
      rewrite (scaled_pow2_le n d s0) in E by lia.
      replace (Z.log2 K + s0 + 1 - s0) with (Z.succ (Z.log2 K)) in E by lia. nia. }
  set (s := ulp_exp (ilog2q n d)).
  assert (Hss : s <= s0 /\ -1074 <= s) by (unfold s, ulp_exp, prec, emin; lia).
  assert (Hm : sig n d s = K * 2 ^ (s0 - s)).
  { apply sig_exact; auto. pose proof (scaled_shift n d s s0 ltac:(lia)) as Sh.
    pose proof (scaled_den_pos n d s0 Hd). rewrite HN in Sh.
    apply (Z.mul_cancel_r _ _ (snd (scaled n d s0))); lia. }
  exists (K * 2 ^ (s0 - s)), s. split.
  - unfold round_pos. fold s. rewrite Hm. case_zbool; [unfold emax in *; lia|].
    destruct (_ =? 2 ^ prec) eqn:E1, (s =? emax - prec) eqn:E2; simpl; auto; zbool.
    unfold emax, prec in *. assert (s0 = s) by lia. subst s0.
    rewrite Z.sub_diag, Z.pow_0_r in E1. lia.
  - rewrite <- Z.mul_assoc, <- Z.pow_add_r by lia. f_equal. f_equal. lia.
Qed.

(** Rounding depends on the value [n / d] only. *)
Lemma round_pos_ratio (n1 d1 n2 d2 : Z) :
  0 < n1 -> 0 < d1 -> 0 < n2 -> 0 < d2 -> n1 * d2 = n2 * d1 ->
  round_pos n1 d1 = round_pos n2 d2.
Proof.
  intros. assert (He : ilog2q n1 d1 = ilog2q n2 d2)
    by (apply Z.le_antisymm; apply ilog2q_mono; lia).
  unfold round_pos. rewrite He.
  rewrite (sig_ratio n1 d1 n2 d2 (ulp_exp (ilog2q n2 d2))) by lia. reflexivity.
Qed.

End RoundPos.

(** ** Values of floats *)

Section Values.

Lemma Zpos_to_pos_pow2 (k : Z) : 0 <= k -> Zpos (Z.to_pos (2 ^ k)) = 2 ^ k.
Proof. intros; apply Z2Pos.id, pow2_pos; lia. Qed.

(** [m * 2^s] as the fraction [m * 2^(s+k) / 2^k]. *)
Lemma fin_val_scale (m s k : Z) :
  0 <= k -> 0 <= s + k -> fin_val m s == (m * 2 ^ (s + k)) # Z.to_pos (2 ^ k).
Proof.
  intros Hk Hsk. unfold fin_val, pow2Q, Qeq. simpl.
  rewrite Zpos_to_pos_pow2 by lia. case_zbool; simpl.
  - rewrite Z.pow_add_r by lia. lia.
  - rewrite Zpos_to_pos_pow2 by lia.
    replace k with ((s + k) + - s) at 1 by lia. rewrite Z.pow_add_r by lia. lia.
Qed.

Lemma Qle_same_den (a b : Z) (p : positive) : ((a # p) <= (b # p))%Q <-> a <= b.
Proof.
  unfold Qle. simpl. split; intros; [apply (Z.mul_le_mono_pos_r _ _ (Zpos p)) | nia]; lia.
Qed.

(** Comparing floats is comparing their values in units of [2^emin]. *)
Lemma fin_val_le_iff (m1 s1 m2 s2 : Z) :
  emin <= s1 -> emin <= s2 ->
  (fin_val m1 s1 <= fin_val m2 s2)%Q <-> m1 * 2 ^ (s1 - emin) <= m2 * 2 ^ (s2 - emin).
Proof.
  intros H1 H2. unfold emin in *.
  rewrite (fin_val_scale m1 s1 1074), (fin_val_scale m2 s2 1074) by lia.
  replace (s1 + 1074) with (s1 - -1074) by lia. replace (s2 + 1074) with (s2 - -1074) by lia.
  apply Qle_same_den.
Qed.

Lemma fin_val_nonneg (m s : Z) : 0 <= m -> (0 <= fin_val m s)%Q.
Proof.
  intros Hm. rewrite (fin_val_scale m s (Z.max 0 (- s))) by lia.
  unfold Qle. simpl. pose proof (pow2_pos (s + Z.max 0 (- s))). nia.
Qed.

(** Rounding depends only on the value: a [Proper] instance for [Qeq]. *)
#[export] Instance round_Q_Proper : Proper (Qeq ==> eq) round_Q.
Proof.
  intros x y Hxy. unfold Qeq in Hxy. unfold round_Q.
  destruct x as [[|p|p] dx], y as [[|q|q] dy]; simpl in *; try lia; auto;
    rewrite (round_pos_ratio (Zpos p) (Zpos dx) (Zpos q) (Zpos dy)) by lia; reflexivity.
Qed.

(** Rounding of a non-negative value is monotone. *)
Lemma round_Q_mono (x y : Q) (m1 e1 m2 e2 : Z) :
  (0 <= x)%Q -> (x <= y)%Q -> round_Q x = Fin m1 e1 -> round_Q y = Fin m2 e2 ->
  (fin_val m1 e1 <= fin_val m2 e2)%Q.
Proof.
  intros H0 Hle R1 R2. unfold Qle in H0, Hle. unfold round_Q in R1, R2.
  destruct x as [[|p|p] dx], y as [[|q|q] dy]; simpl in *; try lia.
  - inv R1. inv R2. apply Qle_refl.
  - inv R1. destruct (round_pos _ _) as [[m s]|] eqn:R; inv R2.
    apply round_pos_range in R as [_ [Hm _]]; try lia.
    unfold fin_val at 1. simpl. rewrite Qmult_0_l. apply fin_val_nonneg. lia.
  - destruct (round_pos (Zpos p) _) as [[m s]|] eqn:A; inv R1.
    destruct (round_pos (Zpos q) _) as [[m' s']|] eqn:B; inv R2.
    pose proof (round_pos_range (Zpos p) (Zpos dx) m1 e1 ltac:(lia) ltac:(lia) A) as [Hs1 _].
    pose proof (round_pos_range (Zpos q) (Zpos dy) m2 e2 ltac:(lia) ltac:(lia) B) as [Hs2 _].
    apply fin_val_le_iff; auto.
    apply (round_pos_mono (Zpos p) (Zpos dx) (Zpos q) (Zpos dy)); auto; lia.
Qed.

Lemma round_Q_overflow_mono (x y : Q) :
  (0 <= x)%Q -> (x <= y)%Q -> round_Q x = Inf false -> round_Q y = Inf false.
Proof.
  intros H0 Hle R1. unfold Qle in *. unfold round_Q in *.
  destruct x as [[|p|p] dx], y as [[|q|q] dy]; simpl in *; try lia; try discriminate.
  - destruct (round_pos (Zpos p) _) as [[m s]|] eqn:A; inv R1.
    rewrite (round_pos_overflow_mono (Zpos p) (Zpos dx) (Zpos q) (Zpos dy)); auto; lia.
Qed.

(** A value [K * 2^s0] with [0 <= K < 2^53] in the exponent range is
    returned unchanged. *)
Lemma round_Q_exact (K s0 : Z) :
  0 <= K < 2 ^ prec -> emin <= s0 <= emax - prec ->
  exists m s, round_Q (fin_val K s0) = Fin m s /\ fin_val m s == fin_val K s0.
Proof.
  intros HK Hs0. unfold prec, emin, emax in *.
  pose proof (fin_val_scale K s0 1074 ltac:(lia) ltac:(lia)) as Hv.
  assert (E : round_Q (fin_val K s0) = round_Q ((K * 2 ^ (s0 + 1074)) # Z.to_pos (2 ^ 1074)))
    by (apply round_Q_Proper; exact Hv).
  rewrite E. apply Qeq_sym in Hv.
  enough (exists m s, round_Q ((K * 2 ^ (s0 + 1074)) # Z.to_pos (2 ^ 1074)) = Fin m s /\
                      fin_val m s == (K * 2 ^ (s0 + 1074)) # Z.to_pos (2 ^ 1074)) as (m & s & A & B)
    by (exists m, s; split; [exact A | exact (Qeq_trans _ _ _ B Hv)]).
  clear E Hv.
  destruct (Z.eq_dec K 0) as [->|HK0].
  { exists 0, 0. split; [reflexivity|]. unfold fin_val, Qeq. simpl. lia. }
  assert (0 < 2 ^ 1074) by (apply pow2_pos; lia).
  assert (Hp : 0 < K * 2 ^ (s0 + 1074)) by (pose proof (pow2_pos (s0 + 1074)); nia).
  unfold round_Q. cbn [Qnum Qden].
  destruct (K * 2 ^ (s0 + 1074)) as [|p|p] eqn:EK; try lia.
  destruct (round_pos_exact (Zpos p) (Zpos (Z.to_pos (2 ^ 1074))) K s0) as (m & s & R & V);
    unfold prec, emin, emax; rewrite ?Zpos_to_pos_pow2 by lia; try lia.
  - rewrite <- EK. unfold scaled. case_zbool; cbn [fst snd].
    + rewrite Z.pow_add_r by lia. ring.
    + rewrite <- Z.mul_assoc, <- Z.pow_add_r by lia.
      replace (s0 + 1074 + - s0) with 1074 by lia. reflexivity.
  - rewrite Zpos_to_pos_pow2 in R by lia.
    exists m, s. rewrite R. split; [reflexivity|].
    pose proof (round_pos_range (Zpos p) (2 ^ 1074) m s ltac:(lia) ltac:(lia) R) as [Hs _].
    unfold emin in Hs, V.
    replace (s - -1074) with (s + 1074) in V by lia.
    replace (s0 - -1074) with (s0 + 1074) in V by lia.
    apply (Qeq_trans _ _ _ (fin_val_scale m s 1074 ltac:(lia) ltac:(lia))).
    unfold Qeq. cbn [Qnum Qden]. rewrite V, EK. reflexivity.
Qed.

End Values.

(** ** Integers *)

Section Integers.

Lemma fin_val_int (K j : Z) : 0 <= j -> fin_val K j == inject_Z (K * 2 ^ j).
Proof.
  intros Hj. unfold fin_val, pow2Q. case_zbool; [|lia].
  rewrite inject_Z_mult. reflexivity.
Qed.

(** An integer [K * 2^j] with [K] below [2^53] converts exactly. *)
Lemma round_Q_int (V K j : Z) :
  V = K * 2 ^ j -> 0 <= K < 2 ^ prec -> 0 <= j <= emax - prec ->
  exists m s, round_Q (inject_Z V) = Fin m s /\ fin_val m s == inject_Z V.
Proof.
  intros -> HK Hj.
  destruct (round_Q_exact K j HK ltac:(unfold emin; lia)) as (m & s & R & E).
  exists m, s. rewrite (fin_val_int K j) in R, E by lia. auto.
Qed.

Lemma float_of_int_exact (V K j : Z) :
  V = K * 2 ^ j -> 0 <= K < 2 ^ prec -> 0 <= j <= emax - prec ->
  exists m s, float_of_int V = Ok (Fin m s) /\ fin_val m s == inject_Z V.
Proof.
  intros HV HK Hj. destruct (round_Q_int V K j HV HK Hj) as (m & s & R & E).
  exists m, s. unfold float_of_int. rewrite R. auto.
Qed.

(** [int(x)] of a float holding an integer is that integer. *)
Lemma trunc_int (m s V : Z) : fin_val m s == inject_Z V -> trunc m s = V.
Proof.
  unfold fin_val, pow2Q, trunc, Qeq. case_zbool; simpl.
  - rewrite Z.mul_1_r, Z.mul_1_r. auto.
  - rewrite Zpos_to_pos_pow2 by lia. intros H.
    replace m with (V * 2 ^ (- s)) by lia.
    apply Z.quot_mul. pose proof (pow2_pos (- s)). lia.
Qed.

(** [int(x)] never exceeds a non-negative [x], and is non-negative. *)
Lemma trunc_le (m s : Z) : 0 <= m -> 0 <= trunc m s /\ (inject_Z (trunc m s) <= fin_val m s)%Q.
Proof.
  intros Hm. unfold fin_val, pow2Q, trunc. case_zbool.
  - pose proof (pow2_pos s ltac:(lia)). split; [nia|].
    rewrite inject_Z_mult. apply Qle_refl.
  - pose proof (pow2_pos (- s) ltac:(lia)).
    split; [apply Z.quot_pos; lia|].
    unfold Qle. simpl. rewrite Zpos_to_pos_pow2 by lia.
    pose proof (quot_nonneg_le m (2 ^ (- s)) Hm ltac:(lia)). lia.
Qed.

(** Rounding a non-negative value gives a non-negative float or [+inf]. *)
Lemma round_Q_nonneg (x : Q) :
  (0 <= x)%Q -> round_Q x = Inf false \/ exists m e, round_Q x = Fin m e /\ 0 <= m.
Proof.
  intros H. unfold Qle in H. unfold round_Q. destruct x as [[|p|p] dx]; simpl in *.
  - right. exists 0, 0. auto.
  - destruct (round_pos (Zpos p) (Zpos dx)) as [[m e]|] eqn:R; auto.
    right. exists m, e. split; auto.
    apply (round_pos_range (Zpos p) (Zpos dx) m e); auto; lia.
  - lia.
Qed.

(** A non-negative value below an integer float rounds to a finite
    float below it. *)
Lemma round_Q_le_int (x : Q) (V K j : Z) :
  V = K * 2 ^ j -> 0 <= K < 2 ^ prec -> 0 <= j <= emax - prec ->
  (0 <= x)%Q -> (x <= inject_Z V)%Q ->
  exists m e, round_Q x = Fin m e /\ 0 <= m /\ (0 <= fin_val m e <= inject_Z V)%Q.
Proof.
  intros HV HK Hj H0 Hle.
  destruct (round_Q_int V K j HV HK Hj) as (mv & ev & RV & EV).
  destruct (round_Q_nonneg x H0) as [Hinf | (m & e & R & Hm)].
  - rewrite (round_Q_overflow_mono x (inject_Z V) H0 Hle Hinf) in RV. discriminate.
  - exists m, e. repeat split; auto.
    + apply fin_val_nonneg; auto.
    + rewrite <- EV. apply (round_Q_mono x (inject_Z V)); auto.
Qed.

(** Below [2^53 / 100] the binade of [x / 100] is at most [46]. *)
Lemma ilog2q_div100 (x : Z) : 0 < x < 2 ^ prec -> ilog2q x 100 <= 46.
Proof.
  intros Hx. pose proof (ilog2q_spec x 100 ltac:(lia) ltac:(lia)) as [Ht _].
  destruct (Z.le_gt_cases (ilog2q x 100) 46) as [|Hgt]; auto. exfalso.
  apply (pow2_le_anti 100 (ilog2q x 100) 47 x ltac:(lia) ltac:(lia)) in Ht.
  unfold pow2_le in Ht. simpl in Ht. unfold prec in Hx. apply Z.leb_le in Ht. lia.
Qed.

(** [int(x / 100.0)] of an integer [x] below [2^53] is the floor
    [x / 100]: the float grid below [2^47] is finer than [1/64], and
    [x / 100] lies at least [1/100] below the next integer. *)
Lemma round_Q_div100_floor (x : Z) :
  0 <= x < 2 ^ prec ->
  exists m s, round_Q (inject_Z x / inject_Z 100) = Fin m s /\ trunc m s = x / 100.
Proof.
  intros Hx. destruct (Z.eq_dec x 0) as [->|Hx0]; [exists 0, 0; split; reflexivity|].
  assert (E : inject_Z x / inject_Z 100 == x # 100) by (unfold Qeq; simpl; lia).
  rewrite (round_Q_Proper _ _ E). pose proof (ilog2q_div100 x ltac:(lia)) as He.
  set (e := ilog2q x 100) in *. set (s := ulp_exp e).
  assert (Hs : emin <= s <= -6) by (unfold s, ulp_exp, emin, prec; lia).
  set (k := - s). assert (Hk : 2 ^ 6 <= 2 ^ k) by (apply pow2_le_mono; lia).
  assert (Hsig : sig x 100 s = rne_div (x * 2 ^ k) 100)
    by (unfold sig, scaled; replace (0 <=? s) with false by (symmetry; apply Z.leb_gt; lia); reflexivity).
  set (m := sig x 100 s) in *.
  assert (Hlo : x / 100 * 2 ^ k <= m).
  { rewrite Hsig. apply rne_div_ge_int; [lia|].
    pose proof (div_mod_bounds x 100 ltac:(lia)). nia. }
  assert (Hhi : m < (x / 100 + 1) * 2 ^ k).
  { rewrite Hsig. apply rne_div_lt_int; [lia|].
    pose proof (div_mod_bounds x 100 ltac:(lia)). nia. }
  exists m, s. split.
  - destruct x as [|p|p]; [lia| |lia]. unfold round_Q. cbn [Qnum Qden].
    unfold round_pos. fold e. replace (emax <=? e) with false by (symmetry; apply Z.leb_gt; unfold emax; lia).
    fold s. fold m. replace (s =? emax - prec) with false by (symmetry; apply Z.eqb_neq; unfold emax, prec; lia).
    rewrite andb_false_r. reflexivity.
  - unfold trunc. replace (0 <=? s) with false by (symmetry; apply Z.leb_gt; lia).
    fold k. pose proof (pow2_pos k ltac:(lia)). pose proof (Z.div_pos x 100 ltac:(lia) ltac:(lia)).
    rewrite Z.quot_div_nonneg by nia.
    symmetry. apply Z.div_unique_pos with (r := m - x / 100 * 2 ^ k); lia.
Qed.

End Integers.

End PyFloat.
