(* ===== verification/PyParse.v ===== *)
(** * [float(str)] as CPython parses it

    The source converts every operator-supplied amount with [float()]
    (lines 30, 231, 289, 365, 411, 413).  CPython
    ([PyFloat_FromString]) first checks and removes underscores
    ([_Py_string_to_number_with_underscores]: an underscore must follow
    and precede a digit), then strips ASCII whitespace at both ends,
    then reads an optional sign followed by [inf], [infinity] or [nan]
    (any case) or by a decimal numeral [digits [. digits] [e [sign]
    digits]] with at least one mantissa digit; the whole string must be
    consumed, otherwise ValueError.  The decimal value is then rounded
    once ([_Py_dg_strtod] is correctly rounded); an out-of-range value
    becomes an infinity, not an error.

    [parse_literal] is that grammar on [list ascii]; [py_float] rounds
    the exact value with [PyFloat.round_Q].  Unicode digits and spaces,
    which CPython maps to ASCII first, are not modelled. *)

From Stdlib Require Import ZArith QArith List String Ascii Lia.
From S2P Require Import Prelude PyFloat.
Import ListNotations.
Open Scope Z_scope.

Module PyParse.
Import PyFloat.

(** ** Characters *)

Definition is_digit (c : ascii) : bool :=
  let n := nat_of_ascii c in (48 <=? n)%nat && (n <=? 57)%nat.

Definition digit_val (c : ascii) : Z := Z.of_nat (nat_of_ascii c) - 48.

(** [Py_ISSPACE]: space, tab, newline, vertical tab, form feed, return. *)
Definition is_space (c : ascii) : bool :=
  let n := nat_of_ascii c in (n =? 32)%nat || ((9 <=? n)%nat && (n <=? 13)%nat).

Definition lower (c : ascii) : ascii :=
  let n := nat_of_ascii c in
  if (65 <=? n)%nat && (n <=? 90)%nat then ascii_of_nat (n + 32) else c.

(** ** Underscores *)

(** The scan of [_Py_string_to_number_with_underscores]: [prev] is the
    previous character; the result is the string without underscores. *)
Fixpoint strip_underscores (prev : option ascii) (l : list ascii) : option (list ascii) :=
  match l with
  | [] =>
      match prev with
      | Some "_"%char => None
      | _ => Some []
      end
  | c :: t =>
      if Ascii.eqb c "_"%char then
        match prev with
        | Some p => if is_digit p then strip_underscores (Some c) t else None
        | None => None
        end
      else
        let ok := match prev with
                  | Some "_"%char => is_digit c
                  | _ => true
                  end in
        if ok then option_map (cons c) (strip_underscores (Some c) t) else None
  end.

(** The scan runs only when the string holds an underscore. *)
Definition remove_underscores (l : list ascii) : option (list ascii) :=
  if existsb (fun c => Ascii.eqb c "_"%char) l then strip_underscores None l else Some l.

(** ** Whitespace *)

Fixpoint drop_spaces (l : list ascii) : list ascii :=
  match l with
  | c :: t => if is_space c then drop_spaces t else l
  | [] => []
  end.

Definition strip (l : list ascii) : list ascii :=
  rev (drop_spaces (rev (drop_spaces l))).

(** ** Numerals *)

(** The longest prefix of digits, and the rest. *)
Fixpoint span_digits (l : list ascii) : list ascii * list ascii :=
  match l with
  | c :: t =>
      if is_digit c then let '(ds, r) := span_digits t in (c :: ds, r) else ([], l)
  | [] => ([], [])
  end.

(** The integer a digit string denotes. *)
Definition digits_value (ds : list ascii) : Z :=
  fold_left (fun acc c => 10 * acc + digit_val c) ds 0.

Inductive literal : Type :=
| LNum (neg : bool) (mant : Z) (exp10 : Z)
| LInf (neg : bool)
| LNaN.

Definition take_sign (l : list ascii) : bool * list ascii :=
  match l with
  | "-"%char :: t => (true, t)
  | "+"%char :: t => (false, t)
  | _ => (false, l)
  end.

(** The exponent part, which must end the string. *)
Definition parse_exponent (l : list ascii) : option Z :=
  match l with
  | [] => Some 0
  | c :: t =>
      if Ascii.eqb (lower c) "e"%char then
        let '(neg, t') := take_sign t in
        let '(ds, r) := span_digits t' in
        match ds, r with
        | _ :: _, [] => Some (if neg then - digits_value ds else digits_value ds)
        | _, _ => None
        end
      else None
  end.

(** [digits [. digits] exponent], at least one mantissa digit. *)
Definition parse_decimal (neg : bool) (l : list ascii) : option literal :=
  let '(d1, r1) := span_digits l in
  let '(d2, r2) :=
    match r1 with
    | "."%char :: t => span_digits t
    | _ => ([], r1)
    end in
  match d1 ++ d2 with
  | [] => None
  | ds =>
      match parse_exponent r2 with
      | Some e => Some (LNum neg (digits_value ds) (e - Z.of_nat (List.length d2)))
      | None => None
      end
  end.

Definition list_of (s : string) : list ascii := list_ascii_of_string s.

(** [_Py_parse_inf_or_nan], anchored at both ends. *)
Definition parse_special (neg : bool) (l : list ascii) : option literal :=
  let w := map lower l in
  if list_eq_dec ascii_dec w (list_of "inf") then Some (LInf neg)
  else if list_eq_dec ascii_dec w (list_of "infinity") then Some (LInf neg)
  else if list_eq_dec ascii_dec w (list_of "nan") then Some LNaN
  else None.

Definition parse_literal (s : string) : option literal :=
  match remove_underscores (list_of s) with
  | None => None
  | Some l =>
      let '(neg, body) := take_sign (strip l) in
      match parse_decimal neg body with
      | Some lit => Some lit
      | None => parse_special neg body
      end
  end.

(** ** Values *)

(** The exact value [mant * 10^exp10]. *)
Definition dec_val (mant exp10 : Z) : Q :=
  if 0 <=? exp10 then inject_Z (mant * 10 ^ exp10)
  else mant # Z.to_pos (10 ^ (- exp10)).

(** [float(s)]. *)
Definition py_float (s : string) : result float :=
  match parse_literal s with
  | None => Err ValueError
  | Some (LInf neg) => Ok (Inf neg)
  | Some LNaN => Ok NaN
  | Some (LNum neg m e) =>
      Ok (round_Q (if neg then Qopp (dec_val m e) else dec_val m e))
  end.

(** ** [int(str)] *)

(** CPython's limit on the digits of a decimal string given to [int]
    ([sys.int_info.default_max_str_digits]). *)
Definition max_str_digits : nat := 4300.

(** [int(s)] in base 10 ([PyLong_FromString]): surrounding whitespace,
    an optional sign, then digits with single underscores between
    digits; leading zeros are allowed in base 10.  Anything else, or more
    than [max_str_digits] digits, raises ValueError. *)
Definition py_int (s : string) : result Z :=
  let '(neg, body) := take_sign (strip (list_of s)) in
  match body with
  | c :: _ =>
      if is_digit c then
        match strip_underscores None body with
        | Some ds =>
            if forallb is_digit ds && (List.length ds <=? max_str_digits)%nat then
              Ok (if neg then - digits_value ds else digits_value ds)
            else Err ValueError
        | None => Err ValueError
        end
      else Err ValueError
  | [] => Err ValueError
  end.

(** ** Plain digit strings *)

Section Digits.

Lemma span_digits_all (l : list ascii) :
  forallb is_digit l = true -> span_digits l = (l, []).
Proof.
  induction l as [|c t IH]; simpl; auto.
  intros H. apply andb_prop in H as [Hc Ht]. rewrite Hc, IH; auto.
Qed.

Lemma digit_not_space (c : ascii) : is_digit c = true -> is_space c = false.
Proof.
  unfold is_digit, is_space. intros H. apply andb_prop in H as [H1 H2].
  apply Nat.leb_le in H1, H2.
  destruct (Nat.eqb_spec (nat_of_ascii c) 32); [lia|].
  destruct (Nat.leb_spec 9 (nat_of_ascii c)), (Nat.leb_spec (nat_of_ascii c) 13); simpl; auto; lia.
Qed.

Lemma drop_spaces_digits (l : list ascii) :
  forallb is_digit l = true -> drop_spaces l = l.
Proof.
  destruct l as [|c t]; simpl; auto. intros H. apply andb_prop in H as [Hc _].
  rewrite (digit_not_space c Hc). reflexivity.
Qed.

Lemma strip_digits (l : list ascii) : forallb is_digit l = true -> strip l = l.
Proof.
  intros H. unfold strip. rewrite (drop_spaces_digits l H).
  rewrite drop_spaces_digits, rev_involutive; auto.
  rewrite forallb_forall in *. intros x Hx. apply H, in_rev, Hx.
Qed.

Lemma remove_underscores_digits (l : list ascii) :
  forallb is_digit l = true -> remove_underscores l = Some l.
Proof.
  intros H. unfold remove_underscores.
  replace (existsb _ l) with false; auto. symmetry.
  apply Bool.not_true_iff_false. rewrite existsb_exists. intros (c & Hin & Hc).
  rewrite forallb_forall in H. specialize (H c Hin).
  apply Ascii.eqb_eq in Hc. subst. discriminate.
Qed.

(** A plain digit string parses to its integer value. *)
Lemma take_sign_digit (c : ascii) (t : list ascii) :
  is_digit c = true -> take_sign (c :: t) = (false, c :: t).
Proof. unfold is_digit. destruct c as [[] [] [] [] [] [] [] []]; simpl; intros H; auto; discriminate. Qed.

Lemma not_underscore_digit {B} (q : ascii) (x y : B) :
  is_digit q = true -> match q with "_"%char => x | _ => y end = y.
Proof. unfold is_digit. destruct q as [[] [] [] [] [] [] [] []]; simpl; intros H; auto; discriminate. Qed.

Lemma strip_underscores_digits (l : list ascii) (p : option ascii) :
  forallb is_digit l = true -> (forall q, p = Some q -> is_digit q = true) ->
  strip_underscores p l = Some l.
Proof.
  revert p. induction l as [|c t IH]; intros p Hl Hp; simpl.
  - destruct p as [q|]; auto. apply not_underscore_digit, Hp; auto.
  - apply andb_prop in Hl as [Hc Ht].
    destruct (Ascii.eqb_spec c "_"%char) as [->|_]; [discriminate Hc|].
    replace (match p with Some "_"%char => is_digit c | _ => true end) with true
      by (destruct p as [q|]; auto; symmetry; apply not_underscore_digit, Hp; auto).
    rewrite (IH (Some c)); auto. intros q Hq. injection Hq as <-. auto.
Qed.

Lemma parse_literal_digits (s : string) :
  forallb is_digit (list_of s) = true -> list_of s <> [] ->
  parse_literal s = Some (LNum false (digits_value (list_of s)) 0).
Proof.
  intros H Hne. unfold parse_literal.
  rewrite remove_underscores_digits, strip_digits by auto.
  destruct (list_of s) as [|c t] eqn:E; [congruence|].
  assert (Hc : is_digit c = true) by (simpl in H; apply andb_prop in H; tauto).
  rewrite take_sign_digit by auto. unfold parse_decimal. rewrite span_digits_all by auto. simpl.
  rewrite app_nil_r. reflexivity.
Qed.

(** [int(s)] of a plain digit string of at most [max_str_digits]
    digits is the number it denotes. *)
Theorem py_int_digits (s : string) :
  forallb is_digit (list_of s) = true -> list_of s <> [] ->
  (List.length (list_of s) <= max_str_digits)%nat ->
  py_int s = Ok (digits_value (list_of s)).
Proof.
  intros H Hne Hlen. unfold py_int. rewrite strip_digits by auto.
  destruct (list_of s) as [|c t] eqn:E; [congruence|].
  assert (Hc : is_digit c = true) by (simpl in H; apply andb_prop in H; tauto).
  rewrite take_sign_digit, Hc, strip_underscores_digits by (auto; discriminate).
  rewrite H. apply Nat.leb_le in Hlen. rewrite Hlen. reflexivity.
Qed.

Lemma digit_val_range (c : ascii) : is_digit c = true -> 0 <= digit_val c <= 9.
Proof.
  unfold is_digit, digit_val. intros H. apply andb_prop in H as [H1 H2].
  apply Nat.leb_le in H1, H2. lia.
Qed.

Lemma digits_value_nonneg (l : list ascii) :
  forallb is_digit l = true -> 0 <= digits_value l.
Proof.
  unfold digits_value. intros H.
  enough (G : forall acc, 0 <= acc -> 0 <= fold_left (fun acc c => 10 * acc + digit_val c) l acc)
    by (apply G; lia).
  induction l as [|c t IH]; cbn [fold_left forallb] in *; intros acc Hacc; auto.
  apply andb_prop in H as [Hc Ht]. apply IH; auto.
  pose proof (digit_val_range c Hc). lia.
Qed.

End Digits.

End PyParse.
