(* ===== verification/Units.v ===== *)
(** * Unit conversion: [to_wei] and [from_wei]

    Lines 29-33 of the source:
<<
    def to_wei(amount, decimals=18):
        return int(float(amount) * 10**decimals)
    def from_wei(amount, decimals=18):
        return amount / 10**decimals
>>
    [amount] of [to_wei] is always an operator string, [decimals] the
    token's [decimals()] (an ABI [uint8], so a non-negative int, [N]
    here); [amount] of [from_wei] is always an int.  The conversion goes
    through a binary64 float: it is exact for integer amounts whose scaled
    value fits in 53 bits, and not decimal-safe beyond. *)

From Stdlib Require Import ZArith QArith List String Lia.
From S2P Require Import Prelude PyFloat PyParse.
Open Scope Z_scope.

Module Units.
Import PyFloat PyParse.

Definition to_wei (amount : string) (decimals : N) : result Z :=
  let? f := py_float amount in
  let? x := fmul_int f (10 ^ Z.of_N decimals) in
  int_of_float x.

Definition from_wei (amount : Z) (decimals : N) : result float :=
  int_truediv amount (10 ^ Z.of_N decimals).

(** ** Exact conversions *)

Section Exact.

Lemma pow10_split (d : Z) : 0 <= d -> 10 ^ d = 5 ^ d * 2 ^ d.
Proof. intros. rewrite <- Z.pow_mul_l. reflexivity. Qed.

Lemma pow5_pos (d : Z) : 0 <= d -> 0 < 5 ^ d.
Proof. intros; apply Z.pow_pos_nonneg; lia. Qed.

(** The float of a plain digit string whose value is below [2^53]. *)
Lemma py_float_digits (s : string) :
  forallb is_digit (list_of s) = true -> list_of s <> nil ->
  digits_value (list_of s) < 2 ^ prec ->
  exists m e, py_float s = Ok (Fin m e) /\ fin_val m e == inject_Z (digits_value (list_of s)).
Proof.
  intros Hd Hne Hlt. unfold py_float. rewrite parse_literal_digits by auto.
  pose proof (digits_value_nonneg _ Hd).
  destruct (round_Q_int (digits_value (list_of s)) (digits_value (list_of s)) 0)
    as (m & e & R & V); [ring | lia | unfold emax, prec; lia |].
  exists m, e. unfold dec_val. simpl. rewrite Z.mul_1_r, R. auto.
Qed.

(** [float(10**d)] is exact up to [d = 22]. *)
Lemma float_of_pow10 (d : Z) :
  0 <= d <= 22 ->
  exists m e, float_of_int (10 ^ d) = Ok (Fin m e) /\ fin_val m e == inject_Z (10 ^ d).
Proof.
  intros Hd. apply (float_of_int_exact _ (5 ^ d) d); [apply pow10_split; lia | | unfold emax, prec; lia].
  split; [pose proof (pow5_pos d); lia|].
  apply (Z.le_lt_trans _ (5 ^ 22)); [apply Z.pow_le_mono_r; lia | reflexivity].
Qed.

(** A product of two floats holding integers, rounded to an integer
    that fits, is exact. *)
Lemma fmul_int_exact (m1 e1 m2 e2 X Y K j : Z) :
  fin_val m1 e1 == inject_Z X -> fin_val m2 e2 == inject_Z Y ->
  X * Y = K * 2 ^ j -> 0 <= K < 2 ^ prec -> 0 <= j <= emax - prec ->
  exists m e, fmul (Fin m1 e1) (Fin m2 e2) = Fin m e /\ fin_val m e == inject_Z (X * Y).
Proof.
  intros H1 H2 HXY HK Hj. simpl.
  assert (E : fin_val m1 e1 * fin_val m2 e2 == inject_Z (X * Y))
    by (rewrite inject_Z_mult, H1, H2; reflexivity).
  rewrite (round_Q_Proper _ _ E). apply (round_Q_int _ K j); auto.
Qed.

End Exact.

(** ** Properties of [to_wei] *)

Section ToWei.

(** [to_wei] returns an amount only for a decimal numeral: [inf], [nan]
    and anything [float()] rejects raise. *)
Theorem to_wei_numeral (s : string) (d : N) (w : Z) :
  to_wei s d = Ok w -> exists neg m e, parse_literal s = Some (LNum neg m e).
Proof.
  unfold to_wei, py_float, fmul_int. intros H.
  destruct (parse_literal s) as [[neg m e | neg |]|]; simpl in H; eauto; try discriminate;
    destruct (float_of_int (10 ^ Z.of_N d)) as [g|x]; simpl in H; try discriminate; exfalso.
  all: destruct g as [mg eg | b |]; simpl in H; try destruct (mg =? 0); discriminate.
Qed.

(** On a plain digit string of value [N] with [N * 5^d < 2^53] and
    [d <= 22], [to_wei] is exact: both [float(N)], [float(10**d)] and
    their product are binary64 values. *)
Theorem to_wei_exact (s : string) (d : N) :
  forallb is_digit (list_of s) = true -> list_of s <> nil ->
  Z.of_N d <= 22 -> digits_value (list_of s) * 5 ^ Z.of_N d < 2 ^ prec ->
  to_wei s d = Ok (digits_value (list_of s) * 10 ^ Z.of_N d).
Proof.
  intros Hd Hne H22 Hfit.
  set (N := digits_value (list_of s)) in *. set (D := Z.of_N d) in *.
  assert (0 <= N) by apply (digits_value_nonneg _ Hd).
  assert (0 <= D) by lia. pose proof (pow5_pos D ltac:(lia)).
  destruct (py_float_digits s Hd Hne ltac:(fold N; nia)) as (m1 & e1 & P & V1).
  destruct (float_of_pow10 D ltac:(lia)) as (m2 & e2 & F & V2).
  destruct (fmul_int_exact m1 e1 m2 e2 N (10 ^ D) (N * 5 ^ D) D V1 V2)
    as (m & e & M & V); try (unfold emax, prec in *; lia).
  - rewrite pow10_split by lia. ring.
  - unfold to_wei, fmul_int. fold D. rewrite P. cbn [result_bind]. rewrite F. cbn [result_bind].
    rewrite M. cbn [int_of_float].
    f_equal. apply trunc_int. exact V.
Qed.

(** C28: Round trip: converting the result back with [from_wei] gives the
    float the operator's string denotes. *)
Theorem to_wei_from_wei (s : string) (d : N) :
  forallb is_digit (list_of s) = true -> list_of s <> nil ->
  Z.of_N d <= 22 -> digits_value (list_of s) * 5 ^ Z.of_N d < 2 ^ prec ->
  exists w, to_wei s d = Ok w /\ from_wei w d = py_float s.
Proof.
  intros Hd Hne H22 Hfit. eexists. split; [apply to_wei_exact; auto|].
  set (N := digits_value (list_of s)) in *. set (D := Z.of_N d) in *.
  assert (0 <= D) by lia. pose proof (pow10_pos D ltac:(lia)).
  unfold from_wei, int_truediv. fold D.
  replace (10 ^ D =? 0) with false by (symmetry; apply Z.eqb_neq; lia).
  assert (E : inject_Z (N * 10 ^ D) / inject_Z (10 ^ D) == dec_val N 0).
  { unfold dec_val. simpl. rewrite Z.mul_1_r, inject_Z_mult.
    apply Qdiv_mult_l. intros Hz.
    unfold Qeq in Hz. simpl in Hz. lia. }
  rewrite (round_Q_Proper _ _ E).
  destruct (py_float_digits s Hd Hne) as (m & e & P & _).
  { fold N. pose proof (pow5_pos D ltac:(lia)). assert (0 <= N) by apply (digits_value_nonneg _ Hd). nia. }
  revert P. unfold py_float. rewrite parse_literal_digits by auto. fold N.
  intros P. injection P as P. rewrite P. reflexivity.
Qed.

End ToWei.

(** ** Concrete conversions *)

Section Examples.

Lemma to_wei_numeral_witness :
  to_wei "1.5" 18 = Ok 1500000000000000000 /\ exists neg m e, parse_literal "1.5" = Some (LNum neg m e).
Proof.
  assert (H : to_wei "1.5" 18 = Ok 1500000000000000000) by (vm_compute; reflexivity).
  split; [exact H | exact (to_wei_numeral "1.5" 18 _ H)].
Defined.

Lemma to_wei_from_wei_witness :
  exists w, to_wei "100" 18 = Ok w /\ from_wei w 18 = py_float "100".
Proof. apply to_wei_from_wei; [reflexivity | discriminate | simpl; lia | vm_compute; reflexivity]. Defined.

(** [to_wei] is not decimal-safe: ["1.1"] at 18 decimals gives
    [1100000000000000128] base units, not [11 * 10^17]. *)
Example to_wei_not_decimal_safe : to_wei "1.1" 18 = Ok 1100000000000000128.
Proof. vm_compute. reflexivity. Qed.

(** A token with zero decimals is accepted: ["5"] converts to [5]. *)
Example to_wei_zero_decimals : to_wei "5" 0 = Ok 5.
Proof. vm_compute. reflexivity. Qed.

End Examples.

End Units.
