(* ===== verification/Amounts.v ===== *)
(** * Amount and basis-point resolution

    The handlers turn the operator's amount argument into integers with
    expressions written inline; each is a definition here, named after
    what it computes, with the source line it translates:
    - [withdraw_bps] (line 231):
      [min(10000, max(1, int(float(percentage) * 100)))];
    - [pct_of_balance] (lines 290 and 366):
      [int(balance * percentage / 100)], an int times a float;
    - [pct_to_bps] (lines 291, 411, 413): [int(percentage * 100)];
    - [buy_allocation] (lines 295-298): [int((amount_wei / balance) * 10000)]
      when the balance is positive, else [10000];
    - [buy_amounts] (lines 284-298): the buy amount and its cap, by
      percentage when the argument ends with [%], else by quantity;
    - [sell_clamp] (lines 371-373): an exact sell quantity above the
      vault's balance is lowered to the balance;
    - [pair_bps] (lines 409-413): the pair allocation in basis points,
      with or without a trailing [%]. *)

From Stdlib Require Import ZArith QArith List String Ascii Lia Lqa.
From S2P Require Import Prelude PyFloat PyParse Units.
Import ListNotations.
Open Scope Z_scope.

Module Amounts.
Import PyFloat PyParse Units.

(** ** String helpers *)

(** [s.endswith("%")]. *)
Definition ends_with_pct (s : string) : bool :=
  match rev (list_of s) with
  | "%"%char :: _ => true
  | _ => false
  end.

(** [s[:-1]]. *)
Definition drop_last (s : string) : string := string_of_list_ascii (removelast (list_of s)).

(** ** Percentages *)

(** [int(percentage * 100)]. *)
Definition pct_to_bps (percentage : float) : result Z :=
  let? x := fmul_int percentage 100 in int_of_float x.

(** [pct = min(10000, max(1, int(float(percentage) * 100)))]. *)
Definition withdraw_bps (percentage : string) : result Z :=
  let? p := py_float percentage in
  let? b := pct_to_bps p in
  Ok (Z.min 10000 (Z.max 1 b)).

(** [int(balance * percentage / 100)]: [balance] is an int, converted to
    float by the multiplication. *)
Definition pct_of_balance (balance : Z) (percentage : float) : result Z :=
  let? fb := float_of_int balance in
  let? x := fdiv_int (fmul fb percentage) 100 in
  int_of_float x.

(** ** Buy signal *)

(** [max_allocation] of the quantity branch. *)
Definition buy_allocation (amount_wei balance : Z) : result Z :=
  if 0 <? balance then
    let? q := int_truediv amount_wei balance in
    let? x := fmul_int q 10000 in
    int_of_float x
  else Ok 10000.

(** [(amount_wei, max_allocation)] of [execute_buy_signal]. *)
Definition buy_amounts (amount_or_percentage : string) (balance : Z) (decimals : N)
  : result (Z * Z) :=
  if ends_with_pct amount_or_percentage then
    let? percentage := py_float (drop_last amount_or_percentage) in
    let? amount_wei := pct_of_balance balance percentage in
    let? max_allocation := pct_to_bps percentage in
    Ok (amount_wei, max_allocation)
  else
    let? amount_wei := to_wei amount_or_percentage decimals in
    let? max_allocation := buy_allocation amount_wei balance in
    Ok (amount_wei, max_allocation).

(** ** Sell signal *)

(** The overshoot policy: the amount sent, and whether the warning is
    printed. *)
Definition sell_clamp (amount_wei token_balance : Z) : Z * bool :=
  if token_balance <? amount_wei then (token_balance, true) else (amount_wei, false).

(** ** Trading pairs *)

(** [max_allocation_bps] of [manage_trading_pair]: the argument is a
    string (argparse), so [isinstance(max_allocation, str)] holds. *)
Definition pair_bps (max_allocation : string) : result Z :=
  if ends_with_pct max_allocation then
    let? p := py_float (drop_last max_allocation) in pct_to_bps p
  else
    let? p := py_float max_allocation in pct_to_bps p.

(** ** Percentages of a balance *)

Section Percent.

Lemma float_of_int_small (B : Z) :
  0 <= B < 2 ^ prec -> exists m e, float_of_int B = Ok (Fin m e) /\ fin_val m e == inject_Z B.
Proof. intros H. apply (float_of_int_exact B B 0); [ring | lia | unfold emax, prec; lia]. Qed.

Lemma fin_val_nonzero (m e : Z) (V : Z) : fin_val m e == inject_Z V -> V <> 0 -> m <> 0.
Proof. intros H HV ->. unfold fin_val in H. rewrite Qmult_0_l in H. unfold Qeq in H. simpl in H. lia. Qed.

(** [x / 100] of a float in [[0, 100 * V]] lies in [[0, V]]. *)
Lemma div100_bounds (x h : Q) (V : Z) :
  h == inject_Z 100 -> (0 <= x <= inject_Z (100 * V))%Q -> (0 <= x / h <= inject_Z V)%Q.
Proof.
  intros Hh [H0 H1]. assert (Hp : (0 < h)%Q) by (rewrite Hh; reflexivity).
  split.
  - apply Qle_shift_div_l; auto. rewrite Qmult_0_l. auto.
  - apply Qle_shift_div_r; auto. rewrite Hh, <- inject_Z_mult, Z.mul_comm. auto.
Qed.

Lemma float_of_100 :
  exists mh eh, float_of_int 100 = Ok (Fin mh eh) /\ fin_val mh eh == inject_Z 100 /\ mh <> 0.
Proof.
  destruct (float_of_int_small 100 ltac:(unfold prec; lia)) as (mh & eh & FH & VH).
  exists mh, eh. repeat split; auto. apply (fin_val_nonzero mh eh 100); auto; lia.
Qed.

(** The steps of [int(balance * percentage / 100)] on finite floats. *)
Lemma pct_of_balance_steps (B mp ep mb eb mx ex mh eh mq eq : Z) :
  float_of_int B = Ok (Fin mb eb) -> round_Q (fin_val mb eb * fin_val mp ep) = Fin mx ex ->
  float_of_int 100 = Ok (Fin mh eh) -> mh <> 0 ->
  round_Q (fin_val mx ex / fin_val mh eh) = Fin mq eq ->
  pct_of_balance B (Fin mp ep) = Ok (trunc mq eq).
Proof.
  intros FB RX FH Hmh RQ. unfold pct_of_balance, fdiv_int. rewrite FB. cbn [result_bind fmul].
  rewrite RX, FH. cbn [result_bind]. unfold fdiv. cbn [is_zero].
  rewrite (proj2 (Z.eqb_neq _ _) Hmh), RQ. reflexivity.
Qed.

(** C27: [int(balance * percentage / 100)] never exceeds the balance when the
    percentage lies in [[0, 100]] and [100 * balance] fits in 53 bits. *)
Theorem pct_of_balance_le (B mp ep a : Z) :
  0 <= B -> 100 * B < 2 ^ prec -> (0 <= fin_val mp ep <= inject_Z 100)%Q ->
  pct_of_balance B (Fin mp ep) = Ok a -> 0 <= a <= B.
Proof.
  intros HB Hfit [Hp0 Hp1].
  destruct (float_of_int_small B ltac:(lia)) as (mb & eb & FB & VB).
  destruct float_of_100 as (mh & eh & FH & VH & Hmh).
  assert (Hx : (0 <= fin_val mb eb * fin_val mp ep <= inject_Z (100 * B))%Q).
  { rewrite VB, inject_Z_mult. assert (0 <= inject_Z B)%Q by (unfold Qle; simpl; lia).
    split; nra. }
  destruct Hx as [Hx0 Hx1].
  destruct (round_Q_le_int _ (100 * B) (100 * B) 0 ltac:(ring) ltac:(lia) ltac:(unfold emax, prec; lia)
    Hx0 Hx1) as (mx & ex & RX & _ & HX).
  destruct (div100_bounds _ _ B VH HX) as [Hq0 Hq1].
  destruct (round_Q_le_int _ B B 0 ltac:(ring) ltac:(lia) ltac:(unfold emax, prec; lia) Hq0 Hq1)
    as (mq & eq & RQ & Hmq & HQ).
  rewrite (pct_of_balance_steps B mp ep mb eb mx ex mh eh mq eq FB RX FH Hmh RQ).
  intros H. injection H as <-.
  destruct (trunc_le mq eq Hmq) as [Ht0 Ht1]. split; auto.
  rewrite Zle_Qle. apply (Qle_trans _ _ _ Ht1). apply HQ.
Qed.

(** [int(balance * P / 100)] for an integer percentage [P >= 0] is the
    floor [balance * P / 100] of the spec, while [balance * P] and
    [balance] fit in 53 bits. *)
Lemma pct_of_balance_floor_gen (B P mp ep : Z) :
  0 <= B < 2 ^ prec -> 0 <= P -> B * P < 2 ^ prec -> fin_val mp ep == inject_Z P ->
  pct_of_balance B (Fin mp ep) = Ok (B * P / 100).
Proof.
  intros HB HP Hfit Hp.
  destruct (float_of_int_small B HB) as (mb & eb & FB & VB).
  destruct float_of_100 as (mh & eh & FH & VH & Hmh).
  assert (Hx : fin_val mb eb * fin_val mp ep == inject_Z (B * P))
    by (rewrite VB, Hp, inject_Z_mult; reflexivity).
  destruct (round_Q_int (B * P) (B * P) 0 ltac:(ring) ltac:(nia) ltac:(unfold emax, prec; lia))
    as (mx & ex & RX & VX).
  rewrite <- (round_Q_Proper _ _ Hx) in RX.
  assert (Hq : fin_val mx ex / fin_val mh eh == inject_Z (B * P) / inject_Z 100)
    by (rewrite VX, VH; reflexivity).
  destruct (round_Q_div100_floor (B * P) ltac:(nia)) as (mq & eq & RQ & TQ).
  rewrite <- (round_Q_Proper _ _ Hq) in RQ.
  rewrite (pct_of_balance_steps B mp ep mb eb mx ex mh eh mq eq FB RX FH Hmh RQ), TQ. reflexivity.
Qed.

(** The case of a percentage in [[0, 100]], under [100 * balance < 2^53]. *)
Lemma pct_of_balance_floor (B P mp ep : Z) :
  0 <= B -> 100 * B < 2 ^ prec -> 0 <= P <= 100 -> fin_val mp ep == inject_Z P ->
  pct_of_balance B (Fin mp ep) = Ok (B * P / 100).
Proof. intros HB Hfit HP Hp. apply pct_of_balance_floor_gen; auto; nia. Qed.

(** At [100%] the whole balance is returned, under the same bound. *)
Theorem pct_of_balance_full (B mp ep : Z) :
  0 <= B -> 100 * B < 2 ^ prec -> fin_val mp ep == inject_Z 100 ->
  pct_of_balance B (Fin mp ep) = Ok B.
Proof.
  intros HB Hfit Hp. rewrite (pct_of_balance_floor B 100 mp ep HB Hfit ltac:(lia) Hp).
  f_equal. apply Z.div_mul. lia.
Qed.

(** ** The spec's percentage rule for a buy *)

Lemma list_of_app (s t : string) : list_of (s ++ t) = list_of s ++ list_of t.
Proof. induction s as [|c s IH]; simpl; [reflexivity|]. unfold list_of in *. simpl. rewrite IH. reflexivity. Qed.

Lemma ends_with_pct_app (s : string) : ends_with_pct (s ++ "%") = true.
Proof. unfold ends_with_pct. rewrite list_of_app, rev_app_distr. reflexivity. Qed.

Lemma drop_last_app (s : string) : drop_last (s ++ "%") = s.
Proof.
  unfold drop_last. rewrite list_of_app. change (list_of "%") with ["%"%char].
  rewrite removelast_last. apply string_of_list_ascii_of_string.
Qed.

(** [int(P * 100)] of a float holding an integer [P] in [[0, 10^13]]. *)
Lemma pct_to_bps_int (m e P : Z) :
  fin_val m e == inject_Z P -> 0 <= P <= 10 ^ 13 -> pct_to_bps (Fin m e) = Ok (100 * P).
Proof.
  intros V HP. destruct float_of_100 as (mh & eh & FH & VH & _).
  destruct (fmul_int_exact m e mh eh P 100 (P * 100) 0 V VH ltac:(ring) ltac:(unfold prec; lia)
    ltac:(unfold emax, prec; lia)) as (mx & ex & RX & VX).
  unfold pct_to_bps, fmul_int. rewrite FH. cbn [result_bind]. rewrite RX. cbn [int_of_float].
  f_equal. rewrite (trunc_int mx ex (P * 100) VX). ring.
Qed.

(** C25: For ["P%"] with [P] a digit string of value at most 100, and a
    vault balance [B] with [100 * B < 2^53], the buy computes the spec's
    amount [floor(B * P / 100)] and the cap [100 * P] basis points. *)
Theorem buy_amounts_percentage (s : string) (B : Z) (d : N) :
  forallb is_digit (list_of s) = true -> list_of s <> [] -> digits_value (list_of s) <= 100 ->
  0 <= B -> 100 * B < 2 ^ prec ->
  buy_amounts (s ++ "%") B d =
    Ok (B * digits_value (list_of s) / 100, 100 * digits_value (list_of s)).
Proof.
  intros Hd Hne HP HB Hfit. pose proof (digits_value_nonneg _ Hd).
  unfold buy_amounts. rewrite ends_with_pct_app, drop_last_app.
  destruct (py_float_digits s Hd Hne ltac:(unfold prec; lia)) as (m & e & F & V).
  rewrite F. cbn [result_bind]. rewrite (pct_of_balance_floor B (digits_value (list_of s)) m e HB Hfit ltac:(lia) V).
  cbn [result_bind]. rewrite (pct_to_bps_int m e (digits_value (list_of s)) V ltac:(lia)). reflexivity.
Qed.

(** C34: A buy percentage above 100 is neither rejected nor clamped: for
    ["P%"] with [100 < P <= 10^13] and a balance [B] with [B * P < 2^53],
    the buy asks for [floor(B * P / 100)], at least the whole balance,
    with a cap of [100 * P > 10000] basis points. *)
Theorem buy_cap_unclamped (s : string) (B : Z) (d : N) :
  forallb is_digit (list_of s) = true -> 100 < digits_value (list_of s) <= 10 ^ 13 ->
  0 <= B -> B * digits_value (list_of s) < 2 ^ prec ->
  buy_amounts (s ++ "%") B d =
    Ok (B * digits_value (list_of s) / 100, 100 * digits_value (list_of s)) /\
  B <= B * digits_value (list_of s) / 100 /\ 10000 < 100 * digits_value (list_of s).
Proof.
  intros Hd HP HB Hfit.
  assert (Hne : list_of s <> []) by (intros E; rewrite E in HP; cbn in HP; lia).
  destruct (py_float_digits s Hd Hne ltac:(unfold prec in *; lia)) as (m & e & F & V).
  assert (HBP : B <= B * digits_value (list_of s)) by nia.
  split; [|split; [apply Z.div_le_lower_bound; nia | lia]].
  unfold buy_amounts. rewrite ends_with_pct_app, drop_last_app, F. cbn [result_bind].
  rewrite (pct_of_balance_floor_gen B (digits_value (list_of s)) m e ltac:(lia) ltac:(lia) Hfit V). cbn [result_bind].
  rewrite (pct_to_bps_int m e _ V ltac:(lia)). reflexivity.
Qed.

(** A digit string does not end with [%]. *)
Lemma ends_with_pct_digits (s : string) :
  forallb is_digit (list_of s) = true -> ends_with_pct s = false.
Proof.
  unfold ends_with_pct. intros Hd. destruct (rev (list_of s)) as [|c t] eqn:R; [reflexivity|].
  assert (Hc : is_digit c = true).
  { rewrite forallb_forall in Hd. apply Hd, in_rev. rewrite R. left. reflexivity. }
  destruct (Ascii.eqb_spec c "%"%char) as [->|Hne]; [discriminate|].
  destruct c as [[] [] [] [] [] [] [] []]; try reflexivity; congruence.
Qed.

(** C29: [pair --max] reads ["P"] and ["P%"] alike: for a digit string of
    value [P <= 10^13] both set [100 * P] basis points, so the help
    text's ["0.3"] means [0.3%], not [30%]. *)
Theorem pair_bps_pct_optional (s : string) :
  forallb is_digit (list_of s) = true -> list_of s <> [] -> digits_value (list_of s) <= 10 ^ 13 ->
  pair_bps (s ++ "%") = Ok (100 * digits_value (list_of s))
  /\ pair_bps s = Ok (100 * digits_value (list_of s)).
Proof.
  intros Hd Hne HP. pose proof (digits_value_nonneg _ Hd).
  destruct (py_float_digits s Hd Hne ltac:(unfold prec; lia)) as (m & e & F & V).
  unfold pair_bps. rewrite ends_with_pct_app, drop_last_app, ends_with_pct_digits by assumption.
  rewrite F. cbn [result_bind]. rewrite (pct_to_bps_int m e _ V ltac:(lia)). auto.
Qed.

End Percent.

(** ** Withdrawal by percentage *)

Section Withdraw.

Definition clamp_bps (b : Z) : Z := Z.min 10000 (Z.max 1 b).

(** The withdrawal basis points are [to_wei] at two decimals, clamped. *)
Lemma withdraw_bps_to_wei (s : string) :
  withdraw_bps s = result_map clamp_bps (to_wei s 2).
Proof.
  unfold withdraw_bps, pct_to_bps, to_wei, result_map.
  destruct (py_float s) as [f|x]; cbn [result_bind]; [|reflexivity].
  change (10 ^ Z.of_N 2) with 100. destruct (fmul_int f 100); reflexivity.
Qed.

(** C8: Whatever the string, a withdrawal that is sent carries basis points
    in [[1, 10000]]. *)
Theorem withdraw_bps_range (s : string) (b : Z) :
  withdraw_bps s = Ok b -> 1 <= b <= 10000.
Proof.
  rewrite withdraw_bps_to_wei. unfold result_map.
  destruct (to_wei s 2); cbn [result_bind]; intros H; inv H. unfold clamp_bps. lia.
Qed.

(** C35: A withdrawal by an integer percentage [P] sends [100 * P] basis
    points, clamped to [[1, 10000]]: [--percentage 50] sends [5000]. *)
Theorem withdraw_bps_integer (s : string) :
  forallb is_digit (list_of s) = true -> list_of s <> nil ->
  digits_value (list_of s) * 25 < 2 ^ prec ->
  withdraw_bps s = Ok (clamp_bps (100 * digits_value (list_of s))).
Proof.
  intros Hd Hne Hfit. rewrite withdraw_bps_to_wei, to_wei_exact by (auto; simpl; lia).
  unfold result_map. cbn [result_bind]. f_equal. f_equal. change (10 ^ Z.of_N 2) with 100. ring.
Qed.

End Withdraw.

(** ** Concrete amounts *)

Section Examples.

Lemma pct_of_balance_le_witness : pct_of_balance 1000 (Fin 30 0) = Ok 300 /\ 0 <= 300 <= 1000.
Proof.
  assert (H : pct_of_balance 1000 (Fin 30 0) = Ok 300) by (vm_compute; reflexivity).
  split; [exact H |].
  apply (pct_of_balance_le 1000 30 0 300); [lia | vm_compute; reflexivity | split; vm_compute; discriminate | exact H].
Defined.

Lemma buy_amounts_percentage_witness : buy_amounts "30%" 1000 18 = Ok (300, 3000).
Proof.
  apply (buy_amounts_percentage "30" 1000 18); [reflexivity | discriminate | vm_compute; discriminate | lia
    | vm_compute; reflexivity].
Defined.

Lemma pct_of_balance_full_witness : pct_of_balance 1000 (Fin 100 0) = Ok 1000.
Proof. apply pct_of_balance_full; [lia | vm_compute; reflexivity | vm_compute; reflexivity]. Defined.

Lemma withdraw_bps_range_witness : withdraw_bps "0.001" = Ok 1 /\ 1 <= 1 <= 10000.
Proof.
  assert (H : withdraw_bps "0.001" = Ok 1) by (vm_compute; reflexivity).
  split; [exact H | exact (withdraw_bps_range "0.001" 1 H)].
Defined.

Lemma withdraw_bps_integer_witness : withdraw_bps "50" = Ok (clamp_bps (100 * digits_value (list_of "50"))).
Proof. apply withdraw_bps_integer; [reflexivity | discriminate | vm_compute; reflexivity]. Defined.

(** The withdrawal percentage is truncated, not rounded, to basis
    points: ["0.29"] gives [28] ([0.29 * 100] is [28.999999999999996]). *)
Example withdraw_bps_truncates : withdraw_bps "0.29" = Ok 28.
Proof. vm_compute. reflexivity. Qed.

(** [pair --max 0.3], which the help text of line 663 offers as 30%,
    sets 30 basis points (0.3%); only ["30%"] sets 3000. *)
Example pair_bps_decimal : pair_bps "0.3" = Ok 30 /\ pair_bps "30%" = Ok 3000.
Proof. split; vm_compute; reflexivity. Qed.

Lemma buy_cap_unclamped_witness :
  (buy_amounts ("150" ++ "%") 1000 18 = Ok (1000 * 150 / 100, 100 * 150) /\
   1000 <= 1000 * 150 / 100 /\ 10000 < 100 * 150).
Proof.
  exact (buy_cap_unclamped "150" 1000 18 eq_refl ltac:(vm_compute; split; [reflexivity | intro Hc; discriminate Hc])
    ltac:(lia) ltac:(vm_compute; reflexivity)).
Defined.

Lemma pair_bps_pct_optional_witness :
  pair_bps ("30" ++ "%") = Ok (100 * digits_value (list_of "30"))
  /\ pair_bps "30" = Ok (100 * digits_value (list_of "30")).
Proof. apply (pair_bps_pct_optional "30"); [reflexivity | discriminate | vm_compute; discriminate]. Defined.

End Examples.

End Amounts.
