(* ===== verification/Interact.v ===== *)
(** * The effects of the program: web3 calls as a tree

    Every handler of the source is a straight sequence of web3 calls
    ([contract.functions.f(...).call()], [transact], [send_raw_transaction],
    [wait_for_transaction_receipt], [w3.eth.accounts], ...) and prints,
    with Python control flow between them and [try]/[except] around
    them.  A handler is modelled as a [prog]: a finite tree whose nodes
    are calls ([event]) and whose continuation receives the node's answer,
    [Some v], or [None] when the call raised.  [Raise] is a Python
    exception; [catch] is [try]/[except Exception].

    [run] executes a [prog] against an [env]: the node and the chain,
    answering each call as a function of the calls already made (so a
    balance read after a transaction may differ from one read before).
    It returns the trace of answered calls and the outcome.  The trees are
    finite, so [run] is a structural recursion: every handler terminates.

    Printing never fails: [print] ignores the environment's answer. *)

From Stdlib Require Import ZArith List String Lia.
From S2P Require Import Prelude PyFloat.
Import ListNotations.
Open Scope Z_scope.

Module Interact.
Import PyFloat.

(** ** Calls *)

(** Addresses as the checksummed strings web3 returns. *)
Definition addr := string.

(** The role constants of the vault and oracle contracts. *)
Inductive role : Type :=
| ORACLE_ROLE
| STRATEGY_MANAGER_ROLE
| DEFAULT_ADMIN_ROLE.

(** The state-changing contract functions the program calls. *)
Inductive call : Type :=
| Approve (token spender : addr) (amount : Z)
| Deposit (vault : addr) (assets : Z) (receiver : addr)
| Redeem (vault : addr) (shares : Z) (receiver owner : addr)
| PercentageWithdraw (vault : addr) (bps : Z) (receiver : addr)
| Withdraw (vault : addr) (assets : Z) (receiver owner : addr)
| ExecuteBuySignal (vault token : addr) (amount min_out max_allocation : Z)
| ExecuteSellSignal (vault token : addr) (amount min_out : Z)
| DisableTradingPair (vault token : addr)
| SetTradingPair (vault token : addr) (max_bps min_exit : Z)
| UpdatePrice (oracle token_a token_b : addr) (price : Z)
| Mint (token recipient : addr) (amount : Z)
| Transfer (token recipient : addr) (amount : Z)
| GrantRole (vault : addr) (role_id : Z) (target : addr)
| RevokeRole (vault : addr) (role_id : Z) (target : addr)
| SetStrategyEnabled (vault : addr) (enabled : bool).

(** A printed line: its level, its leading words, and the float values
    ([from_wei] results) it shows. *)
Inductive level : Type := Info | Warning | Error.

Record msg : Type := Msg { msg_level : level; msg_text : string; msg_vals : list float }.

(** The calls a handler makes. *)
Inductive event : Type :=
| EAsset (vault : addr)                              (** [vault.asset()] *)
| EPriceOracle (vault : addr)                        (** [vault.priceOracle()] *)
| ESymbol (token : addr)                             (** [token.symbol()] *)
| EDecimals (token : addr)                           (** [token.decimals()] *)
| ETotalAssets (vault : addr)
| ETotalSupply (vault : addr)
| EBalanceOf (token holder : addr)                   (** [token.balanceOf(holder)] *)
| EStrategyEnabled (vault : addr)
| ERoleId (contract : addr) (r : role)               (** [contract.ORACLE_ROLE()], ... *)
| EHasRole (contract : addr) (role_id : Z) (account : addr)
| EPairActive (vault token : addr)                   (** [vault.tradingPairs(token).call()[1]] *)
| EOwner (token : addr)
| EPortfolio (vault : addr)                          (** [getPortfolioComposition()] *)
| EIsConnected                                       (** [w3.is_connected()] *)
| EAccounts                                          (** [w3.eth.accounts] *)
| EKeyAddress (key : string)                         (** [w3.eth.account.from_key(key).address] *)
| ENonce (account : addr)                            (** [w3.eth.get_transaction_count] *)
| ETransact (sender : addr) (gas : Z) (c : call)     (** [c.transact({'from', 'gas'})] *)
| ESendSigned (sender : addr) (gas nonce : Z) (c : call) (key : string)
                                                     (** [build_transaction], [sign_transaction],
                                                         [send_raw_transaction] *)
| EWaitReceipt (tx_hash : Z)                         (** [wait_for_transaction_receipt(h).status] *)
| EPrint (m : msg).

(** The type of a call's answer. *)
Definition answer (e : event) : Type :=
  match e with
  | EAsset _ | EPriceOracle _ | EOwner _ | EKeyAddress _ => addr
  | ESymbol _ => string
  | EDecimals _ => N
  | ETotalAssets _ | ETotalSupply _ | EBalanceOf _ _ | ENonce _ | ERoleId _ _ => Z
  | EStrategyEnabled _ | EHasRole _ _ _ | EPairActive _ _ | EIsConnected => bool
  | EPortfolio _ => Z * list addr * list Z
  | EAccounts => list addr
  | ETransact _ _ _ | ESendSigned _ _ _ _ _ | EWaitReceipt _ => Z
  | EPrint _ => unit
  end.

(** ** Programs *)

Inductive prog (A : Type) : Type :=
| Ret (a : A)
| Raise (x : exn)
| Vis (e : event) (k : option (answer e) -> prog A).
Arguments Ret {A} a.
Arguments Raise {A} x.
Arguments Vis {A} e k.

Fixpoint bind {A B} (p : prog A) (f : A -> prog B) : prog B :=
  match p with
  | Ret a => f a
  | Raise x => Raise x
  | Vis e k => Vis e (fun r => bind (k r) f)
  end.

(** [try: p except Exception: h]. *)
Fixpoint catch {A} (p : prog A) (h : exn -> prog A) : prog A :=
  match p with
  | Ret a => Ret a
  | Raise x => h x
  | Vis e k => Vis e (fun r => catch (k r) h)
  end.

(** A call whose exception propagates. *)
Definition call_ (e : event) : prog (answer e) :=
  Vis e (fun r => match r with Some v => Ret v | None => Raise RemoteError end).

(** A call inside its own [try]: the answer, or [None]. *)
Definition try_call (e : event) : prog (option (answer e)) := Vis e Ret.

Definition print (l : level) (text : string) (vals : list float) : prog unit :=
  Vis (EPrint (Msg l text vals)) (fun _ => Ret tt).

(** A fallible pure computation of the source. *)
Definition lift {A} (r : result A) : prog A :=
  match r with Ok a => Ret a | Err x => Raise x end.

Declare Scope prog_scope.
Delimit Scope prog_scope with prog.
Notation "x <- c ;; k" := (bind c (fun x => k))
  (at level 61, c at next level, right associativity) : prog_scope.
Notation "' p <- c ;; k" := (bind c (fun x => match x with p => k end))
  (at level 61, p pattern, c at next level, right associativity) : prog_scope.
Notation "c ;; k" := (bind c (fun _ => k))
  (at level 61, right associativity) : prog_scope.
Open Scope prog_scope.

(** ** Execution *)

Definition entry : Type := { e : event & option (answer e) }.

(** The node and the chain: the answer to each call, given the calls
    already answered. *)
Definition env : Type := list entry -> forall e : event, option (answer e).

Fixpoint run {A} (E : env) (h : list entry) (p : prog A) : list entry * result A :=
  match p with
  | Ret a => ([], Ok a)
  | Raise x => ([], Err x)
  | Vis e k =>
      let r := E h e in
      let ent := existT _ e r in
      let '(t, o) := run E (h ++ [ent]) (k r) in (ent :: t, o)
  end.

(** ** Traces *)

(** The transaction a call submits, if it submits one. *)
Definition sent (x : entry) : option call :=
  match projT1 x with
  | ETransact _ _ c => Some c
  | ESendSigned _ _ _ c _ => Some c
  | _ => None
  end.

(** The transactions of a trace, in order. *)
Fixpoint sends (t : list entry) : list call :=
  match t with
  | [] => []
  | x :: t' => match sent x with Some c => c :: sends t' | None => sends t' end
  end.

(** Whether a call signs a transaction locally. *)
Definition signs (e : event) : bool :=
  match e with ESendSigned _ _ _ _ _ => true | _ => false end.

Definition is_signed (x : entry) : bool := signs (projT1 x).

(** The messages of a trace. *)
Fixpoint printed (t : list entry) : list msg :=
  match t with
  | [] => []
  | x :: t' => match projT1 x with EPrint m => m :: printed t' | _ => printed t' end
  end.

(** ** Running composed programs *)

Section Run.
Context (E : env).

Lemma run_bind {A B} (h : list entry) (p : prog A) (f : A -> prog B) :
  run E h (bind p f) =
  let '(t1, o1) := run E h p in
  match o1 with
  | Ok a => let '(t2, o2) := run E (h ++ t1) (f a) in (t1 ++ t2, o2)
  | Err x => (t1, Err x)
  end.
Proof.
  revert h. induction p as [a|x|e k IH]; intros h; simpl.
  - rewrite app_nil_r. destruct (run E h (f a)); reflexivity.
  - reflexivity.
  - rewrite IH. destruct (run E (h ++ [existT _ e (E h e)]) (k (E h e))) as [t1 [a|x]]; auto.
    rewrite <- app_assoc. simpl. destruct (run E _ (f a)); reflexivity.
Qed.

Lemma run_catch {A} (h : list entry) (p : prog A) (hd : exn -> prog A) :
  run E h (catch p hd) =
  let '(t1, o1) := run E h p in
  match o1 with
  | Ok a => (t1, Ok a)
  | Err x => let '(t2, o2) := run E (h ++ t1) (hd x) in (t1 ++ t2, o2)
  end.
Proof.
  revert h. induction p as [a|x|e k IH]; intros h; simpl.
  - reflexivity.
  - rewrite app_nil_r. destruct (run E h (hd x)); reflexivity.
  - rewrite IH. destruct (run E (h ++ [existT _ e (E h e)]) (k (E h e))) as [t1 [a|x]]; auto.
    rewrite <- app_assoc. simpl. destruct (run E _ (hd x)); reflexivity.
Qed.

End Run.

(** ** Programs that avoid a kind of call *)

(** Whether a call submits a transaction. *)
Definition submits (e : event) : bool :=
  match e with ETransact _ _ _ | ESendSigned _ _ _ _ _ => true | _ => false end.

(** No branch of the program makes a call that [bad] flags. *)
Inductive avoids {A} (bad : event -> bool) : prog A -> Prop :=
| avoids_ret a : avoids bad (Ret a)
| avoids_raise x : avoids bad (Raise x)
| avoids_vis e k : bad e = false -> (forall r, avoids bad (k r)) -> avoids bad (Vis e k).

(** No branch signs a transaction locally. *)
Abbreviation unsigned := (avoids signs).
(** No branch submits a transaction. *)
Abbreviation read_only := (avoids submits).

Section Avoids.
Context (bad : event -> bool).

Lemma avoids_bind {A B} (p : prog A) (f : A -> prog B) :
  avoids bad p -> (forall a, avoids bad (f a)) -> avoids bad (bind p f).
Proof. intros Hp Hf. induction Hp; simpl; auto; constructor; auto. Qed.

Lemma avoids_catch {A} (p : prog A) (hd : exn -> prog A) :
  avoids bad p -> (forall x, avoids bad (hd x)) -> avoids bad (catch p hd).
Proof. intros Hp Hh. induction Hp; simpl; auto; constructor; auto. Qed.

Lemma avoids_lift {A} (r : result A) : avoids bad (lift r).
Proof. destruct r; constructor. Qed.

Lemma avoids_call (e : event) : bad e = false -> avoids bad (call_ e).
Proof. intros He. constructor; auto. intros [v|]; constructor. Qed.

Lemma avoids_try_call (e : event) : bad e = false -> avoids bad (try_call e).
Proof. intros He. constructor; auto. intros r; constructor. Qed.

Lemma avoids_print l text vals : bad (EPrint (Msg l text vals)) = false -> avoids bad (print l text vals).
Proof. intros He. constructor; auto. intros; constructor. Qed.

(** A program that avoids [bad] leaves no flagged call in its trace,
    whatever the environment answers. *)
Lemma avoids_run {A} (E : env) (h : list entry) (p : prog A) :
  avoids bad p -> existsb (fun x => bad (projT1 x)) (fst (run E h p)) = false.
Proof.
  intros Hp. revert h. induction Hp as [a|x|e k He Hk IH]; intros h; simpl; auto.
  specialize (IH (E h e) (h ++ [existT _ e (E h e)])).
  destruct (run E _ (k (E h e))) as [t o]. simpl in *. rewrite He, IH. auto.
Qed.

End Avoids.

Lemma unsigned_run {A} (E : env) (h : list entry) (p : prog A) :
  unsigned p -> existsb is_signed (fst (run E h p)) = false.
Proof. apply avoids_run. Qed.

(** A trace without submitting calls has no transactions. *)
Lemma sends_nil_of_avoids (t : list entry) :
  existsb (fun x => submits (projT1 x)) t = false -> sends t = [].
Proof.
  induction t as [|[e r] t IH]; simpl; auto. intros H. apply Bool.orb_false_iff in H as [He Ht].
  unfold sent. simpl. destruct e; try discriminate; auto.
Qed.

Lemma read_only_sends {A} (E : env) (h : list entry) (p : prog A) :
  read_only p -> sends (fst (run E h p)) = [].
Proof. intros Hp. apply sends_nil_of_avoids, avoids_run, Hp. Qed.

(** The unsigned property of a whole run, for any environment. *)
Definition never_signs {A} (p : prog A) : Prop :=
  forall E h, existsb is_signed (fst (run E h p)) = false.

(** A bind whose continuation is unsigned only for the results [p] can
    return: [Q] is what [p] guarantees of them. *)
Lemma never_signs_bind_post {A B} (Q : A -> Prop) (p : prog A) (f : A -> prog B) :
  never_signs p -> (forall E h a, snd (run E h p) = Ok a -> Q a) ->
  (forall a, Q a -> never_signs (f a)) -> never_signs (bind p f).
Proof.
  intros Hp HQ Hf E h. rewrite run_bind. specialize (Hp E h). specialize (HQ E h).
  destruct (run E h p) as [t [a|x]]; simpl in *; auto.
  specialize (Hf a (HQ a eq_refl) E (h ++ t)). destruct (run E (h ++ t) (f a)); simpl in *.
  rewrite existsb_app, Hp, Hf. reflexivity.
Qed.

Lemma unsigned_never_signs {A} (p : prog A) : unsigned p -> never_signs p.
Proof. intros Hp E h. apply unsigned_run, Hp. Qed.

#[export] Hint Constructors avoids : vault.
#[export] Hint Resolve avoids_lift : vault.

(** Prove that a program avoids a kind of call: split its binds and
    handlers, case on its tests, and close the calls by computing the
    flag. *)
Ltac avoids_auto :=
  repeat first
    [ match goal with |- avoids _ (bind _ _) => apply avoids_bind; intros end
    | match goal with |- avoids _ (catch _ _) => apply avoids_catch; intros end
    | progress cbv zeta
    | match goal with |- avoids ?b (call_ ?e) => apply (avoids_call b e); reflexivity end
    | match goal with |- avoids ?b (try_call ?e) => apply (avoids_try_call b e); reflexivity end
    | match goal with |- avoids ?b (print ?l ?t ?v) => apply (avoids_print b l t v); reflexivity end
    | progress eauto with vault
    | match goal with
      | |- avoids _ (if ?b then _ else _) => destruct b
      | |- avoids _ (match ?x with _ => _ end) => destruct x
      end ].

Lemma sends_app (t1 t2 : list entry) : sends (t1 ++ t2) = sends t1 ++ sends t2.
Proof. induction t1 as [|x t IH]; simpl; [|destruct (sent x)]; rewrite ?IH; auto. Qed.

#[export] Hint Rewrite sends_app : traces.

(** Step through the calls of a concrete program, one answer at a time,
    keeping the answer as an equation [Hq]; a branch that contradicts a
    hypothesis on the environment is closed at once. *)
Ltac prune_env :=
  match goal with
  | Hq : ?E _ _ = _, HR : forall _, ?E _ _ = _ |- _ =>
      rewrite HR in Hq; first [discriminate | injection Hq as Hq; subst]
  | Hq : ?E _ _ = _, HR : forall _ _, ?E _ _ = _ |- _ =>
      rewrite HR in Hq; first [discriminate | injection Hq as Hq; subst]
  | Hq : ?E _ _ = _, HR : forall _ _ _ _, ?E _ _ = _ |- _ =>
      rewrite HR in Hq; first [discriminate | injection Hq as Hq; subst]
  end.

Ltac red_prog := cbn [lift bind catch run negb andb orb].

(** Compute the transactions of a trace built by [run]. *)
Ltac trace_simpl := repeat first [progress autorewrite with traces | progress cbn [fst snd sends sent projT1 app]].

(** Close a goal on the transactions of a trace with what is known of
    the transactions of its sub-traces. *)
Ltac finish_sends :=
  trace_simpl;
  repeat match goal with
  | H : sends _ = [] \/ sends _ = [_] |- _ => destruct H as [H|H]; rewrite H
  | H : sends _ = _ |- _ => rewrite H
  end;
  simpl; auto.

Ltac run_steps :=
  repeat match goal with
  | |- context [lift ?r] => destruct r eqn:?; red_prog
  | |- context [?E ?h ?e] =>
      lazymatch type of E with
      | env => lazymatch e with
               | EPrint _ => fail
               | _ => let Hq := fresh "Hq" in
                      destruct (E h e) eqn:Hq; try prune_env; red_prog
               end
      end
  | |- context [match ?x with _ => _ end] => is_var x; destruct x; red_prog
  | |- context [match ?r with Ok _ => _ | Err _ => _ end] => destruct r eqn:?; red_prog
  | |- context [if ?b then _ else _] => destruct b eqn:?; red_prog
  | H1 : ?x = Ok _, H2 : ?x = Ok _ |- _ => rewrite H1 in H2
  | H1 : ?x = Ok _, H2 : ?x = Err _ |- _ => rewrite H1 in H2
  | H : Ok _ = Ok _ |- _ => injection H; clear H; intros; subst
  | H : Ok _ = Err _ |- _ => discriminate H
  | H : Err _ = Ok _ |- _ => discriminate H
  end.

End Interact.
