(* ===== verification/Traces.v ===== *)
(** * Properties of runs: receipts, small steps

    Two views of a [prog] that the theorems on the handlers share.

    - [awaits p]: a call that submits a transaction ([transact],
      [send_raw_transaction]) and is answered with a hash is followed at
      once by [wait_for_transaction_receipt] of that hash.  [awaited] is
      the same property of a trace, and [awaits_run] carries one to the
      other.
    - [step E]: the small-step semantics of [run], one call at a time,
      with [eventually] as in coqutil's [OmniSmallstepCombinators];
      [run_eventually] relates the two semantics. *)

From Stdlib Require Import ZArith List String Lia.
From S2P Require Import Prelude PyFloat Interact.
Import ListNotations.
Open Scope Z_scope.

Module Traces.
Import Interact.

(** ** Receipts are awaited *)

(** The hash of a transaction the node accepted. *)
Definition accepted (x : entry) : option Z :=
  match x with
  | existT _ e r =>
      match e return option (answer e) -> option Z with
      | ETransact _ _ _ | ESendSigned _ _ _ _ _ => fun r => r
      | _ => fun _ => None
      end r
  end.

Definition waits_for (hsh : Z) (x : entry) : bool :=
  match projT1 x with EWaitReceipt h => h =? hsh | _ => false end.

(** After an accepted transaction, the next entry waits for it. *)
Definition next_waits (o : option Z) (t : list entry) : bool :=
  match o, t with
  | None, _ => true
  | Some hsh, y :: _ => waits_for hsh y
  | Some _, [] => false
  end.

Fixpoint awaited (t : list entry) : bool :=
  match t with
  | [] => true
  | x :: t' => next_waits (accepted x) t' && awaited t'
  end.

(** Every branch waits for the receipt of an accepted transaction
    before its next call. *)
Inductive awaits {A : Type} : prog A -> Prop :=
| awaits_ret a : awaits (Ret a)
| awaits_raise x : awaits (Raise x)
| awaits_vis e k : (forall r, awaits_next (accepted (existT _ e r)) (k r)) -> awaits (Vis e k)
with awaits_next {A : Type} : option Z -> prog A -> Prop :=
| next_any p : awaits p -> awaits_next None p
| next_wait hsh k : (forall r, awaits (k r)) -> awaits_next (Some hsh) (Vis (EWaitReceipt hsh) k).

Scheme awaits_mut := Induction for awaits Sort Prop
  with awaits_next_mut := Induction for awaits_next Sort Prop.

#[export] Hint Constructors awaits awaits_next : vault.

Section Awaits.

Lemma accepted_not_submits (e : event) r : submits e = false -> accepted (existT _ e r) = None.
Proof. destruct e; try discriminate; reflexivity. Qed.

Lemma awaits_bind {A B} (p : prog A) (f : A -> prog B) :
  awaits p -> (forall a, awaits (f a)) -> awaits (bind p f).
Proof.
  intros Hp Hf. revert p Hp.
  apply (awaits_mut A (fun p _ => awaits (bind p f)) (fun o p _ => awaits_next o (bind p f)));
    intros; simpl; auto with vault.
Qed.

Lemma awaits_catch {A} (p : prog A) (hd : exn -> prog A) :
  awaits p -> (forall x, awaits (hd x)) -> awaits (catch p hd).
Proof.
  intros Hp Hh. revert p Hp.
  apply (awaits_mut A (fun p _ => awaits (catch p hd)) (fun o p _ => awaits_next o (catch p hd)));
    intros; simpl; auto with vault.
Qed.

Lemma awaits_lift {A} (r : result A) : awaits (lift r).
Proof. destruct r; constructor. Qed.

Lemma awaits_call (e : event) : submits e = false -> awaits (call_ e).
Proof.
  intros He. constructor. intros r. rewrite accepted_not_submits by exact He.
  constructor. destruct r; constructor.
Qed.

Lemma awaits_try_call (e : event) : submits e = false -> awaits (try_call e).
Proof. intros He. constructor. intros r. rewrite accepted_not_submits by exact He. auto with vault. Qed.

Lemma awaits_print l text vals : awaits (print l text vals).
Proof. constructor. intros r. simpl. auto with vault. Qed.

(** [transact] or [send_raw_transaction], then the wait for its receipt. *)
Lemma awaits_transact s g c :
  awaits (hsh <- call_ (ETransact s g c) ;; call_ (EWaitReceipt hsh)).
Proof.
  constructor. intros [hsh|]; simpl; [apply next_wait|]; auto with vault.
  intros [st|]; constructor.
Qed.

Lemma awaits_send_signed s g n c key :
  awaits (hsh <- call_ (ESendSigned s g n c key) ;; call_ (EWaitReceipt hsh)).
Proof.
  constructor. intros [hsh|]; simpl; [apply next_wait|]; auto with vault.
  intros [st|]; constructor.
Qed.

(** A program that awaits its receipts leaves an awaited trace. *)
Lemma awaits_run {A} (E : env) (h : list entry) (p : prog A) :
  awaits p -> awaited (fst (run E h p)) = true.
Proof.
  intros Hp. revert p Hp h.
  apply (awaits_mut A (fun p _ => forall h, awaited (fst (run E h p)) = true)
                    (fun o p _ => forall h, (next_waits o (fst (run E h p)) && awaited (fst (run E h p)))%bool = true));
    intros; simpl; auto.
  - specialize (H (E h e) (h ++ [existT _ e (E h e)])).
    destruct (run E _ (k (E h e))) as [t o]. exact H.
  - specialize (H (E h (EWaitReceipt hsh)) (h ++ [existT _ (EWaitReceipt hsh) (E h (EWaitReceipt hsh))])).
    destruct (run E (h ++ [existT _ (EWaitReceipt hsh) (E h (EWaitReceipt hsh))]) (k (E h (EWaitReceipt hsh)))) as [t o].
    simpl in *. unfold waits_for. simpl. rewrite Z.eqb_refl. exact H.
Qed.

End Awaits.

#[export] Hint Resolve awaits_lift awaits_print : vault.

(** Prove that a program awaits its receipts: split its binds and
    handlers, case on its tests, and close the calls that do not submit. *)
Ltac awaits_auto :=
  repeat first
    [ match goal with |- awaits (bind _ _) => apply awaits_bind; intros end
    | match goal with |- awaits (catch _ _) => apply awaits_catch; intros end
    | progress cbv zeta
    | match goal with |- awaits (call_ ?e) => apply (awaits_call e); reflexivity end
    | match goal with |- awaits (try_call ?e) => apply (awaits_try_call e); reflexivity end
    | progress eauto with vault
    | match goal with
      | |- awaits (if ?b then _ else _) => destruct b
      | |- awaits (match ?x with _ => _ end) => destruct x
      end ].

(** ** Small steps *)

Definition state (A : Type) : Type := (list entry * prog A)%type.

(** One call: the environment answers it given the calls before. *)
Inductive step {A} (E : env) : state A -> state A -> Prop :=
| step_vis h e k : step E (h, Vis e k) (h ++ [existT _ e (E h e)], k (E h e)).

Inductive eventually {A} (E : env) (P : state A -> Prop) : state A -> Prop :=
| eventually_done s : P s -> eventually E P s
| eventually_step s s' : step E s s' -> eventually E P s' -> eventually E P s.

#[export] Hint Constructors step eventually : vault.

(** The final program of a run: its value or its exception. *)
Definition of_result {A} (o : result A) : prog A :=
  match o with Ok a => Ret a | Err x => Raise x end.

Section Steps.
Context (E : env).

Lemma eventually_weaken {A} (P Q : state A -> Prop) (s : state A) :
  eventually E P s -> (forall s', P s' -> Q s') -> eventually E Q s.
Proof. induction 1; eauto with vault. Qed.

(** [run] is the small-step semantics run to the end. *)
Lemma run_eventually {A} (h : list entry) (p : prog A) :
  eventually E (fun s => s = (h ++ fst (run E h p), of_result (snd (run E h p)))) (h, p).
Proof.
  revert h. induction p as [a|x|e k IH]; intros h; simpl.
  - apply eventually_done. rewrite app_nil_r. reflexivity.
  - apply eventually_done. rewrite app_nil_r. reflexivity.
  - eapply eventually_step; [constructor|]. eapply eventually_weaken; [apply IH|].
    intros s ->. destruct (run E _ (k (E h e))) as [t o]. simpl. rewrite <- app_assoc. reflexivity.
Qed.

End Steps.

End Traces.
