(* ===== verification/Address.v ===== *)
(** * Addresses and the acting account

    [normalize_address] (lines 12-17) prefixes [0x] when missing and
    applies web3's [to_checksum_address]; [get_account] (lines 44-57)
    turns the [--account] argument into the acting account.

    web3's [to_checksum_address] (EIP-55) is outside the repository; it is
    the [Checksum] interface: a partial function (it raises ValueError on
    a malformed address) whose every output is a [0x]-prefixed string of
    42 characters, the shape [is_address_like] tests (lines 45 and 87).
    [lower_checksum] is an instance (it validates the hex digits and
    keeps their case) used to run concrete examples. *)

From Stdlib Require Import ZArith List String Ascii Lia.
From S2P Require Import Prelude PyFloat Interact.
Import ListNotations.
Open Scope Z_scope.
Open Scope bool_scope.

Module Address.
Import Interact.

(** [s.startswith("0x") and len(s) == 42]. *)
Definition is_address_like (s : string) : bool :=
  String.prefix "0x" s && (String.length s =? 42)%nat.

Class Checksum : Type := {
  to_checksum_address : string -> option addr;
  checksum_address_like : forall s a, to_checksum_address s = Some a -> is_address_like a = true
}.

Section WithChecksum.
Context `{Checksum}.

Definition normalize_address (address : string) : result addr :=
  let s := if String.prefix "0x" address then address else ("0x" ++ address)%string in
  match to_checksum_address s with
  | Some a => Ok a
  | None => Err ValueError
  end.

(** [get_account(w3, key_or_account)]; [None] is an absent argument. *)
Definition get_account (key_or_account : option string) : prog addr :=
  let from_node :=
    accounts <- call_ EAccounts ;;
    match accounts with
    | _ :: _ =>
        (** [w3.eth.accounts[0]] reads the list again. *)
        accounts' <- call_ EAccounts ;;
        match accounts' with
        | a :: _ => lift (normalize_address a)
        | [] => Raise IndexError
        end
    | [] => print Error "Error: No account provided" [] ;; Raise (SystemExit 1)
    end in
  match key_or_account with
  | Some k =>
      if negb (String.eqb k "") && is_address_like k then lift (normalize_address k)
      else if negb (String.eqb k "") then
        a <- call_ (EKeyAddress k) ;; lift (normalize_address a)
      else from_node
  | None => from_node
  end.

Lemma normalize_address_like (s a : string) :
  normalize_address s = Ok a -> is_address_like a = true.
Proof.
  unfold normalize_address. destruct (to_checksum_address _) eqn:E; intros Hn; inv Hn.
  eapply checksum_address_like; eauto.
Qed.

End WithChecksum.

(** ** An instance *)

Definition is_hex (c : ascii) : bool :=
  let n := nat_of_ascii c in (
  ((48 <=? n) && (n <=? 57)) || ((97 <=? n) && (n <=? 102)) || ((65 <=? n) && (n <=? 70)))%nat.

(** Accepts [0x] followed by 40 hex digits and returns it unchanged. *)
Definition lower_checksum (s : string) : option addr :=
  if is_address_like s && forallb is_hex (list_ascii_of_string (substring 2 40 s))
  then Some s else None.

Lemma lower_checksum_like (s a : string) : lower_checksum s = Some a -> is_address_like a = true.
Proof.
  unfold lower_checksum. destruct (is_address_like s) eqn:E; simpl; [|discriminate].
  destruct (forallb _ _); intros H; inv H; auto.
Qed.

#[export] Instance lower_checksum_instance : Checksum :=
  { to_checksum_address := lower_checksum; checksum_address_like := lower_checksum_like }.

End Address.
