(* ===== verification/Submit.v ===== *)
(** * Submitting transactions

    [send_transaction] (lines 86-104) has two paths, chosen by the shape
    of the [account] string: an address ([0x] and 42 characters) is sent
    with [transact], signed by the node; anything else is taken as a
    private key, whose address is derived, whose nonce is read, and whose
    transaction is built, signed locally and broadcast.  Both paths wait
    for the receipt and return its status.

    The handlers only rely on what [Submitter] states: a submission
    sends at most the one transaction it is given, and a submission that
    returns a receipt has sent it.  [send_transaction] is the instance.

    [get_account] already turns a private key into its address, so every
    account [main] passes to [send_transaction] is an address: the local
    signing path is never taken ([send_transaction_unsigned] and the
    theorem on [main] in [Cli]). *)

From Stdlib Require Import ZArith List String Lia.
From S2P Require Import Prelude PyFloat Interact Traces Address.
Import ListNotations.
Open Scope Z_scope.

Module Submit.
Import Interact Traces Address.

(** What a submitter promises to the handlers. *)
Class Submitter : Type := {
  submit : string -> call -> prog Z;
  submit_sends : forall E h a c,
    sends (fst (run E h (submit a c))) = [] \/ sends (fst (run E h (submit a c))) = [c];
  submit_ok_sent : forall E h a c st,
    snd (run E h (submit a c)) = Ok st -> sends (fst (run E h (submit a c))) = [c]
}.

Section SendTransaction.
Context `{Checksum}.

Definition default_gas : Z := 5000000.

Definition send_transaction (account : string) (c : call) : prog Z :=
  if is_address_like account then
    sender <- lift (normalize_address account) ;;
    tx_hash <- call_ (ETransact sender default_gas c) ;;
    call_ (EWaitReceipt tx_hash)
  else
    address <- call_ (EKeyAddress account) ;;
    sender <- lift (normalize_address address) ;;
    nonce <- call_ (ENonce sender) ;;
    tx_hash <- call_ (ESendSigned sender default_gas nonce c account) ;;
    call_ (EWaitReceipt tx_hash).

Lemma send_transaction_sends E h a c :
  sends (fst (run E h (send_transaction a c))) = [] \/
  sends (fst (run E h (send_transaction a c))) = [c].
Proof.
  unfold send_transaction, call_. destruct (is_address_like a); cbn [lift bind run]; run_steps;
    simpl; auto.
Qed.

Lemma send_transaction_ok_sent E h a c st :
  snd (run E h (send_transaction a c)) = Ok st -> sends (fst (run E h (send_transaction a c))) = [c].
Proof.
  unfold send_transaction, call_. destruct (is_address_like a); cbn [lift bind run]; run_steps;
    simpl; intros Hs; try discriminate; auto.
Qed.

#[export] Instance send_transaction_submitter : Submitter :=
  { submit := send_transaction;
    submit_sends := send_transaction_sends;
    submit_ok_sent := send_transaction_ok_sent }.

End SendTransaction.

(** ** The signing path is unreachable *)

Section Credentials.
Context `{Checksum}.

(** Every account [get_account] returns is address-shaped: a private key
    is replaced by its address. *)
Lemma get_account_address_like E h k a :
  snd (run E h (get_account k)) = Ok a -> is_address_like a = true.
Proof.
  unfold get_account, call_.
  destruct k as [k|]; [destruct (negb (String.eqb k "") && is_address_like k); [|destruct (negb (String.eqb k ""))]|];
    cbn [lift bind run]; run_steps; simpl; intros Ha; try discriminate;
    inv Ha; eapply normalize_address_like; eassumption.
Qed.

(** An address-shaped account is sent through the node: no branch signs. *)
Lemma send_transaction_unsigned a c :
  is_address_like a = true -> unsigned (send_transaction a c).
Proof. intros Ha. unfold send_transaction. rewrite Ha. avoids_auto. Qed.

(** Both paths wait for the receipt of the transaction they send. *)
Lemma send_transaction_awaits a c : awaits (send_transaction a c).
Proof.
  unfold send_transaction. destruct (is_address_like a);
    repeat first [apply awaits_transact | apply awaits_send_signed | apply awaits_bind; [awaits_auto|intros]].
Qed.

Lemma get_account_unsigned k : unsigned (get_account k).
Proof. unfold get_account. avoids_auto. Qed.

Lemma get_account_read_only k : read_only (get_account k).
Proof. unfold get_account. avoids_auto. Qed.

End Credentials.

(** Step over a submission inside a run: split the bind, name the
    submission's trace and outcome, and record what the laws say. *)
Ltac submit_split E h a c :=
  let Hs := fresh "Hs" in
  let Hl := fresh "Hl" in
  let Hok := fresh "Hok" in
  pose proof (submit_sends E h a c) as Hl;
  destruct (run E h (submit a c)) as [?t [?st|?x]] eqn:Hs;
  cbn [fst snd] in Hl;
  [ pose proof (submit_ok_sent E h a c _ ltac:(rewrite Hs; reflexivity)) as Hok;
    rewrite Hs in Hok; cbn [fst] in Hok | ];
  red_prog.

Ltac submit_step :=
  match goal with
  | |- context [run ?E ?h (catch (bind (submit ?a ?c) ?k) ?hd)] =>
      rewrite (run_catch E h (bind (submit a c) k) hd), (run_bind E h (submit a c) k);
      submit_split E h a c
  | |- context [run ?E ?h (bind (submit ?a ?c) ?k)] =>
      rewrite (run_bind E h (submit a c) k); submit_split E h a c
  end.

End Submit.
