(* ===== verification/Vault.v ===== *)
(** * The vault operations

    One definition per handler of the source (lines 107-618), each the
    whole function: its reads, its guards and early returns, its
    transactions (through [submit] of the [Submitter] interface), its
    prints, and the [try]/[except Exception] around its body ([guarded]).
    A handler returns the Python function's boolean.

    The role pre-checks read the role constant and then [hasRole]
    ([require_role]); a failed check prints and returns [false] before
    any transaction.  Inner [try] blocks (token symbol and decimals,
    ownership check, each token of the portfolio) are [try_call]s or
    [catch]es whose failure takes the source's fallback.

    The file also holds a concrete chain ([demo_env]) on which the
    handlers run by [vm_compute], and the structural facts the command
    line needs: a handler signs only through [submit] ([*_unsigned]),
    and [get_info] and [get_portfolio] submit nothing ([*_read_only]). *)

From Stdlib Require Import ZArith List String Ascii Lia.
From S2P Require Import Prelude PyFloat PyParse Units Amounts Interact Traces Address Submit.
Import ListNotations.
Open Scope string_scope.
Open Scope Z_scope.

Module Vault.
Import PyFloat PyParse Units Amounts Interact Traces Address Submit.

(** [try: body except Exception as e: print(...); return False]. *)
Definition guarded (what : string) (body : prog bool) : prog bool :=
  catch body (fun _ => print Error what [] ;; Ret false).

(** [role = contract.R_ROLE().call(); contract.hasRole(role, account).call()]. *)
Definition require_role (contract : addr) (r : role) (account : addr) : prog bool :=
  rid <- call_ (ERoleId contract r) ;; call_ (EHasRole contract rid account).

(** [if receipt.status == 1: print(ok); <then> else: print(failed); return False]. *)
Definition on_receipt (status : Z) (ok failed : string) (k : prog bool) : prog bool :=
  if status =? 1 then print Info ok [] ;; k else print Error failed [] ;; Ret false.

(** The base asset's address, symbol and decimals. *)
Definition asset_meta (vault : addr) : prog (addr * string * N) :=
  bind (call_ (EAsset vault)) (fun asset_address : addr =>
  bind (call_ (ESymbol asset_address)) (fun asset_symbol : string =>
  bind (call_ (EDecimals asset_address)) (fun asset_decimals : N =>
  Ret (asset_address, asset_symbol, asset_decimals)))).

Section Handlers.
Context `{Checksum} `{Submitter}.

(** ** [get_info] (lines 107-145) *)

Definition get_info (vault : addr) (account : string) : prog bool :=
  guarded "Error: Failed to get information" (
    account <- lift (normalize_address account) ;;
    '(asset_address, asset_symbol, asset_decimals) <- asset_meta vault ;;
    total_assets <- call_ (ETotalAssets vault) ;;
    total_supply <- call_ (ETotalSupply vault) ;;
    user_shares <- call_ (EBalanceOf vault account) ;;
    let user_assets := if 0 <? total_supply then (user_shares * total_assets) / total_supply else 0 in
    asset_balance <- call_ (EBalanceOf asset_address account) ;;
    strategy_enabled <- call_ (EStrategyEnabled vault) ;;
    ta <- lift (from_wei total_assets asset_decimals) ;;
    print Info "Total Assets" [ta] ;;
    ts <- lift (from_wei total_supply 18) ;;
    print Info "Total Supply" [ts] ;;
    print Info (if strategy_enabled then "Strategy Status: Enabled" else "Strategy Status: Disabled") [] ;;
    us <- lift (from_wei user_shares 18) ;;
    print Info "Shares Held" [us] ;;
    ua <- lift (from_wei user_assets asset_decimals) ;;
    print Info "Share Value" [ua] ;;
    ab <- lift (from_wei asset_balance asset_decimals) ;;
    print Info "Wallet Balance" [ab] ;;
    Ret true).

(** ** [get_portfolio] (lines 147-173) *)

(** The loop of lines 161-168 over the portfolio's tokens.  Each token's
    symbol, decimals, amount and print are in a bare [try] whose
    [except] prints the amount at 18 decimals.  A token without an amount
    raises IndexError ([token_amounts[i]]) in the [try] and again in the
    [except], which aborts the loop. *)
(** [token_amounts[i]]: the head of the remaining amounts, or IndexError. *)
Definition item (amounts : list Z) : result Z :=
  match amounts with n :: _ => Ok n | [] => Err IndexError end.

Fixpoint print_tokens (addrs : list addr) (amounts : list Z) : prog unit :=
  match addrs with
  | a :: addrs' =>
      catch (token_symbol <- call_ (ESymbol a) ;;
             token_decimals <- call_ (EDecimals a) ;;
             n <- lift (item amounts) ;;
             v <- lift (from_wei n token_decimals) ;;
             print Info "token" [v])
        (fun _ => n <- lift (item amounts) ;; v <- lift (from_wei n 18) ;; print Info "Unknown Token" [v]) ;;
      print_tokens addrs' (tl amounts)
  | [] => Ret tt
  end.

Definition get_portfolio (vault : addr) : prog bool :=
  guarded "Error: Failed to get portfolio" (
    '(base_asset_amount, token_addresses, token_amounts) <- call_ (EPortfolio vault) ;;
    '(_, _, asset_decimals) <- asset_meta vault ;;
    b <- lift (from_wei base_asset_amount asset_decimals) ;;
    print Info "base asset" [b] ;;
    print_tokens token_addresses token_amounts ;;
    Ret true).

(** ** [deposit_asset] (lines 175-209) *)

Definition deposit_asset (vault : addr) (account : string) (amount : string) : prog bool :=
  guarded "Error: Deposit failed" (
    '(asset_address, asset_symbol, asset_decimals) <- asset_meta vault ;;
    amount_wei <- lift (to_wei amount asset_decimals) ;;
    balance <- call_ (EBalanceOf asset_address account) ;;
    if balance <? amount_wei then
      b <- lift (from_wei balance asset_decimals) ;;
      print Error "Error: Insufficient balance" [b] ;; Ret false
    else
      print Info "Approving vault" [] ;;
      _ <- submit account (Approve asset_address vault amount_wei) ;;
      print Info "Depositing" [] ;;
      status <- submit account (Deposit vault amount_wei account) ;;
      on_receipt status "Successfully deposited" "Deposit transaction failed" (Ret true)).

(** ** [withdraw_asset] (lines 211-258) *)

Definition withdraw_asset (vault : addr) (account : string)
    (amount percentage : option string) (all_shares : bool) : prog bool :=
  guarded "Error: Redemption failed" (
    '(asset_address, asset_symbol, asset_decimals) <- asset_meta vault ;;
    user_shares <- call_ (EBalanceOf vault account) ;;
    if user_shares =? 0 then print Error "Error: You don't have any shares to redeem" [] ;; Ret false
    else
      let after status :=
        on_receipt status "Redemption successful" "Redemption transaction failed" (
          new_balance <- call_ (EBalanceOf asset_address account) ;;
          new_shares <- call_ (EBalanceOf vault account) ;;
          nb <- lift (from_wei new_balance asset_decimals) ;;
          print Info "Current wallet balance" [nb] ;;
          ns <- lift (from_wei new_shares 18) ;;
          print Info "Remaining shares" [ns] ;;
          Ret true) in
      if all_shares then
        print Info "Redeeming all shares" [] ;;
        status <- submit account (Redeem vault user_shares account account) ;; after status
      else match percentage, amount with
      | Some p, _ =>
          pct <- lift (withdraw_bps p) ;;
          print Info "Redeeming percentage of shares" [] ;;
          status <- submit account (PercentageWithdraw vault pct account) ;; after status
      | None, Some a =>
          amount_wei <- lift (to_wei a asset_decimals) ;;
          print Info "Redeeming shares worth" [] ;;
          status <- submit account (Withdraw vault amount_wei account account) ;; after status
      | None, None => print Error "Error: Must specify redemption amount or percentage" [] ;; Ret false
      end).

(** ** [execute_buy_signal] (lines 260-325) *)

Definition execute_buy_signal (vault : addr) (account : string) (token : addr)
    (amount_or_percentage : string) (min_amount_out : Z) : prog bool :=
  guarded "Error: Buy signal execution failed" (
    '(asset_address, asset_symbol, asset_decimals) <- asset_meta vault ;;
    has_role <- require_role vault ORACLE_ROLE account ;;
    if negb has_role then
      print Error "Error: Account doesn't have ORACLE_ROLE permission" [] ;; Ret false
    else
      active <- call_ (EPairActive vault token) ;;
      if negb active then print Error "Error: Token trading pair is not activated" [] ;; Ret false
      else
        vault_asset_balance <- call_ (EBalanceOf asset_address vault) ;;
        '(amount_wei, max_allocation) <- lift (buy_amounts amount_or_percentage vault_asset_balance asset_decimals) ;;
        _ <- try_call (ESymbol token) ;;
        a <- lift (from_wei amount_wei asset_decimals) ;;
        print Info "Executing buy signal" [a] ;;
        status <- submit account (ExecuteBuySignal vault token amount_wei min_amount_out max_allocation) ;;
        if status =? 1 then
          a' <- lift (from_wei amount_wei asset_decimals) ;;
          print Info "Successfully executed buy signal" [a'] ;; Ret true
        else print Error "Buy signal execution failed" [] ;; Ret false).

(** ** [execute_sell_signal] (lines 327-392) *)

(** The amount to sell, with the prints of each branch (lines 357-374);
    [None] or ["all"] sends the sentinel [0]. *)
Definition sell_amount (amount_or_percentage : option string) (token_balance : Z)
    (token_decimals : N) : prog Z :=
  let is_all := match amount_or_percentage with None => true | Some s => String.eqb s "all" end in
  if is_all then
    b <- lift (from_wei token_balance token_decimals) ;;
    print Info "Executing sell signal: Selling all" [b] ;; Ret 0
  else
    let s := match amount_or_percentage with Some s => s | None => "" end in
    if ends_with_pct s then
      percentage <- lift (py_float (drop_last s)) ;;
      amount_wei <- lift (pct_of_balance token_balance percentage) ;;
      a <- lift (from_wei amount_wei token_decimals) ;;
      print Info "Executing sell signal: Selling percentage" [a] ;; Ret amount_wei
    else
      amount_wei <- lift (to_wei s token_decimals) ;;
      let '(amount_wei', warned) := sell_clamp amount_wei token_balance in
      (if warned then
         b <- lift (from_wei token_balance token_decimals) ;;
         print Warning "Warning: Specified sell amount exceeds vault's balance, will sell all" [b]
       else Ret tt) ;;
      a <- lift (from_wei amount_wei' token_decimals) ;;
      print Info "Executing sell signal: Selling" [a] ;; Ret amount_wei'.

Definition execute_sell_signal (vault : addr) (account : string) (token : addr)
    (amount_or_percentage : option string) (min_amount_out : Z) : prog bool :=
  guarded "Error: Sell signal execution failed" (
    has_role <- require_role vault ORACLE_ROLE account ;;
    if negb has_role then
      print Error "Error: Account doesn't have ORACLE_ROLE permission" [] ;; Ret false
    else
      active <- call_ (EPairActive vault token) ;;
      if negb active then print Error "Error: Token trading pair is not activated" [] ;; Ret false
      else
        sym <- try_call (ESymbol token) ;;
        dec <- match sym with Some _ => try_call (EDecimals token) | None => Ret None end ;;
        let token_decimals := match sym, dec with Some _, Some d => d | _, _ => 18%N end in
        token_balance <- call_ (EBalanceOf token vault) ;;
        if token_balance =? 0 then print Error "Error: Vault has no balance" [] ;; Ret false
        else
          amount_wei <- sell_amount amount_or_percentage token_balance token_decimals ;;
          status <- submit account (ExecuteSellSignal vault token amount_wei min_amount_out) ;;
          on_receipt status "Successfully executed sell signal" "Sell signal execution failed" (Ret true)).

(** ** [manage_trading_pair] (lines 394-427) *)

Definition manage_trading_pair (vault : addr) (account : string) (token : addr)
    (max_allocation : string) (min_exit_amount : Z) (disable : bool) : prog bool :=
  guarded "Error: Trading pair management failed" (
    has_role <- require_role vault STRATEGY_MANAGER_ROLE account ;;
    if negb has_role then
      print Error "Error: Account doesn't have STRATEGY_MANAGER_ROLE permission" [] ;; Ret false
    else
      status <-
        (if disable then
           print Info "Disabling trading pair" [] ;;
           submit account (DisableTradingPair vault token)
         else
           max_allocation_bps <- lift (pair_bps max_allocation) ;;
           pct <- lift (int_truediv max_allocation_bps 100) ;;
           print Info "Setting trading pair" [pct] ;;
           submit account (SetTradingPair vault token max_allocation_bps min_exit_amount)) ;;
      on_receipt status "Trading pair setup successful" "Trading pair setup failed" (Ret true)).

(** ** [update_price] (lines 429-454) *)

Definition update_price (oracle : addr) (account : string) (token_a token_b : addr)
    (price : string) : prog bool :=
  guarded "Error: Price update failed" (
    has_role <- require_role oracle ORACLE_ROLE account ;;
    if negb has_role then
      print Error "Error: Account doesn't have ORACLE_ROLE permission" [] ;; Ret false
    else
      price_wei <- lift (to_wei price 18) ;;
      print Info "Updating price" [] ;;
      status <- submit account (UpdatePrice oracle token_a token_b price_wei) ;;
      on_receipt status "Price update successful" "Price update failed" (Ret true)).

(** ** [mint_tokens] (lines 458-503) *)

(** The ownership check of lines 478-484, in its own [try]: a warning
    when the account is not the owner, a note when the check fails;
    never an abort. *)
Definition check_owner (token : addr) (account : string) : prog unit :=
  owner <- try_call (EOwner token) ;;
  match owner with
  | Some o =>
      match normalize_address account, normalize_address o with
      | Ok a, Ok b =>
          if String.eqb a b then Ret tt
          else print Warning "Warning: Account is not the owner, may not be able to mint" []
      | _, _ => print Info "Unable to check ownership, continuing with mint attempt" []
      end
  | None => print Info "Unable to check ownership, continuing with mint attempt" []
  end.

Definition mint_tokens (account : string) (token_address : string) (amount : string)
    (recipient : option string) : prog bool :=
  guarded "Error: Token minting failed" (
    let recipient := match recipient with Some r => r | None => account end in
    token <- lift (normalize_address token_address) ;;
    token_symbol <- call_ (ESymbol token) ;;
    token_decimals <- call_ (EDecimals token) ;;
    amount_wei <- lift (to_wei amount token_decimals) ;;
    print Info "Attempting to mint" [] ;;
    check_owner token account ;;
    to <- lift (normalize_address recipient) ;;
    status <- submit account (Mint token to amount_wei) ;;
    on_receipt status "Successfully minted" "Minting failed" (
      to' <- lift (normalize_address recipient) ;;
      balance <- call_ (EBalanceOf token to') ;;
      b <- lift (from_wei balance token_decimals) ;;
      print Info "balance" [b] ;; Ret true)).

(** ** [transfer_tokens] (lines 507-549) *)

Definition transfer_tokens (account : string) (token_address : string) (recipient : string)
    (amount : string) : prog bool :=
  guarded "Error: Token transfer failed" (
    token <- lift (normalize_address token_address) ;;
    token_symbol <- call_ (ESymbol token) ;;
    token_decimals <- call_ (EDecimals token) ;;
    amount_wei <- lift (to_wei amount token_decimals) ;;
    balance <- call_ (EBalanceOf token account) ;;
    if balance <? amount_wei then
      b <- lift (from_wei balance token_decimals) ;;
      print Error "Error: Insufficient balance" [b] ;; Ret false
    else
      recipient_addr <- lift (normalize_address recipient) ;;
      print Info "Transferring" [] ;;
      status <- submit account (Transfer token recipient_addr amount_wei) ;;
      on_receipt status "Successfully transferred" "Transfer failed" (
        sender_balance <- call_ (EBalanceOf token account) ;;
        recipient_balance <- call_ (EBalanceOf token recipient_addr) ;;
        sb <- lift (from_wei sender_balance token_decimals) ;;
        print Info "Sender balance" [sb] ;;
        rb <- lift (from_wei recipient_balance token_decimals) ;;
        print Info "Recipient balance" [rb] ;; Ret true)).

(** ** [manage_role] (lines 552-593) *)

(** [str.upper()] on ASCII letters. *)
Definition upper (s : string) : string :=
  string_of_list_ascii (map (fun c =>
    let n := nat_of_ascii c in
    if ((97 <=? n) && (n <=? 122))%nat then ascii_of_nat (n - 32) else c) (list_ascii_of_string s)).

Definition role_of_name (role_name : string) : option role :=
  let u := upper role_name in
  if String.eqb u "ORACLE" then Some ORACLE_ROLE
  else if String.eqb u "STRATEGY_MANAGER" then Some STRATEGY_MANAGER_ROLE
  else if String.eqb u "ADMIN" then Some DEFAULT_ADMIN_ROLE
  else None.

Definition manage_role (vault : addr) (account : string) (role_name : string)
    (target_address : string) (revoke : bool) : prog bool :=
  guarded "Error: Role management failed" (
    match role_of_name role_name with
    | None => print Error "Error: Unknown role" [] ;; Ret false
    | Some r =>
        role_id <- call_ (ERoleId vault r) ;;
        target <- lift (normalize_address target_address) ;;
        has_admin <- require_role vault DEFAULT_ADMIN_ROLE account ;;
        if negb has_admin then
          print Error "Error: Account doesn't have ADMIN permission" [] ;; Ret false
        else
          let c := if revoke then RevokeRole vault role_id target else GrantRole vault role_id target in
          print Info (if revoke then "Revoking role" else "Granting role") [] ;;
          status <- submit account c ;;
          on_receipt status "Successfully changed role" "Role management operation failed" (Ret true)
    end).

(** ** [update_strategy_settings] (lines 596-618) *)

Definition update_strategy_settings (vault : addr) (account : string) (enabled : bool) : prog bool :=
  guarded "Error: Strategy settings update failed" (
    has_role <- require_role vault STRATEGY_MANAGER_ROLE account ;;
    if negb has_role then
      print Error "Error: Account doesn't have STRATEGY_MANAGER_ROLE permission" [] ;; Ret false
    else
      print Info "Updating strategy settings" [] ;;
      status <- submit account (SetStrategyEnabled vault enabled) ;;
      on_receipt status "Strategy settings updated successfully" "Strategy settings update failed" (Ret true)).

End Handlers.

(** ** A concrete chain

    A node that answers every call the same way whatever came before,
    used to run the handlers on concrete arguments.  A transaction's hash
    tells approvals ([1]) from the rest ([2]), so that their receipts can
    differ. *)

Definition demo_vault : addr := "0x1111111111111111111111111111111111111111".
Definition demo_asset : addr := "0x2222222222222222222222222222222222222222".
Definition demo_oracle : addr := "0x3333333333333333333333333333333333333333".
Definition demo_token : addr := "0x4444444444444444444444444444444444444444".
Definition demo_account : addr := "0x5555555555555555555555555555555555555555".

Record chain : Type := Chain {
  ch_balance : Z;          (** every [balanceOf] and [totalAssets] *)
  ch_shares : Z;           (** [totalSupply] *)
  ch_decimals : N;         (** every [decimals] *)
  ch_has_role : bool;      (** every [hasRole] *)
  ch_status : Z -> Z       (** the receipt status of a transaction hash *)
}.

Definition tx_hash (c : call) : Z := match c with Approve _ _ _ => 1 | _ => 2 end.

Definition demo_env (c : chain) : env := fun _ e =>
  match e return option (answer e) with
  | EAsset _ => Some demo_asset
  | EPriceOracle _ => Some demo_oracle
  | ESymbol _ => Some "TKN"
  | EDecimals _ => Some (ch_decimals c)
  | ETotalAssets _ => Some (ch_balance c)
  | ETotalSupply _ => Some (ch_shares c)
  | EBalanceOf _ _ => Some (ch_balance c)
  | EStrategyEnabled _ => Some true
  | ERoleId _ _ => Some 1
  | EHasRole _ _ _ => Some (ch_has_role c)
  | EPairActive _ _ => Some true
  | EOwner _ => Some demo_account
  | EPortfolio _ => Some (ch_balance c, [], [])
  | EIsConnected => Some true
  | EAccounts => Some [demo_account]
  | EKeyAddress _ => Some demo_account
  | ENonce _ => Some 0
  | ETransact _ _ t => Some (tx_hash t)
  | ESendSigned _ _ _ t _ => Some (tx_hash t)
  | EWaitReceipt hsh => Some (ch_status c hsh)
  | EPrint _ => Some tt
  end.

(** A balance of [10^9], six decimals, the roles held, every receipt
    successful. *)
Definition demo_chain : chain := Chain (10 ^ 9) (10 ^ 9) 6 true (fun _ => 1).

(** A chain where the approval's receipt has status [0] and every other
    receipt status [1]. *)
Definition approve_fails : chain := Chain (10 ^ 9) (10 ^ 9) 6 true (fun hsh => if hsh =? 1 then 0 else 1).

(** A base-asset balance of [2^54 + 3] wei at 18 decimals. *)
Definition large_balance : chain := Chain (2 ^ 54 + 3) (10 ^ 9) 18 true (fun _ => 1).

(** ** No handler signs on its own *)

(** A handler signs only through [submit]: when every submission by the
    account is unsigned, so is the handler. *)
Section Unsigned.
Context `{Checksum} `{Submitter}.
Variable account : string.
Hypothesis submit_unsigned : forall c, unsigned (submit account c).

Local Ltac handler_unsigned := avoids_auto; apply submit_unsigned.

Lemma print_tokens_unsigned addrs amounts : unsigned (print_tokens addrs amounts).
Proof.
  revert amounts. induction addrs as [|a addrs IH]; intros [|n amounts]; cbn [print_tokens]; avoids_auto.
Qed.

Lemma get_info_unsigned vault : unsigned (get_info vault account).
Proof. unfold get_info, guarded, asset_meta. avoids_auto. Qed.

Lemma get_portfolio_unsigned vault : unsigned (get_portfolio vault).
Proof. unfold get_portfolio, guarded, asset_meta. avoids_auto. apply print_tokens_unsigned. Qed.

Lemma deposit_asset_unsigned vault amount : unsigned (deposit_asset vault account amount).
Proof. unfold deposit_asset, guarded, asset_meta, on_receipt. handler_unsigned. Qed.

Lemma withdraw_asset_unsigned vault amount percentage all_shares :
  unsigned (withdraw_asset vault account amount percentage all_shares).
Proof. unfold withdraw_asset, guarded, asset_meta, on_receipt. handler_unsigned. Qed.

Lemma execute_buy_signal_unsigned vault token spec min_out :
  unsigned (execute_buy_signal vault account token spec min_out).
Proof. unfold execute_buy_signal, guarded, asset_meta, require_role. handler_unsigned. Qed.

Lemma execute_sell_signal_unsigned vault token spec min_out :
  unsigned (execute_sell_signal vault account token spec min_out).
Proof. unfold execute_sell_signal, sell_amount, guarded, require_role, on_receipt. handler_unsigned. Qed.

Lemma manage_trading_pair_unsigned vault token max min_exit disable :
  unsigned (manage_trading_pair vault account token max min_exit disable).
Proof. unfold manage_trading_pair, guarded, require_role, on_receipt. handler_unsigned. Qed.

Lemma update_price_unsigned oracle a b price : unsigned (update_price oracle account a b price).
Proof. unfold update_price, guarded, require_role, on_receipt. handler_unsigned. Qed.

Lemma mint_tokens_unsigned token amount recipient :
  unsigned (mint_tokens account token amount recipient).
Proof. unfold mint_tokens, check_owner, guarded, on_receipt. handler_unsigned. Qed.

Lemma transfer_tokens_unsigned token recipient amount :
  unsigned (transfer_tokens account token recipient amount).
Proof. unfold transfer_tokens, guarded, on_receipt. handler_unsigned. Qed.

Lemma manage_role_unsigned vault name target revoke :
  unsigned (manage_role vault account name target revoke).
Proof. unfold manage_role, guarded, require_role, on_receipt. handler_unsigned. Qed.

Lemma update_strategy_settings_unsigned vault enabled :
  unsigned (update_strategy_settings vault account enabled).
Proof. unfold update_strategy_settings, guarded, require_role, on_receipt. handler_unsigned. Qed.

End Unsigned.

#[export] Hint Resolve print_tokens_unsigned get_info_unsigned get_portfolio_unsigned
  deposit_asset_unsigned withdraw_asset_unsigned execute_buy_signal_unsigned
  execute_sell_signal_unsigned manage_trading_pair_unsigned update_price_unsigned
  mint_tokens_unsigned transfer_tokens_unsigned manage_role_unsigned
  update_strategy_settings_unsigned : vault.

(** ** The read-only handlers *)

Section ReadOnly.
Context `{Checksum}.

Lemma print_tokens_read_only addrs amounts : read_only (print_tokens addrs amounts).
Proof.
  revert amounts. induction addrs as [|a addrs IH]; intros [|n amounts]; cbn [print_tokens]; avoids_auto.
Qed.

Lemma get_info_read_only vault account : read_only (get_info vault account).
Proof. unfold get_info, guarded, asset_meta. avoids_auto. Qed.

Lemma get_portfolio_read_only vault : read_only (get_portfolio vault).
Proof. unfold get_portfolio, guarded, asset_meta. avoids_auto. apply print_tokens_read_only. Qed.

End ReadOnly.

(** ** Receipts are awaited *)

(** A handler submits only through [submit]: when every submission by
    the account waits for its receipt, so does the handler, and no
    handler submits a second transaction (the deposit after the
    approval) before the first is mined. *)
Section Awaits.
Context `{Checksum} `{Submitter}.
Variable account : string.
Hypothesis submit_awaits : forall c, awaits (submit account c).

Local Ltac handler_awaits := awaits_auto; apply submit_awaits.

Lemma print_tokens_awaits addrs amounts : awaits (print_tokens addrs amounts).
Proof.
  revert amounts. induction addrs as [|a addrs IH]; intros [|n amounts]; cbn [print_tokens]; awaits_auto.
Qed.

#[local] Hint Resolve print_tokens_awaits : vault.

Lemma get_info_awaits vault : awaits (get_info vault account).
Proof. unfold get_info, guarded, asset_meta. awaits_auto. Qed.

Lemma get_portfolio_awaits vault : awaits (get_portfolio vault).
Proof. unfold get_portfolio, guarded, asset_meta. awaits_auto. Qed.

Lemma deposit_asset_awaits vault amount : awaits (deposit_asset vault account amount).
Proof. unfold deposit_asset, guarded, asset_meta, on_receipt. handler_awaits. Qed.

Lemma withdraw_asset_awaits vault amount percentage all_shares :
  awaits (withdraw_asset vault account amount percentage all_shares).
Proof. unfold withdraw_asset, guarded, asset_meta, on_receipt. handler_awaits. Qed.

Lemma execute_buy_signal_awaits vault token spec min_out :
  awaits (execute_buy_signal vault account token spec min_out).
Proof. unfold execute_buy_signal, guarded, asset_meta, require_role. handler_awaits. Qed.

Lemma execute_sell_signal_awaits vault token spec min_out :
  awaits (execute_sell_signal vault account token spec min_out).
Proof. unfold execute_sell_signal, sell_amount, guarded, require_role, on_receipt. handler_awaits. Qed.

Lemma manage_trading_pair_awaits vault token max min_exit disable :
  awaits (manage_trading_pair vault account token max min_exit disable).
Proof. unfold manage_trading_pair, guarded, require_role, on_receipt. handler_awaits. Qed.

Lemma update_price_awaits oracle a b price : awaits (update_price oracle account a b price).
Proof. unfold update_price, guarded, require_role, on_receipt. handler_awaits. Qed.

Lemma mint_tokens_awaits token amount recipient : awaits (mint_tokens account token amount recipient).
Proof. unfold mint_tokens, check_owner, guarded, on_receipt. handler_awaits. Qed.

Lemma transfer_tokens_awaits token recipient amount :
  awaits (transfer_tokens account token recipient amount).
Proof. unfold transfer_tokens, guarded, on_receipt. handler_awaits. Qed.

Lemma manage_role_awaits vault name target revoke : awaits (manage_role vault account name target revoke).
Proof. unfold manage_role, guarded, require_role, on_receipt. handler_awaits. Qed.

Lemma update_strategy_settings_awaits vault enabled :
  awaits (update_strategy_settings vault account enabled).
Proof. unfold update_strategy_settings, guarded, require_role, on_receipt. handler_awaits. Qed.

End Awaits.

#[export] Hint Resolve get_info_awaits get_portfolio_awaits deposit_asset_awaits
  withdraw_asset_awaits execute_buy_signal_awaits execute_sell_signal_awaits
  manage_trading_pair_awaits update_price_awaits mint_tokens_awaits transfer_tokens_awaits
  manage_role_awaits update_strategy_settings_awaits : vault.

End Vault.
