(* ===== verification/Guards.v ===== *)
(** * Role pre-checks and balance checks

    What the handlers refuse to do: without the role a privileged
    operation needs, and above the balance a deposit or transfer spends,
    the handler returns [false] and no transaction is sent.  Each
    theorem is followed by its run on the concrete chain of [Vault]. *)

From Stdlib Require Import ZArith List String Ascii Lia.
From S2P Require Import Prelude PyFloat PyParse Units Amounts Interact Address Submit Vault.
Import ListNotations.
Open Scope string_scope.
Open Scope Z_scope.

Module Guards.
Import PyFloat PyParse Units Amounts Interact Address Submit Vault.

(** ** Role pre-checks *)

(** The account holds no role on contract [c]: every [hasRole] query
    about it answers [false]. *)
Definition lacks_roles (E : env) (c : addr) (account : addr) : Prop :=
  forall h rid, E h (EHasRole c rid account) = Some false.

(** The handler returns [false] and sends no transaction. *)
Definition refused (E : env) (h : list entry) (p : prog bool) : Prop :=
  sends (fst (run E h p)) = [] /\ snd (run E h p) = Ok false.

Section RolePrechecks.
Context `{Checksum} `{Submitter}.

(** C2: Every privileged operation is refused, with no transaction, for an
    account that holds no role on the contract it targets: buy and sell
    signals, pair management, strategy settings and role management on
    the vault, price updates on the oracle. *)
Theorem privileged_ops_require_role E h vault oracle account :
  lacks_roles E vault account -> lacks_roles E oracle account ->
  (forall token spec min_out, refused E h (execute_buy_signal vault account token spec min_out)) /\
  (forall token spec min_out, refused E h (execute_sell_signal vault account token spec min_out)) /\
  (forall token max min_exit disable,
      refused E h (manage_trading_pair vault account token max min_exit disable)) /\
  (forall enabled, refused E h (update_strategy_settings vault account enabled)) /\
  (forall name target revoke, refused E h (manage_role vault account name target revoke)) /\
  (forall a b price, refused E h (update_price oracle account a b price)).
Proof.
  intros Hv Ho. unfold lacks_roles in *.
  refine (conj _ (conj _ (conj _ (conj _ (conj _ _))))); intros;
    unfold refused, execute_buy_signal, execute_sell_signal, manage_trading_pair,
      update_strategy_settings, manage_role, update_price, guarded, asset_meta, require_role, call_;
    try destruct (role_of_name name); cbn [bind catch run]; run_steps; simpl; auto.
Qed.

End RolePrechecks.

(** ** Balance checks *)

Section Balance.
Context `{Checksum} `{Submitter}.

(** C9: A deposit larger than the account's balance of the base asset is
    refused before the approval: nothing is sent. *)
Theorem deposit_insufficient_refused (E : env) h vault account amount asset (d : N)
    (bal amt : Z) :
  (forall h, E h (EAsset vault) = Some asset) -> (forall h, E h (EDecimals asset) = Some d) ->
  (forall h, E h (EBalanceOf asset account) = Some bal) ->
  to_wei amount d = Ok amt -> bal < amt ->
  refused E h (deposit_asset vault account amount).
Proof.
  intros HA HD HB Hw Hlt. unfold refused, deposit_asset, guarded, asset_meta, call_, print.
  cbn [bind catch run]. run_steps; zbool; try lia; simpl; auto.
Qed.

(** C11: A transfer larger than the account's token balance is refused:
    nothing is sent. *)
Theorem transfer_insufficient_refused (E : env) h account token_address token recipient amount
    (d : N) (bal amt : Z) :
  normalize_address token_address = Ok token -> (forall h, E h (EDecimals token) = Some d) ->
  (forall h, E h (EBalanceOf token account) = Some bal) ->
  to_wei amount d = Ok amt -> bal < amt ->
  refused E h (transfer_tokens account token_address recipient amount).
Proof.
  intros HT HD HB Hw Hlt. unfold refused, transfer_tokens, guarded, call_, print.
  rewrite HT. cbn [lift bind catch run]. run_steps; zbool; try lia; simpl; auto.
Qed.

End Balance.

(** ** Failures stay inside the handler *)

Section Witnesses.

Lemma privileged_ops_require_role_witness :
  let E := demo_env (Chain (10 ^ 9) (10 ^ 9) 6 false (fun _ => 1)) in
  lacks_roles E demo_vault demo_account /\ lacks_roles E demo_oracle demo_account /\
  refused E [] (execute_buy_signal demo_vault demo_account demo_token "30%" 0).
Proof.
  intros E. assert (Hv : lacks_roles E demo_vault demo_account) by (intros h rid; reflexivity).
  assert (Ho : lacks_roles E demo_oracle demo_account) by (intros h rid; reflexivity).
  split; [exact Hv | split; [exact Ho |]].
  apply (privileged_ops_require_role E [] demo_vault demo_oracle demo_account Hv Ho).
Defined.

Lemma deposit_insufficient_refused_witness :
  to_wei "2000" 6 = Ok (2 * 10 ^ 9) /\ 10 ^ 9 < 2 * 10 ^ 9 /\
  refused (demo_env demo_chain) [] (deposit_asset demo_vault demo_account "2000").
Proof.
  assert (Hw : to_wei "2000" 6 = Ok (2 * 10 ^ 9)) by (vm_compute; reflexivity).
  split; [exact Hw | split; [lia |]].
  apply (deposit_insufficient_refused (demo_env demo_chain) [] demo_vault demo_account "2000" demo_asset
    6 (10 ^ 9) (2 * 10 ^ 9)); auto; lia.
Defined.

Lemma transfer_insufficient_refused_witness :
  normalize_address demo_token = Ok demo_token /\ to_wei "2000" 6 = Ok (2 * 10 ^ 9) /\
  refused (demo_env demo_chain) [] (transfer_tokens demo_account demo_token demo_vault "2000").
Proof.
  assert (Hn : normalize_address demo_token = Ok demo_token) by (vm_compute; reflexivity).
  assert (Hw : to_wei "2000" 6 = Ok (2 * 10 ^ 9)) by (vm_compute; reflexivity).
  split; [exact Hn | split; [exact Hw |]].
  apply (transfer_insufficient_refused (demo_env demo_chain) [] demo_account demo_token demo_token
    demo_vault "2000" 6 (10 ^ 9) (2 * 10 ^ 9)); auto; lia.
Defined.

End Witnesses.

End Guards.
