(* ===== verification/Sends.v ===== *)
(** * The transactions each handler sends

    For each handler, the transactions of any run, on any chain: at most
    the ones the source builds, with the arguments it computes from what
    the chain reports.  The handlers are run through the abstract
    [Submitter], so the theorems hold for any submission that sends at
    most its own transaction. *)

From Stdlib Require Import ZArith List String Ascii Lia.
From S2P Require Import Prelude PyFloat PyParse Units Amounts Interact Address Submit Vault.
Import ListNotations.
Open Scope string_scope.
Open Scope Z_scope.

Module Sends.
Import PyFloat PyParse Units Amounts Interact Address Submit Vault.

(** ** Deposit *)

Section Deposit.
Context `{Checksum} `{Submitter}.

(** C3: A deposit that reports success has sent exactly two transactions:
    the approval, on the token the vault's [asset()] returned, of
    [to_wei(amount, d)] for the vault, [d] being what that token's
    [decimals()] returned, then the deposit of the same amount to the
    account. *)
Theorem deposit_asset_sends (E : env) h vault account amount :
  snd (run E h (deposit_asset vault account amount)) = Ok true ->
  exists asset d amt, E h (EAsset vault) = Some asset /\
    (exists h', E h' (EDecimals asset) = Some d) /\ to_wei amount d = Ok amt /\
    sends (fst (run E h (deposit_asset vault account amount))) =
      [Approve asset vault amt; Deposit vault amt account].
Proof.
  unfold deposit_asset, guarded, asset_meta, on_receipt, call_, print.
  cbn [bind catch run]. run_steps; repeat (submit_step; run_steps).
  all: cbn [fst snd]; intros Htrue; try discriminate.
  all: do 3 eexists; split; [reflexivity|]; split;
    [match goal with H : _ ?hh (EDecimals _) = Some _ |- exists _, _ => exists hh; exact H end|];
    split; [eassumption|]; trace_simpl.
  all: repeat match goal with H : sends _ = [_] |- _ => rewrite H; clear H end; reflexivity.
Qed.

End Deposit.

(** ** Buy signal *)

Section Buy.
Context `{Checksum} `{Submitter}.

(** C6: The buy signal carries the amount and the cap [buy_amounts] computes
    from the vault's base-asset balance and decimals as the chain reports
    them; it is the only transaction. *)
Theorem execute_buy_signal_sends (E : env) h vault account token spec min_out asset (d : N)
    (bal amt alloc : Z) :
  (forall h, E h (EAsset vault) = Some asset) -> (forall h, E h (EDecimals asset) = Some d) ->
  (forall h, E h (EBalanceOf asset vault) = Some bal) ->
  buy_amounts spec bal d = Ok (amt, alloc) ->
  sends (fst (run E h (execute_buy_signal vault account token spec min_out))) = [] \/
  sends (fst (run E h (execute_buy_signal vault account token spec min_out))) =
    [ExecuteBuySignal vault token amt min_out alloc].
Proof.
  intros HA HD HB Hb.
  unfold execute_buy_signal, guarded, asset_meta, require_role, call_, try_call, print.
  cbn [bind catch run]. run_steps; repeat (submit_step; run_steps); try congruence; finish_sends.
Qed.

End Buy.

(** ** Withdrawal *)

Section Withdraw.
Context `{Checksum} `{Submitter}.

(** C17: [--all] redeems the share balance read from the vault, and only a
    nonzero one. *)
Theorem withdraw_all_redeems (E : env) h vault account amount percentage (s : Z) :
  (forall h, E h (EBalanceOf vault account) = Some s) ->
  sends (fst (run E h (withdraw_asset vault account amount percentage true))) = [] \/
  (s <> 0 /\ sends (fst (run E h (withdraw_asset vault account amount percentage true))) =
     [Redeem vault s account account]).
Proof.
  intros HS. unfold withdraw_asset, guarded, asset_meta, on_receipt, call_, print.
  cbn [bind catch run]. run_steps; repeat (submit_step; run_steps); finish_sends;
    right; split; auto; lia.
Qed.

(** C7: [--percentage p] sends one [percentageWithdraw] of [withdraw_bps p]
    basis points, which lie in [[1, 10000]]. *)
Theorem withdraw_percentage_sends (E : env) h vault account amount p (b : Z) :
  withdraw_bps p = Ok b ->
  sends (fst (run E h (withdraw_asset vault account amount (Some p) false))) = [] \/
  sends (fst (run E h (withdraw_asset vault account amount (Some p) false))) =
    [PercentageWithdraw vault b account].
Proof.
  intros Hb. unfold withdraw_asset, guarded, asset_meta, on_receipt, call_, print.
  rewrite Hb. cbn [lift bind catch run]. run_steps; repeat (submit_step; run_steps); finish_sends.
Qed.

End Withdraw.

(** ** Sell signal *)

Section Sell.
Context `{Checksum} `{Submitter}.

(** C16: Selling "all" (or no amount) sends the sentinel [0], whatever the
    balance the client read: the contract sells its own full balance. *)
Theorem execute_sell_all_sentinel E h vault account token spec min_out :
  spec = None \/ spec = Some "all" ->
  sends (fst (run E h (execute_sell_signal vault account token spec min_out))) = [] \/
  sends (fst (run E h (execute_sell_signal vault account token spec min_out))) =
    [ExecuteSellSignal vault token 0 min_out].
Proof.
  intros Hs.
  unfold execute_sell_signal, sell_amount, guarded, require_role, on_receipt, call_, try_call, print.
  destruct Hs as [-> | ->]; cbn [bind catch run String.eqb Ascii.eqb Bool.eqb];
    run_steps; repeat (submit_step; run_steps); finish_sends.
Qed.

(** C5: An exact sell quantity above the vault's balance is lowered to the
    balance: with the token's decimals [d] and balance [bal] as the chain
    reports them, the only transaction sells [min (to_wei s d) bal]. *)
Theorem execute_sell_exact_clamped (E : env) h vault account token s min_out
    (sym : string) (d : N) (bal w : Z) :
  (forall h, E h (ESymbol token) = Some sym) -> (forall h, E h (EDecimals token) = Some d) ->
  (forall h, E h (EBalanceOf token vault) = Some bal) ->
  String.eqb s "all" = false -> ends_with_pct s = false -> to_wei s d = Ok w ->
  sends (fst (run E h (execute_sell_signal vault account token (Some s) min_out))) = [] \/
  sends (fst (run E h (execute_sell_signal vault account token (Some s) min_out))) =
    [ExecuteSellSignal vault token (Z.min w bal) min_out].
Proof.
  intros HS HD HB Hall Hpct Hw.
  unfold execute_sell_signal, sell_amount, sell_clamp, guarded, require_role, on_receipt, call_,
    try_call, print.
  rewrite Hall, Hpct. cbn [bind catch run]. run_steps; repeat (submit_step; run_steps); try congruence; finish_sends;
    right; f_equal; f_equal; zbool; lia.
Qed.

(** C26: Selling ["P%"], with [P] a digit string of value at most 100 and
    a token balance [bal] with [100 * bal < 2^53], sends at most the
    spec's [floor(bal * P / 100)]. *)
Theorem execute_sell_percentage_floor (E : env) h vault account token s min_out
    (sym : string) (d : N) (bal : Z) :
  (forall h, E h (ESymbol token) = Some sym) -> (forall h, E h (EDecimals token) = Some d) ->
  (forall h, E h (EBalanceOf token vault) = Some bal) ->
  forallb is_digit (list_of s) = true -> list_of s <> [] -> digits_value (list_of s) <= 100 ->
  0 <= bal -> 100 * bal < 2 ^ prec ->
  sends (fst (run E h (execute_sell_signal vault account token (Some (s ++ "%")) min_out))) = [] \/
  sends (fst (run E h (execute_sell_signal vault account token (Some (s ++ "%")) min_out))) =
    [ExecuteSellSignal vault token (bal * digits_value (list_of s) / 100) min_out].
Proof.
  intros HS HD HB Hd Hne HP Hb0 Hfit. pose proof (digits_value_nonneg _ Hd).
  destruct (py_float_digits s Hd Hne ltac:(unfold prec; lia)) as (m & e & F & V).
  pose proof (pct_of_balance_floor bal (digits_value (list_of s)) m e Hb0 Hfit ltac:(lia) V) as Hpf.
  assert (Hall : String.eqb (s ++ "%") "all" = false).
  { destruct (String.eqb_spec (s ++ "%") "all") as [Heq|]; auto.
    pose proof (ends_with_pct_app s) as Hp. rewrite Heq in Hp. discriminate. }
  unfold execute_sell_signal, sell_amount, guarded, require_role, on_receipt, call_, try_call, print.
  rewrite Hall, ends_with_pct_app, drop_last_app, F. cbn [lift bind catch run].
  run_steps; repeat (submit_step; run_steps); try congruence; finish_sends.
Qed.

End Sell.

(** ** Read-only handlers *)

Section Info.
Context `{Checksum}.

(** C18: [info] and [portfolio] never send a transaction, whatever the
    chain answers. *)
Theorem info_portfolio_send_nothing (E : env) h vault account :
  sends (fst (run E h (get_info vault account))) = [] /\
  sends (fst (run E h (get_portfolio vault))) = [].
Proof. split; apply read_only_sends; [apply get_info_read_only | apply get_portfolio_read_only]. Qed.

End Info.

(** ** Oracle price *)

Section Price.
Context `{Checksum} `{Submitter}.

(** C21: [price] sends at most [updatePrice(token_a, token_b, to_wei(price))],
    the price scaled by [10^18]. *)
Theorem update_price_sends (E : env) h oracle account a b price (w : Z) :
  to_wei price 18 = Ok w ->
  sends (fst (run E h (update_price oracle account a b price))) = [] \/
  sends (fst (run E h (update_price oracle account a b price))) = [UpdatePrice oracle a b w].
Proof.
  intros Hw. unfold update_price, guarded, require_role, on_receipt, call_, print.
  rewrite Hw. cbn [lift bind catch run]. run_steps; repeat (submit_step; run_steps); finish_sends.
Qed.

End Price.

(** ** Trading pairs *)

Section Pair.
Context `{Checksum} `{Submitter}.

(** C22: [pair --disable] sends at most [disableTradingPair(token)]; without
    [--disable] it sends at most [setTradingPair(token, bps, min_exit)]
    with the basis points [pair_bps] computes. *)
Theorem manage_trading_pair_sends (E : env) h vault account token max min_exit (b : Z) :
  (sends (fst (run E h (manage_trading_pair vault account token max min_exit true)))
     = [] \/
   sends (fst (run E h (manage_trading_pair vault account token max min_exit true)))
     = [DisableTradingPair vault token]) /\
  (pair_bps max = Ok b ->
   sends (fst (run E h (manage_trading_pair vault account token max min_exit false))) = [] \/
   sends (fst (run E h (manage_trading_pair vault account token max min_exit false))) =
     [SetTradingPair vault token b min_exit]).
Proof.
  unfold manage_trading_pair, guarded, require_role, on_receipt, call_, print. split; [|intros Hb; rewrite Hb];
    cbn [lift bind catch run]; run_steps; repeat (submit_step; run_steps); finish_sends.
Qed.

End Pair.

(** ** Roles *)

Section Role.
Context `{Checksum} `{Submitter}.

(** C23: [role] sends at most one [grantRole] (or [revokeRole] with
    [--revoke]) of the role id the vault reports for the named role, to
    the normalized target. *)
Theorem manage_role_sends (E : env) h vault account name target revoke r (rid : Z) t :
  role_of_name name = Some r -> (forall h, E h (ERoleId vault r) = Some rid) ->
  normalize_address target = Ok t ->
  sends (fst (run E h (manage_role vault account name target revoke))) = [] \/
  sends (fst (run E h (manage_role vault account name target revoke))) =
    [if revoke then RevokeRole vault rid t else GrantRole vault rid t].
Proof.
  intros Hr HR Ht. unfold manage_role, guarded, require_role, on_receipt, call_, print.
  rewrite Hr. cbn [bind catch run]. rewrite HR. cbn [run]. rewrite Ht. cbn [lift bind catch run].
  run_steps; repeat (submit_step; run_steps); finish_sends.
Qed.

End Role.

(** ** Token minting and transfer *)

Section Token.
Context `{Checksum} `{Submitter}.

(** C24: [mint] sends at most [mint(recipient, to_wei(amount, decimals))],
    with the token's decimals as the chain reports them and the
    recipient defaulting to the account; the ownership check before it
    (lines 477-484) never aborts the mint: whatever [owner()] answers,
    or if it fails, it returns normally having sent nothing. *)
Theorem mint_tokens_sends (E : env) h account token_address token amount recipient (d : N) w r :
  normalize_address token_address = Ok token -> (forall h, E h (EDecimals token) = Some d) ->
  to_wei amount d = Ok w ->
  normalize_address (match recipient with Some x => x | None => account end) = Ok r ->
  (sends (fst (run E h (mint_tokens account token_address amount recipient))) = [] \/
   sends (fst (run E h (mint_tokens account token_address amount recipient))) = [Mint token r w]) /\
  (forall (E' : env) h', snd (run E' h' (check_owner token account)) = Ok tt /\
     sends (fst (run E' h' (check_owner token account))) = []).
Proof.
  intros HT HD Hw Hr. split.
  - unfold mint_tokens, check_owner, guarded, on_receipt, call_, try_call, print.
    rewrite HT. cbn [lift bind catch run]. run_steps; repeat (submit_step; run_steps); finish_sends.
  - intros E' h'. unfold check_owner, try_call, print. cbn.
    destruct (E' h' (EOwner token)) as [o|]; cbn; [|auto].
    destruct (normalize_address account), (normalize_address o); cbn; try destruct String.eqb; cbn; auto.
Qed.

(** C10: A transfer sends at most [transfer(recipient, to_wei(amount,
    decimals))], and only when that amount does not exceed the account's
    balance. *)
Theorem transfer_tokens_sends (E : env) h account token_address token recipient r amount (d : N)
    (bal w : Z) :
  normalize_address token_address = Ok token -> (forall h, E h (EDecimals token) = Some d) ->
  (forall h, E h (EBalanceOf token account) = Some bal) ->
  to_wei amount d = Ok w -> normalize_address recipient = Ok r ->
  sends (fst (run E h (transfer_tokens account token_address recipient amount))) = [] \/
  (w <= bal /\
   sends (fst (run E h (transfer_tokens account token_address recipient amount))) = [Transfer token r w]).
Proof.
  intros HT HD HB Hw Hr. unfold transfer_tokens, guarded, on_receipt, call_, print.
  rewrite HT. cbn [lift bind catch run]. run_steps; repeat (submit_step; run_steps); finish_sends;
    right; split; auto; zbool; lia.
Qed.

End Token.

Section Witnesses.

Lemma deposit_asset_sends_witness :
  snd (run (demo_env demo_chain) [] (deposit_asset demo_vault demo_account "100")) = Ok true /\
  exists asset d amt, demo_env demo_chain [] (EAsset demo_vault) = Some asset /\
    (exists h', demo_env demo_chain h' (EDecimals asset) = Some d) /\ to_wei "100" d = Ok amt /\
  sends (fst (run (demo_env demo_chain) [] (deposit_asset demo_vault demo_account "100"))) =
      [Approve asset demo_vault amt; Deposit demo_vault amt demo_account].
Proof.
  assert (H : snd (run (demo_env demo_chain) [] (deposit_asset demo_vault demo_account "100")) = Ok true)
    by (vm_compute; reflexivity).
  split; [exact H | exact (deposit_asset_sends (demo_env demo_chain) [] demo_vault demo_account "100" H)].
Defined.

Lemma execute_buy_signal_sends_witness :
  buy_amounts "30%" (10 ^ 9) 6 = Ok (3 * 10 ^ 8, 3000) /\
  sends (fst (run (demo_env demo_chain) [] (execute_buy_signal demo_vault demo_account demo_token "30%" 0)))
    = [ExecuteBuySignal demo_vault demo_token (3 * 10 ^ 8) 0 3000].
Proof.
  assert (Hb : buy_amounts "30%" (10 ^ 9) 6 = Ok (3 * 10 ^ 8, 3000)) by (vm_compute; reflexivity).
  split; [exact Hb |].
  destruct (execute_buy_signal_sends (demo_env demo_chain) [] demo_vault demo_account demo_token "30%" 0
    demo_asset 6 (10 ^ 9) (3 * 10 ^ 8) 3000 (fun _ => eq_refl) (fun _ => eq_refl) (fun _ => eq_refl) Hb)
    as [H|H]; [vm_compute in H; discriminate | exact H].
Defined.

Lemma withdraw_all_redeems_witness :
  sends (fst (run (demo_env demo_chain) [] (withdraw_asset demo_vault demo_account None None true))) = [] \/
  (10 ^ 9 <> 0 /\ sends (fst (run (demo_env demo_chain) [] (withdraw_asset demo_vault demo_account None None true))) =
     [Redeem demo_vault (10 ^ 9) demo_account demo_account]).
Proof.
  exact (withdraw_all_redeems (demo_env demo_chain) [] demo_vault demo_account None None (10 ^ 9)
    (fun _ => eq_refl)).
Defined.

Lemma withdraw_percentage_sends_witness :
  withdraw_bps "50" = Ok 5000 /\
  sends (fst (run (demo_env demo_chain) [] (withdraw_asset demo_vault demo_account None (Some "50") false)))
    = [PercentageWithdraw demo_vault 5000 demo_account].
Proof.
  assert (Hb : withdraw_bps "50" = Ok 5000) by (vm_compute; reflexivity).
  split; [exact Hb |].
  destruct (withdraw_percentage_sends (demo_env demo_chain) [] demo_vault demo_account None "50" 5000 Hb)
    as [H|H]; [vm_compute in H; discriminate | exact H].
Defined.

Lemma execute_sell_all_sentinel_witness :
  sends (fst (run (demo_env demo_chain) [] (execute_sell_signal demo_vault demo_account demo_token None 0)))
    = [ExecuteSellSignal demo_vault demo_token 0 0].
Proof.
  destruct (execute_sell_all_sentinel (demo_env demo_chain) [] demo_vault demo_account demo_token None 0
    (or_introl eq_refl)) as [H|H]; [vm_compute in H; discriminate | exact H].
Defined.

Lemma execute_sell_exact_clamped_witness :
  to_wei "2000" 6 = Ok (2 * 10 ^ 9) /\
  sends (fst (run (demo_env demo_chain) [] (execute_sell_signal demo_vault demo_account demo_token (Some "2000") 0)))
    = [ExecuteSellSignal demo_vault demo_token (10 ^ 9) 0].
Proof.
  assert (Hw : to_wei "2000" 6 = Ok (2 * 10 ^ 9)) by (vm_compute; reflexivity).
  split; [exact Hw |].
  destruct (execute_sell_exact_clamped (demo_env demo_chain) [] demo_vault demo_account demo_token "2000" 0
    "TKN" 6 (10 ^ 9) (2 * 10 ^ 9) (fun _ => eq_refl) (fun _ => eq_refl) (fun _ => eq_refl)
    eq_refl eq_refl Hw) as [H|H]; [vm_compute in H; discriminate | exact H].
Defined.

Lemma update_price_sends_witness :
  to_wei "1.5" 18 = Ok 1500000000000000000 /\
  sends (fst (run (demo_env demo_chain) [] (update_price demo_oracle demo_account demo_asset demo_token "1.5")))
    = [UpdatePrice demo_oracle demo_asset demo_token 1500000000000000000].
Proof.
  assert (Hw : to_wei "1.5" 18 = Ok 1500000000000000000) by (vm_compute; reflexivity).
  split; [exact Hw |].
  destruct (update_price_sends (demo_env demo_chain) [] demo_oracle demo_account demo_asset demo_token "1.5"
    _ Hw) as [H|H]; [vm_compute in H; discriminate | exact H].
Defined.

Lemma manage_trading_pair_sends_witness :
  pair_bps "30%" = Ok 3000 /\
  sends (fst (run (demo_env demo_chain) [] (manage_trading_pair demo_vault demo_account demo_token "30%" 0 false)))
    = [SetTradingPair demo_vault demo_token 3000 0].
Proof.
  assert (Hb : pair_bps "30%" = Ok 3000) by (vm_compute; reflexivity).
  split; [exact Hb |].
  destruct (proj2 (manage_trading_pair_sends (demo_env demo_chain) [] demo_vault demo_account demo_token "30%" 0
    3000) Hb) as [H|H]; [vm_compute in H; discriminate | exact H].
Defined.

Lemma manage_role_sends_witness :
  role_of_name "oracle" = Some ORACLE_ROLE /\ normalize_address demo_token = Ok demo_token /\
  sends (fst (run (demo_env demo_chain) [] (manage_role demo_vault demo_account "oracle" demo_token false)))
    = [GrantRole demo_vault 1 demo_token].
Proof.
  assert (Hr : role_of_name "oracle" = Some ORACLE_ROLE) by reflexivity.
  assert (Ht : normalize_address demo_token = Ok demo_token) by (vm_compute; reflexivity).
  split; [exact Hr | split; [exact Ht |]].
  destruct (manage_role_sends (demo_env demo_chain) [] demo_vault demo_account "oracle" demo_token false
    ORACLE_ROLE 1 demo_token Hr (fun _ => eq_refl) Ht) as [H|H]; [vm_compute in H; discriminate | exact H].
Defined.

Lemma mint_tokens_sends_witness :
  to_wei "5" 6 = Ok 5000000 /\
  sends (fst (run (demo_env demo_chain) [] (mint_tokens demo_account demo_token "5" None)))
    = [Mint demo_token demo_account 5000000].
Proof.
  assert (HT : normalize_address demo_token = Ok demo_token) by (vm_compute; reflexivity).
  assert (Hr : normalize_address demo_account = Ok demo_account) by (vm_compute; reflexivity).
  assert (Hw : to_wei "5" 6 = Ok 5000000) by (vm_compute; reflexivity).
  split; [exact Hw |].
  destruct (mint_tokens_sends (demo_env demo_chain) [] demo_account demo_token demo_token "5" None 6 5000000
    demo_account HT (fun _ => eq_refl) Hw Hr) as [[H|H] _]; [vm_compute in H; discriminate | exact H].
Defined.

Lemma transfer_tokens_sends_witness :
  to_wei "5" 6 = Ok 5000000 /\
  sends (fst (run (demo_env demo_chain) [] (transfer_tokens demo_account demo_token demo_vault "5")))
    = [Transfer demo_token demo_vault 5000000].
Proof.
  assert (HT : normalize_address demo_token = Ok demo_token) by (vm_compute; reflexivity).
  assert (Hr : normalize_address demo_vault = Ok demo_vault) by (vm_compute; reflexivity).
  assert (Hw : to_wei "5" 6 = Ok 5000000) by (vm_compute; reflexivity).
  split; [exact Hw |].
  destruct (transfer_tokens_sends (demo_env demo_chain) [] demo_account demo_token demo_token demo_vault
    demo_vault "5" 6 (10 ^ 9) 5000000 HT (fun _ => eq_refl) (fun _ => eq_refl) Hw Hr) as [H|[_ H]];
    [vm_compute in H; discriminate | exact H].
Defined.

Lemma execute_sell_percentage_floor_witness :
  sends (fst (run (demo_env demo_chain) [] (execute_sell_signal demo_vault demo_account demo_token (Some ("30" ++ "%")) 0)))
    = [ExecuteSellSignal demo_vault demo_token (10 ^ 9 * 30 / 100) 0].
Proof.
  destruct (execute_sell_percentage_floor (demo_env demo_chain) [] demo_vault demo_account demo_token "30" 0
    "TKN" 6 (10 ^ 9) (fun _ => eq_refl) (fun _ => eq_refl) (fun _ => eq_refl) eq_refl
    ltac:(discriminate) ltac:(vm_compute; discriminate) ltac:(lia) ltac:(vm_compute; reflexivity))
    as [H|H]; [vm_compute in H; discriminate | exact H].
Defined.

End Witnesses.

End Sends.
