(* ===== verification/Runs.v ===== *)
(** * Concrete runs of the handlers

    Runs on concrete chains that show behaviour the spec or the source's
    own comments do not expect. *)

From Stdlib Require Import ZArith List String Ascii Lia.
From S2P Require Import Prelude PyFloat PyParse Units Amounts Interact Address Submit Vault.
Import ListNotations.
Open Scope string_scope.
Open Scope Z_scope.

Module Runs.
Import PyFloat PyParse Units Amounts Interact Address Submit Vault.

(** Selling [100%] of a balance above [2^53] asks the vault to sell more
    than it holds: [int(balance * 100.0 / 100)] rounds the balance
    [2^54 + 3] to [2^54 + 4], and the percentage branch does not clamp. *)
Example sell_percentage_exceeds_balance :
  sends (fst (run (demo_env large_balance) [] (execute_sell_signal demo_vault demo_account demo_token (Some "100%") 0)))
    = [ExecuteSellSignal demo_vault demo_token (2 ^ 54 + 4) 0] /\
  2 ^ 54 + 3 < 2 ^ 54 + 4.
Proof. split; [vm_compute; reflexivity | lia]. Qed.

End Runs.
