(* ===== verification/Progress.v ===== *)
(** * Progress: handlers that complete

    The theorems of [Sends] say what a handler has sent when it reports
    success.  The ones here say that it does report success: on a node
    that answers the handler's reads and accepts and mines its
    transactions, the small-step run ([Traces.step]) reaches the
    handler's [return True] with the transactions sent; and a deposit
    whose approval failed on chain still sends the deposit and reports
    success. *)

From Stdlib Require Import ZArith List String Lia.
From S2P Require Import Prelude PyFloat Units Interact Traces Address Submit Vault.
Import ListNotations.
Open Scope Z_scope.

Module Progress.
Import Units Interact Traces Address Submit Vault.

Section Deposit.
Context `{Checksum}.

(** C13: A deposit from an address-shaped account whose balance covers
    [to_wei amount], on a node that answers the asset reads, accepts
    every transaction and mines it with status 1, eventually returns
    [True] having sent the approval and then the deposit. *)
Theorem deposit_asset_completes (E : env) h vault account amount asset sym d amt B sender
    (txh : call -> Z) :
  is_address_like account = true -> normalize_address account = Ok sender ->
  (forall h, E h (EAsset vault) = Some asset) -> (forall h, E h (ESymbol asset) = Some sym) ->
  (forall h, E h (EDecimals asset) = Some d) -> to_wei amount d = Ok amt ->
  (forall h, E h (EBalanceOf asset account) = Some B) -> amt <= B ->
  (forall h s g c, E h (ETransact s g c) = Some (txh c)) ->
  (forall h x, E h (EWaitReceipt x) = Some 1) ->
  eventually E (fun s => snd s = Ret true /\
                  sends (fst s) = (sends h ++ [Approve asset vault amt; Deposit vault amt account])%list)
    (h, @deposit_asset send_transaction_submitter vault account amount).
Proof.
  intros Hacc Hn HA HS HD Hw HB Hle HT HW.
  eapply eventually_weaken; [apply run_eventually|]. intros s ->. cbn [fst snd].
  unfold deposit_asset, guarded, asset_meta, on_receipt, call_, print. cbn [submit send_transaction_submitter].
  unfold send_transaction. rewrite Hacc. unfold call_. cbn [bind catch run].
  run_steps; try (apply Z.ltb_lt in Heqb; lia); try (rewrite Z.eqb_refl in *; discriminate).
  all: cbn [fst snd of_result]; split; [reflexivity|]; trace_simpl; reflexivity.
Qed.

(** C33: [deposit_asset] does not look at the approval's receipt (lines
    194-196): on a node whose approval receipt has status 0 and whose
    deposit receipt has status 1, it sends the approval and then the
    deposit, and reports success. *)
Theorem deposit_ignores_approve_status (E : env) h vault account amount asset sym d amt B sender
    (txh : call -> Z) :
  is_address_like account = true -> normalize_address account = Ok sender ->
  (forall h, E h (EAsset vault) = Some asset) -> (forall h, E h (ESymbol asset) = Some sym) ->
  (forall h, E h (EDecimals asset) = Some d) -> to_wei amount d = Ok amt ->
  (forall h, E h (EBalanceOf asset account) = Some B) -> amt <= B ->
  (forall h s g c, E h (ETransact s g c) = Some (txh c)) ->
  (forall h, E h (EWaitReceipt (txh (Approve asset vault amt))) = Some 0) ->
  (forall h, E h (EWaitReceipt (txh (Deposit vault amt account))) = Some 1) ->
  snd (run E h (@deposit_asset send_transaction_submitter vault account amount)) = Ok true /\
  sends (fst (run E h (@deposit_asset send_transaction_submitter vault account amount))) =
    [Approve asset vault amt; Deposit vault amt account].
Proof.
  intros Hacc Hn HA HS HD Hw HB Hle HT HW0 HW1.
  unfold deposit_asset, guarded, asset_meta, on_receipt, call_, print. cbn [submit send_transaction_submitter].
  unfold send_transaction. rewrite Hacc. unfold call_. cbn [bind catch run].
  run_steps; try (apply Z.ltb_lt in Heqb; lia); try (rewrite Z.eqb_refl in *; discriminate).
  all: repeat match goal with Hq : _ = _ |- _ =>
    first [rewrite HW0 in Hq | rewrite HW1 in Hq]; first [discriminate | injection Hq as <-] end.
  all: cbn in *; try discriminate.
  all: try (split; [reflexivity|]; trace_simpl; reflexivity).
Qed.

End Deposit.

Lemma deposit_asset_completes_witness :
  to_wei "1" 6%N = Ok (10 ^ 6) /\
  eventually (demo_env demo_chain)
    (fun s => snd s = Ret true /\
       sends (fst s) = ([] ++ [Approve demo_asset demo_vault (10 ^ 6); Deposit demo_vault (10 ^ 6) demo_account])%list)
    ([], deposit_asset demo_vault demo_account "1").
Proof.
  assert (Hw : to_wei "1" 6%N = Ok (10 ^ 6)) by (vm_compute; reflexivity). split; [exact Hw|].
  apply (deposit_asset_completes (demo_env demo_chain) [] demo_vault demo_account "1" demo_asset "TKN" 6%N
    (10 ^ 6) (10 ^ 9) demo_account tx_hash); try reflexivity; try (intros; reflexivity); try lia.
Defined.

Lemma deposit_ignores_approve_status_witness :
  to_wei "100" 6%N = Ok (10 ^ 8) /\
  snd (run (demo_env approve_fails) [] (deposit_asset demo_vault demo_account "100")) = Ok true /\
  sends (fst (run (demo_env approve_fails) [] (deposit_asset demo_vault demo_account "100"))) =
    [Approve demo_asset demo_vault (10 ^ 8); Deposit demo_vault (10 ^ 8) demo_account].
Proof.
  assert (Hw : to_wei "100" 6%N = Ok (10 ^ 8)) by (vm_compute; reflexivity). split; [exact Hw|].
  apply (deposit_ignores_approve_status (demo_env approve_fails) [] demo_vault demo_account "100" demo_asset "TKN" 6%N
    (10 ^ 8) (10 ^ 9) demo_account tx_hash); try reflexivity; try (intros; reflexivity); try lia.
Defined.

End Progress.
