(* ===== verification/Cli.v ===== *)
(** * The command line: [main] (lines 620-778)

    [main] parses the arguments, connects ([connect_web3], lines 34-40),
    resolves the acting account ([get_account]), runs [mint] and
    [transfer] without a vault, and otherwise loads the contracts
    ([load_contracts], lines 60-84) and dispatches to the handler of the
    subcommand, discarding its boolean.

    [args] is what [parser.parse_args()] returns, as [main] reads it; the
    parser itself is modelled in [Argparse], whose [of_namespace] builds
    an [args].  [main] converts [--min] and [--min-exit] with [int]
    ([PyParse.py_int]); argparse has already applied [type=bool] to
    [strategy --enabled] ([py_bool]: Python's [bool] of a string is
    [False] only for the empty string).  Reading the ABI files is assumed
    to succeed. *)

From Stdlib Require Import ZArith List String Lia.
From S2P Require Import Prelude PyFloat PyParse Interact Traces Address Submit Vault.
Import ListNotations.
Open Scope string_scope.
Open Scope Z_scope.

Module Cli.
Import PyParse Interact Traces Address Submit Vault.

(** The subcommands and their arguments, as argparse leaves them. *)
Inductive command : Type :=
| CmdInfo
| CmdPortfolio
| CmdDeposit (amount : string)
| CmdWithdraw (amount percentage : option string) (all : bool)
| CmdBuy (token amount min : string)
| CmdSell (token amount min : string)
| CmdPair (token max min_exit : string) (disable : bool)
| CmdRole (role address : string) (revoke : bool)
| CmdStrategy (enabled : bool)
| CmdPrice (token_a token_b price : string)
| CmdMint (token amount : string) (to : option string)
| CmdTransfer (token recipient amount : string).

Record args : Type := Args {
  args_rpc : string;
  args_vault : option string;
  args_account : option string;
  args_command : option command
}.

(** [bool(s)] of the string argparse passes to [type=bool]. *)
Definition py_bool (s : string) : bool := negb (String.eqb s "").

(** The truth value of an optional string argument ([None] or [""] is
    false). *)
Definition truthy (s : option string) : bool :=
  match s with Some v => py_bool v | None => false end.

Definition connect_web3 (rpc_url : string) : prog unit :=
  connected <- call_ EIsConnected ;;
  print Info (if connected then "Connection status: Connected" else "Connection status: Not Connected") [] ;;
  connected' <- call_ EIsConnected ;;
  if negb connected' then print Error "Error: Unable to connect to RPC" [] ;; Raise (SystemExit 1)
  else Ret tt.

Section Main.
Context `{Checksum} `{Submitter}.

(** The vault, asset and oracle addresses; any failure exits with 1. *)
Definition load_contracts (vault_address : string) : prog (addr * addr * addr) :=
  catch (
    vault <- lift (normalize_address vault_address) ;;
    asset_address <- call_ (EAsset vault) ;;
    asset <- lift (normalize_address asset_address) ;;
    oracle_address <- call_ (EPriceOracle vault) ;;
    oracle <- lift (normalize_address oracle_address) ;;
    Ret (vault, asset, oracle))
  (fun _ => print Error "Error: Failed to load contracts" [] ;; Raise (SystemExit 1)).

(** The subcommands that need the vault (lines 733-775). *)
Definition dispatch (vault oracle : addr) (account : addr) (cmd : command) : prog unit :=
  match cmd with
  | CmdInfo => _ <- get_info vault account ;; Ret tt
  | CmdPortfolio => _ <- get_portfolio vault ;; Ret tt
  | CmdDeposit amount => _ <- deposit_asset vault account amount ;; Ret tt
  | CmdWithdraw amount percentage all =>
      if all then _ <- withdraw_asset vault account None None true ;; Ret tt
      else if truthy percentage then _ <- withdraw_asset vault account None percentage false ;; Ret tt
      else if truthy amount then _ <- withdraw_asset vault account amount None false ;; Ret tt
      else Ret tt
  | CmdBuy token amount min =>
      token <- lift (normalize_address token) ;;
      min_out <- lift (py_int min) ;;
      _ <- execute_buy_signal vault account token amount min_out ;; Ret tt
  | CmdSell token amount min =>
      token <- lift (normalize_address token) ;;
      min_out <- lift (py_int min) ;;
      _ <- execute_sell_signal vault account token (Some amount) min_out ;; Ret tt
  | CmdPair token max min_exit disable =>
      token <- lift (normalize_address token) ;;
      min_exit <- lift (py_int min_exit) ;;
      _ <- manage_trading_pair vault account token max min_exit disable ;; Ret tt
  | CmdPrice token_a token_b price =>
      token_a <- lift (normalize_address token_a) ;;
      token_b <- lift (normalize_address token_b) ;;
      _ <- update_price oracle account token_a token_b price ;; Ret tt
  | CmdRole role_name address revoke =>
      target <- lift (normalize_address address) ;;
      _ <- manage_role vault account role_name target revoke ;; Ret tt
  | CmdStrategy enabled => _ <- update_strategy_settings vault account enabled ;; Ret tt
  | CmdMint _ _ _ | CmdTransfer _ _ _ => print Error "Error: Unknown command" []
  end.

Definition main (a : args) : prog unit :=
  match args_command a with
  | None => print Info "usage: vault_cli.py" []
  | Some cmd =>
      connect_web3 (args_rpc a) ;;
      print Info "Connected to network" [] ;;
      account <- get_account (args_account a) ;;
      match cmd with
      | CmdMint token amount to =>
          token <- lift (normalize_address token) ;;
          recipient <- (match to with
                        | None => Ret None
                        | Some r => r' <- lift (normalize_address r) ;; Ret (Some r')
                        end) ;;
          _ <- mint_tokens account token amount recipient ;; Ret tt
      | CmdTransfer token recipient amount =>
          token <- lift (normalize_address token) ;;
          recipient <- lift (normalize_address recipient) ;;
          _ <- transfer_tokens account token recipient amount ;; Ret tt
      | _ =>
          if negb (truthy (args_vault a)) then
            print Error "Error: Vault address not specified" []
          else
            '(vault, asset, oracle) <- load_contracts (match args_vault a with Some v => v | None => "" end) ;;
            dispatch vault oracle account cmd
      end
  end.

End Main.

(** ** The signing path of [send_transaction] is dead *)

Section NeverSigns.
Context `{Checksum}.

Lemma connect_web3_unsigned rpc : unsigned (connect_web3 rpc).
Proof. unfold connect_web3. avoids_auto. Qed.

Lemma load_contracts_unsigned v : unsigned (load_contracts v).
Proof. unfold load_contracts. avoids_auto. Qed.

Lemma dispatch_unsigned `{Submitter} vault oracle account cmd :
  (forall c, unsigned (submit account c)) -> unsigned (dispatch vault oracle account cmd).
Proof. intros Hs. destruct cmd; cbn [dispatch]; avoids_auto. Qed.

#[local] Hint Resolve connect_web3_unsigned load_contracts_unsigned dispatch_unsigned : vault.

(** C1: With the program's own [send_transaction], no run of [main] signs a
    transaction locally, whatever the arguments (a private key given as
    [--account] included) and whatever the node answers: [get_account]
    has already replaced a key by its address, so [send_transaction]
    always takes its [transact] branch. *)
Theorem main_never_signs (a : args) :
  never_signs (@main _ send_transaction_submitter a).
Proof.
  unfold main. destruct (args_command a) as [cmd|]; [|apply unsigned_never_signs; avoids_auto].
  apply (never_signs_bind_post (fun _ => True)); [apply unsigned_never_signs; avoids_auto | auto |].
  intros _ _. apply (never_signs_bind_post (fun _ => True)); [apply unsigned_never_signs; avoids_auto | auto |].
  intros _ _. apply (never_signs_bind_post (fun acc => is_address_like acc = true));
    [apply unsigned_never_signs, get_account_unsigned | intros E h acc; apply get_account_address_like |].
  intros acc Hacc. apply unsigned_never_signs.
  assert (Hs : forall c, unsigned (send_transaction acc c)) by (intros c; apply send_transaction_unsigned, Hacc).
  destruct cmd; avoids_auto.
Qed.

End NeverSigns.

(** ** Transactions are sequential *)

Section Receipts.
Context `{Checksum}.

Lemma dispatch_awaits `{Submitter} vault oracle account cmd :
  (forall c, awaits (submit account c)) -> awaits (dispatch vault oracle account cmd).
Proof. intros Hs. destruct cmd; cbn [dispatch]; awaits_auto. Qed.

Lemma get_account_awaits k : awaits (get_account k).
Proof. unfold get_account. awaits_auto. Qed.

#[local] Hint Resolve dispatch_awaits get_account_awaits : vault.

(** C4: In every run of [main], whatever the arguments and whatever the
    node answers, a transaction the node accepts is followed at once by
    the wait for its receipt: the CLI never has two transactions in
    flight (the deposit is sent only after the approval is mined). *)
Theorem main_awaits_receipts (E : env) h (a : args) :
  awaited (fst (run E h (@main _ send_transaction_submitter a))) = true.
Proof.
  assert (Hs : forall a c, awaits (@submit send_transaction_submitter a c)) by exact send_transaction_awaits.
  apply awaits_run. unfold main, connect_web3, load_contracts. awaits_auto.
Qed.

End Receipts.

(** ** Connection and vault checks *)

Section Checks.
Context `{Checksum} `{Submitter}.

(** C19: When the node reports it is not connected, [main] exits with
    status 1 before any other call: nothing is sent. *)
Theorem main_not_connected_exits (E : env) h (a : args) cmd :
  args_command a = Some cmd -> (forall h, E h EIsConnected = Some false) ->
  snd (run E h (main a)) = Err (SystemExit 1) /\ sends (fst (run E h (main a))) = [].
Proof.
  intros Hc HE. unfold main. rewrite Hc. unfold connect_web3, call_, print.
  cbn [bind run]. run_steps. split; reflexivity.
Qed.

(** C20: A subcommand that needs the vault, run without [--vault], prints
    the error and sends nothing. *)
Theorem main_without_vault_sends_nothing (E : env) h (a : args) cmd :
  args_command a = Some cmd ->
  (forall t am to, cmd <> CmdMint t am to) -> (forall t r am, cmd <> CmdTransfer t r am) ->
  truthy (args_vault a) = false ->
  sends (fst (run E h (main a))) = [].
Proof.
  intros Hc Hm Ht Hv. apply read_only_sends. unfold main. rewrite Hc.
  apply avoids_bind; [unfold connect_web3; avoids_auto | intros _].
  apply avoids_bind; [avoids_auto | intros _].
  apply avoids_bind; [apply get_account_read_only | intros account].
  destruct cmd; try (exfalso; eapply Hm; reflexivity); try (exfalso; eapply Ht; reflexivity);
    rewrite Hv; cbn [negb]; avoids_auto.
Qed.

End Checks.

(** ** [--enabled] *)

Section Strategy.
Context `{Checksum} `{Submitter}.

Lemma update_strategy_settings_sends (E : env) h vault account enabled :
  sends (fst (run E h (update_strategy_settings vault account enabled))) = [] \/
  sends (fst (run E h (update_strategy_settings vault account enabled))) =
    [SetStrategyEnabled vault enabled].
Proof.
  unfold update_strategy_settings, guarded, require_role, on_receipt, call_, print.
  cbn [bind catch run]. run_steps; repeat (submit_step; run_steps); finish_sends.
Qed.

End Strategy.

(** ** Concrete runs of [main] *)

Definition demo_args (account : string) (cmd : command) : args :=
  Args "http://127.0.0.1:8545" (Some demo_vault) (Some account) (Some cmd).

(** A private key of the shape [--account] accepts: 64 hex digits. *)
Definition demo_key : string := "ac0974bec39a17e36ba4a6b4d238ff944bacb478cbed5efcae784d7bf4f2ff80".

(** [vault_cli.py --account <key> deposit 1] on a node that knows the
    key's address: both transactions go through the node's [transact]
    from that address; nothing is signed with the key. *)
Example private_key_deposit_unsigned :
  sends (fst (run (demo_env demo_chain) [] (main (demo_args demo_key (CmdDeposit "1"))))) =
    [Approve demo_asset demo_vault (10 ^ 6); Deposit demo_vault (10 ^ 6) demo_account] /\
  existsb is_signed (fst (run (demo_env demo_chain) [] (main (demo_args demo_key (CmdDeposit "1"))))) = false.
Proof. vm_compute. auto. Qed.

(** [vault_cli.py buy <token> 30% --min 0.5] ends with an uncaught
    ValueError: [int(args.min)] is evaluated in [main], outside the
    handler's [try], after connecting and loading the contracts. *)
Example buy_min_not_integer_raises :
  snd (run (demo_env demo_chain) [] (main (demo_args demo_account (CmdBuy demo_token "30%" "0.5")))) =
    Err ValueError /\
  sends (fst (run (demo_env demo_chain) [] (main (demo_args demo_account (CmdBuy demo_token "30%" "0.5"))))) = [].
Proof. vm_compute. auto. Qed.

Lemma main_not_connected_exits_witness :
  let E : env := fun h e => match e return option (answer e) with
                            | EIsConnected => Some false | e' => demo_env demo_chain h e' end in
  snd (run E [] (main (demo_args demo_account CmdInfo))) = Err (SystemExit 1) /\
  sends (fst (run E [] (main (demo_args demo_account CmdInfo)))) = [].
Proof.
  intros E. apply (main_not_connected_exits E [] (demo_args demo_account CmdInfo) CmdInfo eq_refl).
  intros h. reflexivity.
Defined.

Lemma main_without_vault_sends_nothing_witness :
  sends (fst (run (demo_env demo_chain) []
    (main (Args "http://127.0.0.1:8545" None (Some demo_account) (Some (CmdDeposit "1")))))) = [].
Proof.
  apply (main_without_vault_sends_nothing (demo_env demo_chain) []
    (Args "http://127.0.0.1:8545" None (Some demo_account) (Some (CmdDeposit "1"))) (CmdDeposit "1") eq_refl);
    [intros; discriminate | intros; discriminate | reflexivity].
Defined.

End Cli.
