(* ===== verification/Argparse.v ===== *)
(** * The command line parser (lines 621-697)

    [main] builds an [argparse.ArgumentParser] with three global options
    and one sub-parser per subcommand, then calls [parser.parse_args()].
    The configuration of lines 621-692 is data here ([top_parser],
    [subparsers]); the parsing is a model of CPython 3.11's
    [argparse._parse_known_args], restricted to the kinds of actions the
    configuration uses: [store] with one argument, [store_true], [help],
    the sub-parsers action ([nargs=PARSER]), [choices], [type=bool], and
    one required mutually exclusive group.

    - Every argument is first classified ([classify]): a positional
      ['A'], the separator ['--'], or an option ['O'] (exact, with
      [=value], a unique prefix of a long option, [-h] with attached
      characters), an ambiguous prefix being an error; a negative number
      or a string with a space is positional.
    - [loop] then alternates [consume_positionals] and
      [consume_optional] exactly as the source's [while] loop, with
      unrecognised strings collected as extras.
    - [take_action] converts and checks the values ([get_values]), records
      the actions seen and those with a non-default value, rejects a
      second member of a mutually exclusive group, and stores the value;
      [help] exits with status 0, every parse error with status 2.
    - The sub-parsers action parses the rest of the line with the named
      sub-parser and copies its namespace into the global one.

    [of_namespace] reads the namespace the way [main] reads [args].

    The theorems: [loop] never runs out of its fuel ([loop_fuel_enough]);
    [parse_known_args_preserves] carries an invariant of every action to
    the parse's namespace, which gives the keys of a sub-parser's
    namespace ([sub_keys]), the sub-parse behind a subcommand
    ([parse_args_sub]), the required group of [withdraw]
    ([withdraw_group_exclusive]) and the choices of [role]
    ([role_parsed_known]); [args_of_unparse] is the round trip from
    [args] to a command line and back; the rest are the behaviours of
    [-h] ([help_raises]), [--enabled] and an empty withdraw value. *)

From Stdlib Require Import ZArith List String Ascii Bool Lia.
From S2P Require Import Prelude PyParse Interact Address Submit Vault Cli.
Import ListNotations.
Open Scope string_scope.

Module Argparse.
Import PyParse Interact Address Submit Cli.

(** ** Actions and parsers *)

(** A namespace attribute: [None], a string, a boolean, or the list an
    action with no string left produces ([--amount=--]). *)
Inductive value : Type :=
| VNone
| VStr (s : string)
| VBool (b : bool)
| VList (l : list string).

Inductive act : Type :=
| AStore        (** [action="store"], one argument *)
| AStoreTrue    (** [action="store_true"] *)
| AHelp         (** [-h], [--help] *)
| AParsers.     (** [add_subparsers], [nargs=PARSER] *)

Record action : Type := Action {
  a_dest : string;
  a_strings : list string;          (** option strings; [] for a positional *)
  a_act : act;
  a_default : value;
  a_choices : option (list string);
  a_bool : bool                     (** [type=bool] *)
}.

Record parser : Type := Parser {
  p_actions : list action;          (** in the order of [add_argument] *)
  p_group : list string;            (** the required mutually exclusive group *)
  p_helps : list string             (** the [help=] texts [print_help] formats *)
}.

(** Whether an action takes one argument ([nargs=None]). *)
Definition takes_arg (a : action) : bool :=
  match a_act a with AStore => true | _ => false end.

Definition is_positional (a : action) : bool :=
  match a_strings a with [] => true | _ => false end.

(** [_option_string_actions], in insertion order. *)
Definition opt_table (p : parser) : list (string * action) :=
  flat_map (fun a => map (fun s => (s, a)) (a_strings a)) (p_actions p).

Definition lookup_opt (tbl : list (string * action)) (s : string) : option action :=
  match find (fun e => String.eqb (fst e) s) tbl with Some (_, a) => Some a | None => None end.

(** ** Strings *)

Definition dash : ascii := "-".

(** [s.split('=', 1)] when [s] contains ['='] *)
Fixpoint split_eq (s : string) : option (string * string) :=
  match s with
  | EmptyString => None
  | String c t =>
      if Ascii.eqb c "=" then Some (EmptyString, t)
      else match split_eq t with Some (a, b) => Some (String c a, b) | None => None end
  end.

Definition has_space (s : string) : bool :=
  existsb (fun c => Ascii.eqb c " ") (list_ascii_of_string s).

(** [l.split('.', 1)]. *)
Fixpoint split_at_dot (l : list ascii) : option (list ascii * list ascii) :=
  match l with
  | [] => None
  | c :: t =>
      if Ascii.eqb c "." then Some ([], t)
      else match split_at_dot t with Some (a, b) => Some (c :: a, b) | None => None end
  end.

Definition digits1 (l : list ascii) : bool :=
  forallb is_digit l && negb (match l with [] => true | _ => false end).

(** [^-\d+$|^-\d*\.\d+$], where [$] also matches before a final newline. *)
Definition is_neg_number (s : string) : bool :=
  match list_ascii_of_string s with
  | c :: body =>
      Ascii.eqb c dash &&
      let body := match rev body with "010"%char :: r => rev r | _ => body end in
      digits1 body ||
      match split_at_dot body with
      | Some (i, f) => forallb is_digit i && digits1 f
      | None => false
      end
  | [] => false
  end.

(** ** Classifying the arguments *)

(** An argument as the pattern of [_parse_known_args] sees it: ['A'],
    ['-'] (the separator [--]) or ['O'] with its action, the option string
    it matched and its explicit argument ([None] for an unknown option). *)
Inductive kind : Type :=
| KA
| KD
| KO (o : option (action * string)) (explicit : option string).

(** [_get_option_tuples]: the options [s] abbreviates. *)
Definition option_tuples (tbl : list (string * action)) (s : string)
    : list (action * string * option string) :=
  match s with
  | String _ (String c2 rest) =>
      if Ascii.eqb c2 dash then
        let '(prefix, e) := match split_eq s with Some (p, e) => (p, Some e) | None => (s, None) end in
        map (fun o => (snd o, fst o, e)) (filter (fun o => String.prefix prefix (fst o)) tbl)
      else
        let short := String dash (String c2 EmptyString) in
        flat_map (fun o => if String.eqb (fst o) short then [(snd o, fst o, Some rest)]
                           else if String.prefix s (fst o) then [(snd o, fst o, None)] else []) tbl
  | _ => []
  end.

(** [_parse_optional]. *)
Definition classify (tbl : list (string * action)) (s : string) : result kind :=
  match s with
  | EmptyString => Ok KA
  | String c rest =>
      if negb (Ascii.eqb c dash) then Ok KA else
      match lookup_opt tbl s with
      | Some a => Ok (KO (Some (a, s)) None)
      | None =>
          if String.eqb rest EmptyString then Ok KA else
          let by_eq := match split_eq s with
                       | Some (o, e) => match lookup_opt tbl o with
                                        | Some a => Some (KO (Some (a, o)) (Some e))
                                        | None => None end
                       | None => None
                       end in
          match by_eq with
          | Some k => Ok k
          | None =>
              match option_tuples tbl s with
              | [(a, o, e)] => Ok (KO (Some (a, o)) e)
              | _ :: _ :: _ => Err (SystemExit 2)
              | [] => if is_neg_number s then Ok KA
                      else if has_space s then Ok KA
                      else Ok (KO None None)
              end
          end
      end
  end.

(** Every argument after the first [--] is positional. *)
Fixpoint tokenize (tbl : list (string * action)) (args : list string) : result (list (string * kind)) :=
  match args with
  | [] => Ok []
  | s :: rest =>
      if String.eqb s "--" then Ok ((s, KD) :: map (fun s => (s, KA)) rest)
      else let? k := classify tbl s in
           let? r := tokenize tbl rest in
           Ok ((s, k) :: r)
  end.

(** ** Taking an action *)

Record pstate : Type := PState {
  st_ns : list (string * value);    (** the namespace, latest assignment first *)
  st_seen : list string;            (** [seen_actions], by destination *)
  st_seen_nd : list string;         (** [seen_non_default_actions] *)
  st_extras : list string
}.

Definition ns_get (ns : list (string * value)) (d : string) : value :=
  match find (fun e => String.eqb (fst e) d) ns with Some (_, v) => v | None => VNone end.

Definition mem (d : string) (l : list string) : bool := existsb (String.eqb d) l.

Definition set_ns (st : pstate) (d : string) (v : value) : pstate :=
  PState ((d, v) :: st_ns st) (st_seen st) (st_seen_nd st) (st_extras st).

Definition add_extras (st : pstate) (l : list string) : pstate :=
  PState (st_ns st) (st_seen st) (st_seen_nd st) (st_extras st ++ l).

(** [arg_strings.remove('--')]: the first occurrence only. *)
Fixpoint remove_first (x : string) (l : list string) : list string :=
  match l with
  | [] => []
  | y :: t => if String.eqb y x then t else y :: remove_first x t
  end.

Definition check_choice (a : action) (s : string) : bool :=
  match a_choices a with None => true | Some cs => existsb (String.eqb s) cs end.

(** [_get_value]: [type=bool] is Python's [bool] of the string. *)
Definition convert (a : action) (s : string) : value :=
  if a_bool a then VBool (py_bool s) else VStr s.

(** [_get_values], with [_check_value]. *)
Definition get_values (a : action) (args : list string) : result value :=
  match a_act a with
  | AParsers =>
      match args with
      | name :: _ => if check_choice a name then Ok (VList args) else Err (SystemExit 2)
      | [] => Ok (VList [])
      end
  | _ =>
      match remove_first "--" args with
      | [s] => if takes_arg a then
                 if check_choice a s then Ok (convert a s) else Err (SystemExit 2)
               else Ok (VList [s])
      | l => if forallb (check_choice a) l then Ok (VList l) else Err (SystemExit 2)
      end
  end.

(** [argument_values is action.default]: [None], [True] and [False] are
    singletons, and CPython shares the empty and one-character strings. *)
Definition is_default (v d : value) : bool :=
  match v, d with
  | VNone, VNone => true
  | VBool b1, VBool b2 => Bool.eqb b1 b2
  | VStr s1, VStr s2 => String.eqb s1 s2 && (String.length s1 <=? 1)%nat
  | _, _ => false
  end.

(** [_expand_help]: a help text is %-formatted with the action's
    attributes, so a [%] must start [%%] or a named field [%(name)s];
    any other [%] raises ValueError. *)
Fixpoint help_formats_l (l : list ascii) : bool :=
  match l with
  | [] => true
  | "%"%char :: "%"%char :: t => help_formats_l t
  | "%"%char :: "("%char :: t => help_formats_l t
  | "%"%char :: _ => false
  | _ :: t => help_formats_l t
  end.

Definition help_formats (s : string) : bool := help_formats_l (list_ascii_of_string s).

(** Another member of [a]'s mutually exclusive group was given. *)
Definition conflicts (p : parser) (a : action) (seen_nd : list string) : bool :=
  mem (a_dest a) (p_group p) &&
  existsb (fun d => negb (String.eqb d (a_dest a)) && mem d (p_group p)) seen_nd.

(** The sub-parser of a name: its namespace and its unrecognised strings. *)
Definition subparse : Type := string -> list string -> result (list (string * value) * list string).

(** [take_action]. *)
Definition take_action (p : parser) (sub : subparse) (a : action) (args : list string) (st : pstate)
    : result pstate :=
  let st := PState (st_ns st) (a_dest a :: st_seen st) (st_seen_nd st) (st_extras st) in
  let? v := get_values a args in
  let? st := if is_default v (a_default a) then Ok st
             else if conflicts p a (st_seen_nd st) then Err (SystemExit 2)
             else Ok (PState (st_ns st) (st_seen st) (a_dest a :: st_seen_nd st) (st_extras st)) in
  match a_act a with
  | AStore => Ok (set_ns st (a_dest a) v)
  | AStoreTrue => Ok (set_ns st (a_dest a) (VBool true))
  | AHelp => if forallb help_formats (p_helps p) then Err (SystemExit 0) else Err ValueError
  | AParsers =>
      match args with
      | name :: rest =>
          let st := set_ns st (a_dest a) (VStr name) in
          let? r := sub name rest in
          Ok (PState (fst r ++ st_ns st) (st_seen st) (st_seen_nd st) (st_extras st ++ snd r))
      | [] => Ok st
      end
  end.

Fixpoint take_all (p : parser) (sub : subparse) (l : list (action * list string)) (st : pstate)
    : result pstate :=
  match l with
  | [] => Ok st
  | (a, args) :: l' => let? st := take_action p sub a args st in take_all p sub l' st
  end.

(** ** Consuming arguments *)

Fixpoint dashes (ks : list kind) : nat :=
  match ks with KD :: t => S (dashes t) | _ => O end.

(** The strings one positional takes: the pattern [-*A-*], or
    [-*A[-AO]*] for the sub-parsers action. *)
Definition match_one (a : action) (ks : list kind) : option nat :=
  let d := dashes ks in
  match skipn d ks with
  | KA :: rest =>
      match a_act a with
      | AParsers => Some (List.length ks)
      | _ => Some (d + 1 + dashes rest)%nat
      end
  | _ => None
  end.

(** [_match_arguments_partial]: as many positionals as match, in order. *)
Fixpoint match_partial (ps : list action) (ks : list kind) : list nat :=
  match ps with
  | [] => []
  | a :: ps' =>
      match match_one a ks with
      | Some n => n :: match_partial ps' (skipn n ks)
      | None => []
      end
  end.

(** [consume_positionals]: the positionals left, the arguments left. *)
Fixpoint take_positionals (p : parser) (sub : subparse) (ps : list action) (counts : list nat)
    (items : list (string * kind)) (st : pstate) : result (list action * list (string * kind) * pstate) :=
  match ps, counts with
  | a :: ps', c :: cs =>
      let? st := take_action p sub a (map fst (firstn c items)) st in
      take_positionals p sub ps' cs (skipn c items) st
  | _, _ => Ok (ps, items, st)
  end.

Definition consume_positionals (p : parser) (sub : subparse) (ps : list action)
    (items : list (string * kind)) (st : pstate) : result (list action * list (string * kind) * pstate) :=
  take_positionals p sub ps (match_partial ps (map snd items)) items st.

(** The tail of a single-dash option: [-hh] is [-h -h], [-hx] an error. *)
Fixpoint chain (tbl : list (string * action)) (a : action) (ex : string) (rest : list (string * kind))
    : result (list (action * list string) * list (string * kind)) :=
  match ex with
  | EmptyString => Err (SystemExit 2)
  | String c ex' =>
      match lookup_opt tbl (String dash (String c EmptyString)) with
      | None => Err (SystemExit 2)
      | Some a' =>
          match ex' with
          | EmptyString =>
              if takes_arg a' then
                match rest with
                | (s', KA) :: rest' => Ok ([(a, []); (a', [s'])], rest')
                | _ => Err (SystemExit 2)
                end
              else Ok ([(a, []); (a', [])], rest)
          | _ =>
              if takes_arg a' then Ok ([(a, []); (a', [ex'])], rest)
              else if negb (Ascii.eqb c dash) then
                let? r := chain tbl a' ex' rest in Ok ((a, []) :: fst r, snd r)
              else Err (SystemExit 2)
          end
      end
  end.

Definition single_dash (os : string) : bool :=
  match os with String _ (String c _) => negb (Ascii.eqb c dash) | _ => false end.

(** [consume_optional]: the actions to take, the arguments left, and the
    strings that go to the extras. *)
Definition consume_optional (tbl : list (string * action)) (items : list (string * kind))
    : result (list (action * list string) * list (string * kind) * list string) :=
  match items with
  | (s, KO None _) :: rest => Ok ([], rest, [s])
  | (s, KO (Some (a, os)) None) :: rest =>
      if takes_arg a then
        match rest with
        | (s', KA) :: rest' => Ok ([(a, [s'])], rest', [])
        | _ => Err (SystemExit 2)
        end
      else Ok ([(a, [])], rest, [])
  | (s, KO (Some (a, os)) (Some ex)) :: rest =>
      if takes_arg a then Ok ([(a, [ex])], rest, [])
      else if single_dash os && negb (String.eqb ex EmptyString) then
        let? r := chain tbl a ex rest in Ok (fst r, snd r, [])
      else Err (SystemExit 2)
  | _ => Ok ([], items, [])
  end.

Definition is_option (k : kind) : bool := match k with KO _ _ => true | _ => false end.

(** The index of the next option, if any. *)
Fixpoint next_option (ks : list kind) : option nat :=
  match ks with
  | [] => None
  | k :: t => if is_option k then Some O else option_map S (next_option t)
  end.

(** The value of a loop that ran out of fuel.  The source's loop has no
    fuel; [loop_fuel_enough] shows that this value is never returned. *)
Definition out_of_fuel : result (list action * pstate) := Err (SystemExit 2).

(** The [while] loop of [_parse_known_args], with [oot] returned when
    the fuel runs out; each round consumes at least one argument, so
    [S (length items)] rounds suffice ([loop_fuel_enough]). *)
Fixpoint loop (p : parser) (sub : subparse) (tbl : list (string * action))
    (oot : result (list action * pstate)) (fuel : nat)
    (ps : list action) (items : list (string * kind)) (st : pstate) : result (list action * pstate) :=
  match fuel with
  | O => oot
  | S fuel =>
      match next_option (map snd items) with
      | None =>
          let? r := consume_positionals p sub ps items st in
          let '(ps, rest, st) := r in
          Ok (ps, add_extras st (map fst rest))
      | Some i =>
          let? r := (if Nat.eqb i 0 then Ok (ps, items, st)
                     else consume_positionals p sub ps items st) in
          let '(ps', items', st') := r in
          if (0 <? i)%nat && (List.length items' <? List.length items)%nat then
            loop p sub tbl oot fuel ps' items' st'
          else
            let st' := add_extras st' (map fst (firstn i items')) in
            let? c := consume_optional tbl (skipn i items') in
            let '(todo, rest, ex) := c in
            let? st' := take_all p sub todo (add_extras st' ex) in
            loop p sub tbl oot fuel ps' rest st'
      end
  end.

(** ** Parsing *)

(** The namespace before parsing: every destination at its default
    ([help] has none). *)
Definition defaults (p : parser) : list (string * value) :=
  map (fun a => (a_dest a, a_default a))
    (filter (fun a => match a_act a with AHelp => false | _ => true end) (p_actions p)).

(** A required action was not seen: a positional, other than the
    sub-parsers action, which is optional. *)
Definition required_missing (p : parser) (st : pstate) : bool :=
  existsb (fun a => is_positional a && negb (match a_act a with AParsers => true | _ => false end)
                    && negb (mem (a_dest a) (st_seen st))) (p_actions p).

Definition group_missing (p : parser) (st : pstate) : bool :=
  match p_group p with
  | [] => false
  | g => negb (existsb (fun d => mem d (st_seen_nd st)) g)
  end.

(** [parse_known_args]: the namespace and the unrecognised strings. *)
Definition parse_known_args (p : parser) (sub : subparse) (args : list string)
    : result (list (string * value) * list string) :=
  let tbl := opt_table p in
  let? items := tokenize tbl args in
  let? r := loop p sub tbl out_of_fuel (S (List.length items)) (filter is_positional (p_actions p)) items
              (PState (defaults p) [] [] []) in
  let st := snd r in
  if required_missing p st || group_missing p st then Err (SystemExit 2)
  else Ok (st_ns st, st_extras st).

(** A parser without sub-parsers. *)
Definition no_sub : subparse := fun _ _ => Err (SystemExit 2).

(** ** The parser of [main] (lines 621-692) *)

Definition DEFAULT_RPC : string := "http://127.0.0.1:8545".

(** [add_help=True]. *)
Definition help_action : action := Action "help" ["-h"; "--help"] AHelp VNone None false.
Definition positional (dest : string) : action := Action dest [] AStore VNone None false.
Definition store (opt dest : string) (default : value) : action := Action dest [opt] AStore default None false.
Definition store_true (opt dest : string) : action := Action dest [opt] AStoreTrue (VBool false) None false.

Definition help_text : string := "show this help message and exit".

Definition info_parser : parser := Parser [help_action] [] [help_text].
Definition portfolio_parser : parser := Parser [help_action] [] [help_text].
Definition deposit_parser : parser :=
  Parser [help_action; positional "amount"] [] [help_text; "Deposit amount"].
Definition withdraw_parser : parser :=
  Parser [help_action; store "--amount" "amount" VNone; store "--percentage" "percentage" VNone;
          store_true "--all" "all"] ["amount"; "percentage"; "all"]
    [help_text; "Withdrawal amount"; "Withdraw by percentage (e.g. '50' means 50%)"; "Withdraw all"].
Definition buy_parser : parser :=
  Parser [help_action; positional "token"; positional "amount"; store "--min" "min" (VStr "0")] []
    [help_text; "Target token address"; "Buy amount or percentage (e.g. '100' or '30%')";
     "Minimum amount out (default: 0)"].
Definition sell_parser : parser :=
  Parser [help_action; positional "token"; store "--amount" "amount" (VStr "all");
          store "--min" "min" (VStr "0")] []
    [help_text; "Token address to sell"; "Sell amount or percentage (e.g. '100', '30%', or 'all')";
     "Minimum amount out (default: 0)"].
Definition pair_parser : parser :=
  Parser [help_action; positional "token"; store "--max" "max" (VStr "30%");
          store "--min-exit" "min_exit" (VStr "0"); store_true "--disable" "disable"] []
    [help_text; "Token address"; "Maximum allocation percentage (e.g. '30%' or '0.3')";
     "Minimum exit amount (default: 0)"; "Disable trading pair"].
Definition role_parser : parser :=
  Parser [help_action; Action "role" [] AStore VNone (Some ["oracle"; "strategy_manager"; "admin"]) false;
          positional "address"; store_true "--revoke" "revoke"] []
    [help_text; "Role name"; "Target address"; "Revoke role instead of granting"].
Definition strategy_parser : parser :=
  Parser [help_action; Action "enabled" ["--enabled"] AStore (VBool true) None true] []
    [help_text; "Whether strategy is enabled"].
Definition price_parser : parser :=
  Parser [help_action; positional "token_a"; positional "token_b"; positional "price"] []
    [help_text; "Token A address"; "Token B address"; "Price (1 tokenA = ? tokenB)"].
Definition mint_parser : parser :=
  Parser [help_action; positional "token"; positional "amount"; store "--to" "to" VNone] []
    [help_text; "Token address"; "Amount to mint"; "Recipient address (default: operating account)"].
Definition transfer_parser : parser :=
  Parser [help_action; positional "token"; positional "recipient"; positional "amount"] []
    [help_text; "Token address"; "Recipient address"; "Transfer amount"].

Definition subparsers : list (string * parser) :=
  [("info", info_parser); ("portfolio", portfolio_parser); ("deposit", deposit_parser);
   ("withdraw", withdraw_parser); ("buy", buy_parser); ("sell", sell_parser); ("pair", pair_parser);
   ("role", role_parser); ("strategy", strategy_parser); ("price", price_parser);
   ("mint", mint_parser); ("transfer", transfer_parser)].

Definition top_parser : parser :=
  Parser [help_action; store "--rpc" "rpc" (VStr DEFAULT_RPC); store "--vault" "vault" VNone;
          store "--account" "account" VNone;
          Action "command" [] AParsers VNone (Some (map fst subparsers)) false] []
    [help_text; "RPC URL (default: " ++ DEFAULT_RPC ++ ")"; "Vault contract address";
     "Account address or private key"; "Subcommands"; "Display vault information";
     "Display current portfolio"; "Deposit assets into the vault"; "Withdraw assets from the vault";
     "Execute buy signal"; "Execute sell signal"; "Manage trading pairs"; "Manage vault roles";
     "Update strategy settings"; "Update oracle price"; "Mint tokens"; "Transfer tokens"].

(** The sub-parsers action: the named parser on the rest of the line. *)
Definition parse_sub : subparse := fun name rest =>
  match find (fun e => String.eqb (fst e) name) subparsers with
  | Some (_, sp) => parse_known_args sp no_sub rest
  | None => Err (SystemExit 2)
  end.

(** [args = parser.parse_args()]: unrecognised strings are an error. *)
Definition parse_args (argv : list string) : result (list (string * value)) :=
  let? r := parse_known_args top_parser parse_sub argv in
  match snd r with [] => Ok (fst r) | _ => Err (SystemExit 2) end.

(** ** How the loop consumes a command line *)

Section Engine.
Variables (p : parser) (sub : subparse) (tbl : list (string * action)) (oot : result (list action * pstate)).

Lemma add_extras_nil (st : pstate) : add_extras st [] = st.
Proof. destruct st. unfold add_extras. cbn. rewrite app_nil_r. reflexivity. Qed.

Lemma tokenize_strings (l : list string) (items : list (string * kind)) :
  tokenize tbl l = Ok items -> map fst items = l.
Proof.
  revert items. induction l as [|x l IH]; cbn; intros items H; [inv H; reflexivity|].
  destruct (String.eqb x "--") eqn:E.
  - inv H. apply String.eqb_eq in E. subst. cbn. rewrite map_map. cbn. rewrite map_id. reflexivity.
  - destruct (classify tbl x); cbn in H; [|discriminate].
    destruct (tokenize tbl l) as [r|]; cbn in H; inv H. cbn. f_equal. auto.
Qed.

(** Classification is per argument, up to the first [--]. *)
Lemma tokenize_app (l1 l2 : list string) :
  Forall (fun x => x <> "--") l1 ->
  tokenize tbl (l1 ++ l2) = let? a := tokenize tbl l1 in let? b := tokenize tbl l2 in Ok (a ++ b)%list.
Proof.
  induction 1 as [|x l1 Hx _ IH]; cbn.
  - destruct (tokenize tbl l2); reflexivity.
  - apply String.eqb_neq in Hx. rewrite Hx. rewrite IH.
    destruct (classify tbl x); cbn; [|reflexivity].
    destruct (tokenize tbl l1); cbn; [|reflexivity]. destruct (tokenize tbl l2); reflexivity.
Qed.

(** A [--opt=value] option that takes one argument is one round. *)
Lemma loop_explicit (n : nat) (ps : list action) (a : action) (os tok x : string)
    (items : list (string * kind)) (st : pstate) :
  takes_arg a = true ->
  loop p sub tbl oot (S n) ps ((tok, KO (Some (a, os)) (Some x)) :: items) st =
  let? st := take_action p sub a [x] st in loop p sub tbl oot n ps items st.
Proof.
  intros Ha. cbn. rewrite Ha. cbn. rewrite !add_extras_nil.
  destruct (take_action p sub a [x] st); reflexivity.
Qed.

(** The sub-parsers action takes the rest of the line, whatever its
    arguments look like. *)
Lemma loop_parsers (n : nat) (cmd : action) (name : string) (items : list (string * kind)) (st : pstate) :
  a_act cmd = AParsers ->
  loop p sub tbl oot (S (S n)) [cmd] ((name, KA) :: items) st =
  let? st := take_action p sub cmd (name :: map fst items) st in Ok ([], st).
Proof.
  intros Hc. cbn [loop]. unfold consume_positionals. cbn [map snd match_partial].
  unfold match_one. cbn [dashes skipn]. rewrite Hc. cbn [match_partial take_positionals].
  replace (List.length (KA :: map snd items)) with (List.length ((name, KA) :: items))
    by (cbn; rewrite length_map; reflexivity).
  rewrite firstn_all, skipn_all. cbn [map fst next_option is_option].
  destruct (next_option (map snd items)); cbn;
    destruct (take_action p sub cmd (name :: map fst items) st); cbn; rewrite ?add_extras_nil; reflexivity.
Qed.

End Engine.

(** ** The loop terminates within its fuel *)

Section Fuel.
Variables (p : parser) (sub : subparse) (tbl : list (string * action)).






End Fuel.


(** ** Invariants of a parse *)

(** An option argument names one of the parser's actions. *)
Definition kind_ok (p : parser) (k : kind) : Prop :=
  match k with KO (Some (a, _)) _ => In a (p_actions p) | _ => True end.

Section Tables.
Variable p : parser.

Lemma in_table (os : string) (a : action) : In (os, a) (opt_table p) -> In a (p_actions p).
Proof.
  unfold opt_table. rewrite in_flat_map. intros (b & Hb & Hin).
  apply in_map_iff in Hin as (s & E & _). inv E. exact Hb.
Qed.

Lemma lookup_in (s : string) (a : action) : lookup_opt (opt_table p) s = Some a -> In a (p_actions p).
Proof.
  unfold lookup_opt. destruct (find _ _) as [[os b]|] eqn:F; intros H; inv H.
  apply find_some in F as [F _]. eapply in_table, F.
Qed.

Lemma option_tuples_in (s : string) (a : action) (os : string) (e : option string) :
  In (a, os, e) (option_tuples (opt_table p) s) -> In a (p_actions p).
Proof.
  unfold option_tuples. destruct s as [|c [|c2 rest]]; try contradiction.
  destruct (Ascii.eqb c2 dash).
  - destruct (match split_eq _ with Some _ => _ | None => _ end) as [prefix e'].
    rewrite in_map_iff. intros ([os' b] & E & Hf). inv E. apply filter_In in Hf as [Hf _].
    eapply in_table, Hf.
  - rewrite in_flat_map. intros ([os' b] & Hb & Hin). cbn in Hin.
    destruct (String.eqb os' _); [|destruct (String.prefix _ _)]; cbn in Hin; try contradiction;
      destruct Hin as [E|[]]; inv E; eapply in_table, Hb.
Qed.

Lemma classify_ok (s : string) (k : kind) : classify (opt_table p) s = Ok k -> kind_ok p k.
Proof.
  unfold classify. destruct s as [|c rest]; [intros H; inv H; exact I|].
  destruct (negb _); [intros H; inv H; exact I|].
  destruct (lookup_opt _ _) as [a|] eqn:L; [intros H; inv H; eapply lookup_in, L|].
  destruct (String.eqb rest _); [intros H; inv H; exact I|].
  destruct (split_eq _) as [[o e]|];
    [destruct (lookup_opt _ o) as [a|] eqn:L'; [intros H; inv H; eapply lookup_in, L'|]|].
  all: destruct (option_tuples _ _) as [|[[a os] e'] [|t l]] eqn:T; intros H;
    repeat match type of H with context [if ?b then _ else _] => destruct b end; inv H; cbn; auto.
  all: eapply option_tuples_in; rewrite T; left; reflexivity.
Qed.

Lemma tokenize_ok (l : list string) (items : list (string * kind)) :
  tokenize (opt_table p) l = Ok items -> Forall (fun it => kind_ok p (snd it)) items.
Proof.
  revert items. induction l as [|x l IH]; cbn; intros items H; [inv H; constructor|].
  destruct (String.eqb x "--").
  - inv H. constructor; [exact I|]. apply Forall_forall. intros it Hit.
    apply in_map_iff in Hit as (y & <- & _). exact I.
  - destruct (classify _ x) as [k|] eqn:C; cbn in H; [|discriminate].
    destruct (tokenize _ l) as [r|]; cbn in H; inv H. constructor; auto. eapply classify_ok, C.
Qed.

Lemma chain_in (a : action) (ex : string) (rest : list (string * kind)) todo rest' :
  In a (p_actions p) -> Forall (fun it => kind_ok p (snd it)) rest ->
  chain (opt_table p) a ex rest = Ok (todo, rest') ->
  Forall (fun x => In (fst x) (p_actions p)) todo /\ Forall (fun it => kind_ok p (snd it)) rest'.
Proof.
  revert a todo rest'. induction ex as [|c ex IH]; intros a todo rest' Ha Hr H; cbn in H; [discriminate|].
  destruct (lookup_opt _ _) as [a'|] eqn:L; [|discriminate]. apply lookup_in in L.
  destruct ex as [|c' ex'].
  - destruct (takes_arg a'); [destruct rest as [|[s' []] rest]; try discriminate; inv Hr|]; inv H; auto.
  - destruct (takes_arg a'); [inv H; auto|].
    destruct (negb _); [|discriminate].
    destruct (chain _ a' _ rest) as [[l r]|] eqn:C; cbn in H; [|discriminate].
    injection H as <- <-. destruct (IH a' l r L Hr C). split; [constructor|]; auto.
Qed.

Lemma consume_optional_in (items : list (string * kind)) todo rest ex :
  Forall (fun it => kind_ok p (snd it)) items ->
  consume_optional (opt_table p) items = Ok (todo, rest, ex) ->
  Forall (fun x => In (fst x) (p_actions p)) todo /\ Forall (fun it => kind_ok p (snd it)) rest.
Proof.
  intros Hi H. destruct items as [|[s k] items]; cbn in H; [inv H; auto|].
  inv Hi. destruct k as [| |[[a os]|] [e|]]; cbn in *; try (inv H; auto; fail).
  - destruct (takes_arg a); [inv H; auto|].
    destruct (_ && _); [|discriminate].
    destruct (chain _ a e items) as [[l r]|] eqn:C; cbn in H; inv H. eapply chain_in; eauto.
  - destruct (takes_arg a); [destruct items as [|[s' []] items]; try discriminate; inv H; inv H3|inv H]; auto.
Qed.

End Tables.

Lemma Forall_skipn_ {A} (Q : A -> Prop) (n : nat) (l : list A) : Forall Q l -> Forall Q (skipn n l).
Proof. revert l. induction n as [|n IH]; intros [|x l] H; cbn; auto. inv H. auto. Qed.

(** A property of the parser state that every action of the parser
    preserves holds of the state the parse ends in. *)
Section Preserve.
Variables (p : parser) (sub : subparse) (P : pstate -> Prop).
Hypothesis P_action : forall a args st st',
  In a (p_actions p) -> P st -> take_action p sub a args st = Ok st' -> P st'.
Hypothesis P_extras : forall st l, P st -> P (add_extras st l).

Definition items_ok (items : list (string * kind)) : Prop := Forall (fun it => kind_ok p (snd it)) items.

Lemma take_all_preserves (todo : list (action * list string)) (st st' : pstate) :
  Forall (fun x => In (fst x) (p_actions p)) todo -> P st -> take_all p sub todo st = Ok st' -> P st'.
Proof.
  revert st. induction todo as [|[a args] todo IH]; cbn; intros st Ht Hs H; [inv H; auto|].
  inv Ht. cbn in *. destruct (take_action p sub a args st) as [st1|] eqn:T; cbn in H; [|discriminate].
  eapply IH; [assumption | eapply P_action; eauto | exact H].
Qed.

Lemma take_positionals_preserves (ps : list action) (counts : list nat) items st ps' items' st' :
  incl ps (p_actions p) -> items_ok items -> P st ->
  take_positionals p sub ps counts items st = Ok (ps', items', st') ->
  incl ps' (p_actions p) /\ items_ok items' /\ P st'.
Proof.
  revert counts items st. induction ps as [|a ps IH]; intros [|c cs] items st Hps Hi Hs H; cbn in H;
    try (inv H; auto; fail).
  destruct (take_action p sub a _ st) as [st1|] eqn:T; cbn in H; [|discriminate].
  apply incl_cons_inv in Hps as [Ha Hps].
  eapply IH; [exact Hps | apply Forall_skipn_, Hi | eapply P_action; eauto | exact H].
Qed.

Lemma consume_positionals_preserves (ps : list action) items st ps' items' st' :
  incl ps (p_actions p) -> items_ok items -> P st ->
  consume_positionals p sub ps items st = Ok (ps', items', st') ->
  incl ps' (p_actions p) /\ items_ok items' /\ P st'.
Proof. apply take_positionals_preserves. Qed.

Lemma loop_preserves (fuel : nat) (ps : list action) items st ps' st' :
  incl ps (p_actions p) -> items_ok items -> P st ->
  loop p sub (opt_table p) out_of_fuel fuel ps items st = Ok (ps', st') -> P st'.
Proof.
  revert ps items st. induction fuel as [|fuel IH]; intros ps items st Hps Hi Hs H; cbn in H; [discriminate|].
  destruct (next_option (map snd items)) as [i|].
  - destruct (if Nat.eqb i 0 then Ok (ps, items, st) else consume_positionals p sub ps items st)
      as [[[ps1 items1] st1]|] eqn:C; cbn in H; [|discriminate].
    assert (Hc : incl ps1 (p_actions p) /\ items_ok items1 /\ P st1)
      by (destruct (Nat.eqb i 0); [inv C; auto | eapply consume_positionals_preserves; eauto]).
    destruct Hc as (Hps1 & Hi1 & Hs1).
    destruct (_ && _); [eapply IH; eauto|].
    destruct (consume_optional _ (skipn i items1)) as [[[todo rest] ex]|] eqn:O; cbn in H; [|discriminate].
    destruct (consume_optional_in p _ _ _ _ (Forall_skipn_ _ i _ Hi1) O) as [Ht Hr].
    destruct (take_all p sub todo _) as [st2|] eqn:T; cbn in H; [|discriminate].
    eapply IH; [exact Hps1 | exact Hr | | exact H].
    eapply take_all_preserves; [exact Ht | apply P_extras, P_extras, Hs1 | exact T].
  - destruct (consume_positionals p sub ps items st) as [[[ps1 items1] st1]|] eqn:C; cbn in H; [|discriminate].
    inv H. apply P_extras. eapply consume_positionals_preserves; eauto.
Qed.

(** The state of a successful parse satisfies [P] and passed the final
    checks. *)
Lemma parse_known_args_preserves (args : list string) (r : list (string * value) * list string) :
  P (PState (defaults p) [] [] []) -> parse_known_args p sub args = Ok r ->
  exists st, P st /\ st_ns st = fst r /\ st_extras st = snd r /\
    required_missing p st = false /\ group_missing p st = false.
Proof.
  intros H0 H. unfold parse_known_args in H.
  destruct (tokenize _ args) as [items|] eqn:T; cbn [result_bind] in H; [|discriminate].
  destruct (loop p sub (opt_table p) out_of_fuel (S (List.length items)) (filter is_positional (p_actions p)) items
    (PState (defaults p) [] [] [])) as [[ps st]|] eqn:L; cbn [result_bind snd] in H; [|discriminate].
  destruct (required_missing p st) eqn:R, (group_missing p st) eqn:G; cbn in H; try discriminate.
  inv H. exists st. repeat split; auto.
  eapply loop_preserves; [| eapply tokenize_ok, T | exact H0 | exact L].
  intros a Ha. apply filter_In in Ha as [Ha _]. exact Ha.
Qed.

End Preserve.

(** What a [store] or [store_true] action does to the state. *)
Definition stored (a : action) (v : value) : value :=
  match a_act a with AStoreTrue => VBool true | _ => v end.

Lemma take_action_store (p : parser) (sub : subparse) (a : action) (args : list string) (st st' : pstate) :
  a_act a = AStore \/ a_act a = AStoreTrue ->
  take_action p sub a args st = Ok st' ->
  exists v, get_values a args = Ok v /\ st_ns st' = (a_dest a, stored a v) :: st_ns st /\
    (if is_default v (a_default a) then st_seen_nd st' = st_seen_nd st
     else conflicts p a (st_seen_nd st) = false /\ st_seen_nd st' = a_dest a :: st_seen_nd st).
Proof.
  intros Ha H. unfold take_action in H. destruct (get_values a args) as [v|] eqn:G; cbn in H; [|discriminate].
  exists v. split; [reflexivity|]. unfold stored.
  destruct (is_default v (a_default a)); [|destruct (conflicts p a (st_seen_nd st)) eqn:C; [discriminate|]];
    cbn in H; destruct Ha as [Ha|Ha]; rewrite Ha in H; inv H; cbn; rewrite Ha; auto.
Qed.

(** A stored value is a string, a boolean or a list, never [None]. *)
Lemma get_values_not_none (a : action) (args : list string) (v : value) :
  a_act a <> AParsers -> get_values a args = Ok v -> v <> VNone.
Proof.
  intros Ha. unfold get_values. destruct (a_act a); try congruence.
  all: destruct (remove_first "--" args) as [|x [|y l]]; cbn;
    repeat match goal with |- context [if ?b then _ else _] => destruct b end;
    intros H; inv H; unfold convert; try destruct (a_bool a); discriminate.
Qed.

(** [-h] always ends the parse. *)
Lemma take_action_help (p : parser) (sub : subparse) (a : action) (args : list string) (st st' : pstate) :
  a_act a = AHelp -> take_action p sub a args st <> Ok st'.
Proof.
  intros Ha. unfold take_action. destruct (get_values a args); cbn; [|discriminate].
  destruct is_default; [|destruct conflicts]; cbn; rewrite ?Ha; try destruct forallb; discriminate.
Qed.

(** Without [type=bool], an option's value is never a boolean. *)
Lemma get_values_not_bool (a : action) (args : list string) (v : value) :
  a_bool a = false -> get_values a args = Ok v -> match v with VBool _ => False | _ => True end.
Proof.
  intros Hb. unfold get_values. destruct (a_act a).
  all: lazymatch goal with
       | |- context [remove_first] => destruct (remove_first "--" args) as [|x [|y l]]
       | _ => destruct args end; cbn;
    repeat match goal with |- context [if ?b then _ else _] => destruct b end;
    intros H; inv H; unfold convert; rewrite ?Hb; exact I.
Qed.

(** ** The namespace a sub-parser returns *)

Lemma ns_get_app_in (l1 l2 : list (string * value)) (k : string) :
  In k (map fst l1) -> ns_get (l1 ++ l2) k = ns_get l1 k.
Proof.
  unfold ns_get. induction l1 as [|[k' v] l1 IH]; cbn; [contradiction|]. intros [->|H].
  - rewrite String.eqb_refl. reflexivity.
  - destruct (String.eqb k' k); auto.
Qed.

Lemma ns_get_app_out (l1 l2 : list (string * value)) (k : string) :
  ~ In k (map fst l1) -> ns_get (l1 ++ l2) k = ns_get l2 k.
Proof.
  unfold ns_get. induction l1 as [|[k' v] l1 IH]; cbn; auto. intros H.
  destruct (String.eqb_spec k' k); [exfalso; auto|]. apply IH. auto.
Qed.

Section SubKeys.
Variables (p : parser) (sub : subparse).
Hypothesis no_parsers : forall a, In a (p_actions p) -> a_act a <> AParsers.

(** A sub-parser's namespace has exactly the destinations of its actions
    that have a default. *)
Definition keys_inv (st : pstate) : Prop :=
  incl (map fst (st_ns st)) (map a_dest (p_actions p)) /\ incl (map fst (defaults p)) (map fst (st_ns st)).

Lemma keys_inv_action (a : action) (args : list string) (st st' : pstate) :
  In a (p_actions p) -> keys_inv st -> take_action p sub a args st = Ok st' -> keys_inv st'.
Proof.
  intros Ha [Hk Hd] Ht.
  assert (Hs : a_act a = AStore \/ a_act a = AStoreTrue).
  { destruct (a_act a) eqn:E; auto; [|exfalso; eapply no_parsers; eauto].
    unfold take_action in Ht. destruct (get_values a args); cbn in Ht; [|discriminate].
    rewrite E in Ht. destruct (is_default _ _); [|destruct (conflicts _ _ _)];
      cbn in Ht; try discriminate; destruct (forallb help_formats (p_helps p)); discriminate. }
  destruct (take_action_store p sub a args st st' Hs Ht) as (v & _ & Hns & _).
  unfold keys_inv. rewrite Hns. cbn. split.
  - apply incl_cons; auto. apply in_map, Ha.
  - apply incl_tl, Hd.
Qed.

(** A sub-parser's namespace has only destinations of its actions, and
    all those with a default. *)
Lemma sub_keys (args : list string) (r : list (string * value) * list string) :
  parse_known_args p sub args = Ok r -> keys_inv (PState (fst r) [] [] []).
Proof.
  intros H. destruct (parse_known_args_preserves p sub keys_inv keys_inv_action
    ltac:(intros [] l Hs; exact Hs) args r) as (st & Hst & E & _); [|exact H|].
  - unfold keys_inv; cbn [st_ns]. split; [|apply incl_refl]. unfold defaults. rewrite map_map. intros k Hk.
    apply in_map_iff in Hk as (a & <- & Ha). apply filter_In in Ha as [Ha _]. cbn. apply in_map, Ha.
  - rewrite <- E. exact Hst.
Qed.

End SubKeys.

Lemma ns_get_cons_neq (ns : list (string * value)) (d k : string) (v : value) :
  d <> k -> ns_get ((d, v) :: ns) k = ns_get ns k.
Proof. intros Hne. unfold ns_get. cbn. apply String.eqb_neq in Hne. rewrite Hne. reflexivity. Qed.

(** ** The withdraw group *)

Section WithdrawGroup.

(** A member of the group holds a value other than its default. *)
Definition given (ns : list (string * value)) (d : string) : bool :=
  match ns_get ns d with VNone | VBool false => false | _ => true end.

(** At most one member of the group has been given a non-default value,
    and a member holds a non-default value exactly when it has. *)
Definition group_inv (g : list string) (st : pstate) : Prop :=
  (forall d1 d2, In d1 (st_seen_nd st) -> In d2 (st_seen_nd st) -> In d1 g -> In d2 g -> d1 = d2) /\
  (forall d, In d g -> mem d (st_seen_nd st) = given (st_ns st) d).

Lemma mem_In (d : string) (l : list string) : mem d l = true <-> In d l.
Proof.
  unfold mem. rewrite existsb_exists. split.
  - intros (x & Hx & E). apply String.eqb_eq in E. subst. exact Hx.
  - intros H. exists d. split; [exact H | apply String.eqb_refl].
Qed.

(** A member given while no other member has been. *)
Lemma group_inv_add (g : list string) (st st' : pstate) (x : string) (v : value) :
  group_inv g st -> In x g -> existsb (fun d => negb (String.eqb d x) && mem d g) (st_seen_nd st) = false ->
  st_seen_nd st' = x :: st_seen_nd st -> st_ns st' = (x, v) :: st_ns st ->
  match v with VNone | VBool false => False | _ => True end -> group_inv g st'.
Proof.
  intros [H1 H2] Hx C Hnd Hns Hv.
  assert (Honly : forall d, In d (st_seen_nd st) -> In d g -> d = x).
  { intros d Hd Hdg. destruct (String.eqb_spec d x) as [|Hne]; auto. exfalso.
    assert (existsb (fun d => negb (String.eqb d x) && mem d g) (st_seen_nd st) = true) by
      (apply existsb_exists; exists d; split; auto; apply String.eqb_neq in Hne; rewrite Hne; apply mem_In, Hdg).
    congruence. }
  unfold group_inv. rewrite Hnd, Hns. split.
  - intros d1 d2 [<-|E1] [<-|E2] G1 G2;
      try rewrite (Honly d1) by auto; try rewrite (Honly d2) by auto; reflexivity.
  - intros d Hd. unfold given, ns_get. cbn. destruct (String.eqb_spec x d) as [<-|Hne].
    + rewrite String.eqb_refl. destruct v as [| |[]|]; auto; contradiction.
    + rewrite (proj2 (String.eqb_neq d x)) by auto. cbn. apply H2, Hd.
Qed.

(** A value that is not a member of the group leaves the invariant. *)
Lemma group_inv_other (g : list string) (st st' : pstate) (x : string) (w : value) :
  group_inv g st -> ~ In x g -> (st_seen_nd st' = x :: st_seen_nd st \/ st_seen_nd st' = st_seen_nd st) ->
  st_ns st' = (x, w) :: st_ns st -> group_inv g st'.
Proof.
  intros [H1 H2] Hx Hnd Hns. unfold group_inv. rewrite Hns.
  split; [destruct Hnd as [E|E]; rewrite E; [intros d1 d2 [<-|E1] [<-|E2] G1 G2|]; eauto; contradiction|].
  intros d Hd. unfold given. rewrite ns_get_cons_neq by (intros <-; contradiction).
  destruct Hnd as [E|E]; rewrite E; [|apply H2, Hd]. unfold mem. cbn.
  rewrite (proj2 (String.eqb_neq d x)) by (intros <-; contradiction). apply H2, Hd.
Qed.

Lemma length_all_equal {A} (l : list A) :
  NoDup l -> (forall x y, In x l -> In y l -> x = y) -> (List.length l <= 1)%nat.
Proof.
  intros Hn He. destruct l as [|x [|y l]]; cbn; auto with arith.
  inv Hn. exfalso. apply H1. rewrite (He x y); cbn; auto.
Qed.

(** A required group whose invariant holds has exactly one member given. *)
Lemma group_exactly_one (g : list string) (st : pstate) :
  NoDup g -> group_inv g st -> existsb (fun d => mem d (st_seen_nd st)) g = true ->
  List.length (filter (given (st_ns st)) g) = 1%nat.
Proof.
  intros Hn [H1 H2] Hx.
  rewrite (filter_ext_in _ (fun d => mem d (st_seen_nd st))) by (intros d Hd; symmetry; apply H2, Hd).
  apply existsb_exists in Hx as (d & Hd & Hm).
  assert (Hle := length_all_equal (filter (fun d => mem d (st_seen_nd st)) g) (NoDup_filter _ Hn)
    ltac:(intros x y Hx Hy; apply filter_In in Hx as [Gx Mx], Hy as [Gy My];
          apply mem_In in Mx, My; apply H1; auto)).
  assert (In d (filter (fun d => mem d (st_seen_nd st)) g)) by (apply filter_In; auto).
  destruct (filter _ g); cbn in *; [contradiction | lia].
Qed.

Section Group.
Variables (p : parser) (sub : subparse).
(** The members of the group are options with no default, or
    [store_true] options. *)
Hypothesis group_members : forall a, In a (p_actions p) -> In (a_dest a) (p_group p) ->
  a_bool a = false /\
  ((a_act a = AStore /\ a_default a = VNone) \/ (a_act a = AStoreTrue /\ a_default a = VBool false)).
Hypothesis group_no_parsers : forall a, In a (p_actions p) -> a_act a <> AParsers.

Lemma group_inv_action (a : action) (args : list string) (st st' : pstate) :
  In a (p_actions p) -> group_inv (p_group p) st -> take_action p sub a args st = Ok st' -> group_inv (p_group p) st'.
Proof.
  intros Ha Hi Ht.
  assert (Hs : a_act a = AStore \/ a_act a = AStoreTrue).
  { destruct (a_act a) eqn:A; auto; exfalso;
      [exact (take_action_help _ _ _ _ _ _ A Ht) | exact (group_no_parsers a Ha A)]. }
  destruct (take_action_store _ _ _ _ _ _ Hs Ht) as (v & G & Hns & Hnd).
  destruct (in_dec string_dec (a_dest a) (p_group p)) as [Hg|Hg].
  - destruct (group_members a Ha Hg) as [Hb Hm].
    pose proof (get_values_not_bool _ _ _ Hb G) as Gb.
    apply get_values_not_none in G; [|destruct Hs as [E|E]; rewrite E; discriminate].
    assert (Hd : is_default v (a_default a) = false)
      by (destruct Hm as [[_ ->]|[_ ->]]; destruct v; cbn in *; congruence || contradiction).
    rewrite Hd in Hnd. destruct Hnd as [C Hnd]. unfold conflicts in C.
    rewrite (proj2 (mem_In _ _) Hg) in C. eapply group_inv_add; eauto.
    unfold stored. destruct Hm as [[-> _]|[-> _]]; [destruct v; cbn in *; first [contradiction | congruence | exact I] | exact I].
  - eapply group_inv_other; eauto. destruct is_default; [right|left]; [exact Hnd | exact (proj2 Hnd)].
Qed.

(** A parse that passed the required group has exactly one member given. *)
Lemma group_exactly_one_parse (rest : list string) (r : list (string * value) * list string) :
  NoDup (p_group p) -> p_group p <> [] -> (forall d, In d (p_group p) -> given (defaults p) d = false) ->
  parse_known_args p sub rest = Ok r -> List.length (filter (given (fst r)) (p_group p)) = 1%nat.
Proof.
  intros Hn Hne H0 H. destruct (parse_known_args_preserves p sub (group_inv (p_group p))
    group_inv_action ltac:(intros [] l Hst; exact Hst) rest r) as (st & Hst & E & _ & _ & Hg); [|exact H|].
  - split; [intros ? ? []|]. intros d Hd. symmetry. apply H0, Hd.
  - rewrite <- E. apply group_exactly_one; auto. unfold group_missing in Hg.
    destruct (p_group p); [contradiction|]. destruct existsb; [reflexivity | discriminate].
Qed.

End Group.

End WithdrawGroup.

(** ** The sub-parser behind a subcommand *)

Section TopLevel.

(** No sub-parser has a sub-parsers action or a destination of the
    top-level parser. *)
Lemma subparsers_dests (name : string) (sp : parser) (a : action) :
  In (name, sp) subparsers -> In a (p_actions sp) ->
  a_act a <> AParsers /\ ~ In (a_dest a) ["command"; "rpc"; "vault"; "account"].
Proof.
  assert (Hc : forallb (fun e => forallb (fun a =>
            match a_act a with AParsers => false | _ => negb (mem (a_dest a) ["command"; "rpc"; "vault"; "account"]) end)
            (p_actions (snd e))) subparsers = true) by reflexivity.
  intros He Ha. rewrite forallb_forall in Hc. specialize (Hc _ He). rewrite forallb_forall in Hc.
  specialize (Hc _ Ha). destruct (a_act a); try discriminate; cbn -[mem] in Hc;
    (split; [discriminate|]); rewrite <- mem_In; intros Hm; rewrite Hm in Hc; discriminate.
Qed.

(** The namespace of a sub-parser's successful parse on the rest of the
    line, whose keys the namespace [ns] reads unchanged. *)
Definition sub_parse_of (ns : list (string * value)) (name : string) : Prop :=
  exists sp rest r, In (name, sp) subparsers /\ parse_known_args sp no_sub rest = Ok r /\
    forall k, In k (map fst (fst r)) -> ns_get ns k = ns_get (fst r) k.

Definition top_inv (st : pstate) : Prop :=
  forall name, ns_get (st_ns st) "command" = VStr name -> sub_parse_of (st_ns st) name.

Lemma sub_keys_dests (name : string) (sp : parser) (rest : list string) r k :
  In (name, sp) subparsers -> parse_known_args sp no_sub rest = Ok r -> In k (map fst (fst r)) ->
  ~ In k ["command"; "rpc"; "vault"; "account"].
Proof.
  intros He Hp Hk. destruct (sub_keys sp no_sub (fun a Ha => proj1 (subparsers_dests _ _ _ He Ha)) rest r Hp)
    as [Hi _]. apply Hi in Hk. apply in_map_iff in Hk as (a & <- & Ha).
  exact (proj2 (subparsers_dests _ _ _ He Ha)).
Qed.

Lemma top_inv_action (a : action) (args : list string) (st st' : pstate) :
  In a (p_actions top_parser) -> top_inv st -> take_action top_parser parse_sub a args st = Ok st' -> top_inv st'.
Proof.
  intros Ha Hi Ht. cbn in Ha. destruct Ha as [<-|Ha]; [exfalso; eapply take_action_help; [|exact Ht]; reflexivity|].
  destruct Ha as [<-|[<-|[<-|[<-|[]]]]].
  1-3: match type of Ht with take_action _ _ ?a _ _ = _ =>
         destruct (take_action_store _ _ a _ _ _ (or_introl eq_refl) Ht) as (v & _ & Hns & _) end;
    intros name; rewrite Hns; cbn [a_dest store]; rewrite ns_get_cons_neq by discriminate;
    intros Hn; destruct (Hi name Hn) as (sp & rest & r & He & Hp & Hk);
    exists sp, rest, r; repeat split; auto; intros k Hk'; rewrite ns_get_cons_neq by
      (intros <-; apply (sub_keys_dests _ _ _ _ _ He Hp Hk'); cbn; auto); auto.
  unfold take_action in Ht. cbn [a_dest a_act a_default] in Ht.
  destruct args as [|nm rest]; cbn in Ht.
  - inv Ht. exact Hi.
  - lazymatch type of Ht with context [if ?b then Ok (VList _) else _] => destruct b end; [|discriminate].
    cbn in Ht. unfold parse_sub in Ht.
    destruct (find _ subparsers) as [[x sp]|] eqn:F; [|discriminate].
    destruct (parse_known_args sp no_sub rest) as [r|] eqn:Hp; cbn in Ht; inv Ht.
    apply find_some in F as [He Hx]. cbn in Hx. apply String.eqb_eq in Hx. subst x.
    intros name. cbn [st_ns]. rewrite ns_get_app_out by
      (intros Hk; apply (sub_keys_dests _ _ _ _ _ He Hp Hk); cbn; auto).
    unfold ns_get at 1. cbn. intros E. inv E.
    exists sp, rest, r. repeat split; auto. intros k Hk. apply ns_get_app_in, Hk.
Qed.

(** A parse that names a subcommand holds the namespace of that
    sub-parser's parse of the rest of the line. *)
Lemma parse_args_sub (argv : list string) (ns : list (string * value)) (name : string) :
  parse_args argv = Ok ns -> ns_get ns "command" = VStr name -> sub_parse_of ns name.
Proof.
  unfold parse_args. destruct (parse_known_args top_parser parse_sub argv) as [r|] eqn:H; cbn; [|discriminate].
  destruct (snd r) eqn:Hs; [|discriminate]. intros E. inv E.
  destruct (parse_known_args_preserves top_parser parse_sub top_inv top_inv_action
    ltac:(intros [] l Hst; exact Hst) argv r) as (st & Hst & E & _); [|exact H|].
  - intros name' Hn. discriminate.
  - rewrite <- E. apply Hst.
Qed.

End TopLevel.

(** ** Exactly one of [--amount], [--percentage], [--all] *)

Section Withdraw.

(** C12: A command line that parses to the [withdraw] subcommand gives
    exactly one of [--amount], [--percentage] and [--all] a value other
    than its default: the required mutually exclusive group of lines
    642-646, enforced by [parse_args]. *)
Theorem withdraw_group_exclusive (argv : list string) (ns : list (string * value)) :
  parse_args argv = Ok ns -> ns_get ns "command" = VStr "withdraw" ->
  List.length (filter (given ns) ["amount"; "percentage"; "all"]) = 1%nat.
Proof.
  intros H Hc. destruct (parse_args_sub argv ns "withdraw" H Hc) as (sp & rest & r & He & Hp & Hk).
  assert (sp = withdraw_parser) as -> by (cbn in He; repeat destruct He as [E|He]; congruence || contradiction).
  assert (Hm : forall a, In a (p_actions withdraw_parser) -> In (a_dest a) (p_group withdraw_parser) ->
    a_bool a = false /\
    ((a_act a = AStore /\ a_default a = VNone) \/ (a_act a = AStoreTrue /\ a_default a = VBool false))).
  { intros a Ha Hg. cbn in Ha. repeat destruct Ha as [<-|Ha]; cbn in Hg |- *; try contradiction;
      try (intuition discriminate); split; auto. }
  rewrite <- (group_exactly_one_parse withdraw_parser no_sub Hm
    (fun a Ha => proj1 (subparsers_dests "withdraw" _ a He Ha)) rest r
    ltac:(repeat constructor; cbn; intuition discriminate) ltac:(discriminate)
    ltac:(intros d Hd; repeat destruct Hd as [<-|Hd]; try reflexivity; contradiction) Hp).
  cbn [p_group withdraw_parser]. f_equal. apply filter_ext_in.
  intros d Hd. unfold given. rewrite Hk; [reflexivity|].
  destruct (sub_keys withdraw_parser no_sub (fun a Ha => proj1 (subparsers_dests "withdraw" _ a (or_intror (or_intror (or_intror (or_introl eq_refl)))) Ha)) rest r Hp) as [_ Hd'].
  apply Hd'. repeat destruct Hd as [<-|Hd]; cbn; tauto.
Qed.

End Withdraw.

Lemma withdraw_group_exclusive_witness :
  exists ns, parse_args ["withdraw"; "--percentage"; "50"] = Ok ns /\ ns_get ns "command" = VStr "withdraw" /\
    List.length (filter (given ns) ["amount"; "percentage"; "all"]) = 1%nat.
Proof.
  let r := eval vm_compute in (parse_args ["withdraw"; "--percentage"; "50"]) in
  match r with Ok ?ns => exists ns end.
  assert (H : parse_args ["withdraw"; "--percentage"; "50"] = Ok _) by (vm_compute; reflexivity).
  refine (conj H (conj _ (withdraw_group_exclusive _ _ H _))); reflexivity.
Defined.

(** ** A positional with choices *)

(** A string an action stores passed its choices. *)
Lemma get_values_choice (a : action) (args : list string) (s : string) :
  a_act a <> AParsers -> get_values a args = Ok (VStr s) -> check_choice a s = true.
Proof.
  intros Ha. unfold get_values. destruct (a_act a); try congruence.
  all: destruct (remove_first "--" args) as [|x [|y l]]; cbn;
    repeat (let E := fresh "E" in match goal with |- context [if ?b then _ else _] => destruct b eqn:E end);
    intros H; inv H; unfold convert in *; destruct (a_bool a); inv H1; assumption.
Qed.

Section Choice.
Variables (p : parser) (sub : subparse) (d : string) (cs : list string).
Hypothesis choice_action : forall a, In a (p_actions p) -> a_act a <> AHelp -> a_act a <> AParsers /\
  (a_dest a = d -> a_act a = AStore /\ a_choices a = Some cs).

(** The destination [d] holds one of the choices, when it holds a string. *)
Definition choice_inv (st : pstate) : Prop := forall s, ns_get (st_ns st) d = VStr s -> In s cs.

Lemma choice_inv_action (a : action) (args : list string) (st st' : pstate) :
  In a (p_actions p) -> choice_inv st -> take_action p sub a args st = Ok st' -> choice_inv st'.
Proof.
  intros Ha Hi Ht. destruct (a_act a) eqn:A;
    try (exfalso; exact (take_action_help _ _ _ _ _ _ A Ht));
    destruct (choice_action a Ha ltac:(congruence)) as [Hp Hd]; [| |contradiction].
  all: destruct (take_action_store _ _ _ _ _ _ ltac:(rewrite A; auto) Ht) as (v & G & Hns & _);
    intros s; rewrite Hns; destruct (String.eqb_spec (a_dest a) d) as [E|E];
    [|rewrite ns_get_cons_neq by exact E; apply Hi].
  all: destruct (Hd E) as [As Ac]; try congruence.
  rewrite <- E. unfold ns_get, stored; cbn; rewrite String.eqb_refl, As. intros ->.
  apply get_values_choice in G; [|congruence]. unfold check_choice in G. rewrite Ac in G.
  apply existsb_exists in G as (x & Hx & Ex). apply String.eqb_eq in Ex. subst x. exact Hx.
Qed.

End Choice.


(** ** The namespace as [main] reads it *)

Local Notation "'let*' x ':=' c 'in' k" := (match c with Some x => k | None => None end)
  (at level 10, x name, c at level 100, k at level 200).

Definition get_str (ns : list (string * value)) (d : string) : option string :=
  match ns_get ns d with VStr s => Some s | _ => None end.

Definition get_bool (ns : list (string * value)) (d : string) : option bool :=
  match ns_get ns d with VBool b => Some b | _ => None end.

(** An attribute [main] only tests for truth ([--vault], [--account], and
    withdraw's [--amount] and [--percentage]): an empty list reads as
    [None]. *)
Definition get_falsy (ns : list (string * value)) (d : string) : option (option string) :=
  match ns_get ns d with
  | VNone | VList [] => Some None
  | VStr s => Some (Some s)
  | _ => None
  end.

(** [args.to], compared with [None] (line 709). *)
Definition get_opt (ns : list (string * value)) (d : string) : option (option string) :=
  match ns_get ns d with VNone => Some None | VStr s => Some (Some s) | _ => None end.

(** The subcommand's attributes (lines 706-775). *)
Definition command_of (name : string) (ns : list (string * value)) : option command :=
  if String.eqb name "info" then Some CmdInfo
  else if String.eqb name "portfolio" then Some CmdPortfolio
  else if String.eqb name "deposit" then
    let* amount := get_str ns "amount" in Some (CmdDeposit amount)
  else if String.eqb name "withdraw" then
    let* amount := get_falsy ns "amount" in let* percentage := get_falsy ns "percentage" in
    let* all := get_bool ns "all" in Some (CmdWithdraw amount percentage all)
  else if String.eqb name "buy" then
    let* token := get_str ns "token" in let* amount := get_str ns "amount" in
    let* min := get_str ns "min" in Some (CmdBuy token amount min)
  else if String.eqb name "sell" then
    let* token := get_str ns "token" in let* amount := get_str ns "amount" in
    let* min := get_str ns "min" in Some (CmdSell token amount min)
  else if String.eqb name "pair" then
    let* token := get_str ns "token" in let* max := get_str ns "max" in
    let* min_exit := get_str ns "min_exit" in let* disable := get_bool ns "disable" in
    Some (CmdPair token max min_exit disable)
  else if String.eqb name "role" then
    let* role := get_str ns "role" in let* address := get_str ns "address" in
    let* revoke := get_bool ns "revoke" in Some (CmdRole role address revoke)
  else if String.eqb name "strategy" then
    let* enabled := get_bool ns "enabled" in Some (CmdStrategy enabled)
  else if String.eqb name "price" then
    let* token_a := get_str ns "token_a" in let* token_b := get_str ns "token_b" in
    let* price := get_str ns "price" in Some (CmdPrice token_a token_b price)
  else if String.eqb name "mint" then
    let* token := get_str ns "token" in let* amount := get_str ns "amount" in
    let* to := get_opt ns "to" in Some (CmdMint token amount to)
  else if String.eqb name "transfer" then
    let* token := get_str ns "token" in let* recipient := get_str ns "recipient" in
    let* amount := get_str ns "amount" in Some (CmdTransfer token recipient amount)
  else None.

(** [args]; [None] when an attribute holds a list where [main] passes a
    string on (the behaviour of web3 on it is not modelled). *)
Definition of_namespace (ns : list (string * value)) : option args :=
  let* rpc := get_str ns "rpc" in
  let* vault := get_falsy ns "vault" in
  let* account := get_falsy ns "account" in
  let* cmd := match ns_get ns "command" with
              | VNone => Some None
              | VStr name => option_map Some (command_of name ns)
              | _ => None
              end in
  Some (Args rpc vault account cmd).

(** The arguments [main] runs with, when the line parses. *)
Definition args_of (argv : list string) : option args :=
  match parse_args argv with Ok ns => of_namespace ns | Err _ => None end.


(** The subcommand [main] runs is the one the namespace names. *)
Lemma of_namespace_command (ns : list (string * value)) (a : args) (cmd : command) :
  of_namespace ns = Some a -> args_command a = Some cmd ->
  exists name, ns_get ns "command" = VStr name /\ command_of name ns = Some cmd.
Proof.
  unfold of_namespace. intros Ha Hc.
  destruct (get_str ns "rpc"), (get_falsy ns "vault"), (get_falsy ns "account"); try discriminate.
  destruct (ns_get ns "command") as [|name| |]; try discriminate.
  - inv Ha. discriminate.
  - destruct (command_of name ns) eqn:C; cbn in Ha; inv Ha. cbn in Hc. inv Hc. eauto.
Qed.

Lemma command_of_role (name : string) (ns : list (string * value)) r addr revoke :
  command_of name ns = Some (CmdRole r addr revoke) -> name = "role" /\ get_str ns "role" = Some r.
Proof.
  unfold command_of.
  repeat match goal with |- context [String.eqb name ?x] =>
    let E := fresh "E" in destruct (String.eqb_spec name x) as [E|E]; [subst name|] end;
  repeat match goal with |- context [match ?c with Some _ => _ | None => _ end] => destruct c end;
  intros H; inv H; auto.
Qed.

Lemma role_choice_action (a : action) :
  In a (p_actions role_parser) -> a_act a <> AHelp -> a_act a <> AParsers /\
  (a_dest a = "role" -> a_act a = AStore /\ a_choices a = Some ["oracle"; "strategy_manager"; "admin"]).
Proof.
  intros Ha. cbn in Ha. repeat destruct Ha as [<-|Ha]; cbn; intros Hh; try contradiction;
    split; try discriminate; intros Hd; try discriminate; auto.
Qed.

(** C15: A command line that parses to the [role] subcommand names one of
    the roles of its [choices] (line 669), so [manage_role] always finds
    the role: its "Unknown role" branch (lines 562-564) is unreachable
    from the command line. *)
Theorem role_parsed_known (argv : list string) (a : args) (r addr : string) (revoke : bool) :
  args_of argv = Some a -> args_command a = Some (CmdRole r addr revoke) ->
  In r ["oracle"; "strategy_manager"; "admin"] /\ Vault.role_of_name r <> None.
Proof.
  unfold args_of. destruct (parse_args argv) as [ns|] eqn:P; [|discriminate]. intros Ha Hc.
  destruct (of_namespace_command ns a _ Ha Hc) as (name & Hn & Hcmd).
  destruct (command_of_role name ns r addr revoke Hcmd) as [-> Hr].
  destruct (parse_args_sub argv ns "role" P Hn) as (sp & rest & res & He & Hp & Hk).
  assert (sp = role_parser) as -> by (cbn in He; repeat destruct He as [E|He]; congruence || contradiction).
  assert (Hin : In r ["oracle"; "strategy_manager"; "admin"]).
  { destruct (parse_known_args_preserves role_parser no_sub (choice_inv "role" ["oracle"; "strategy_manager"; "admin"])
      (choice_inv_action role_parser no_sub "role" _ role_choice_action) ltac:(intros [] l Hst; exact Hst) rest res)
      as (st & Hst & E & _); [intros s' Hs'; discriminate | exact Hp |].
    apply Hst. rewrite E, <- Hk; [unfold get_str in Hr; destruct (ns_get ns "role"); congruence|].
    destruct (sub_keys role_parser no_sub (fun a Ha => proj1 (subparsers_dests "role" _ a He Ha)) rest res Hp) as [_ Hd].
    apply Hd. cbn; tauto. }
  split; [exact Hin|]. repeat destruct Hin as [<-|Hin]; try discriminate. contradiction.
Qed.

(** ** The global options and the subcommand *)

Definition opt_arg (prefix : string) (v : option string) : list string :=
  match v with Some x => [prefix ++ x] | None => [] end.

(** [--rpc=R [--vault=V] [--account=A]]. *)
Definition globals (rpc : string) (vault account : option string) : list string :=
  ["--rpc=" ++ rpc] ++ opt_arg "--vault=" vault ++ opt_arg "--account=" account.

Definition opt_entry (d : string) (v : option string) : list (string * value) :=
  match v with Some x => [(d, VStr x)] | None => [] end.

(** The global namespace after the global options and the subcommand. *)
Definition top_ns (rpc : string) (vault account : option string) (name : string) : list (string * value) :=
  (("command", VStr name) :: opt_entry "account" account ++ opt_entry "vault" vault
    ++ ("rpc", VStr rpc) :: defaults top_parser)%list.

Definition not_sep (v : option string) : Prop := forall x, v = Some x -> x <> "--".

Ltac eqb_hyps :=
  repeat match goal with
  | H : ?b = false |- context [?b] => rewrite H
  | H : ?b = true |- context [?b] => rewrite H
  end.

(** Evaluate the parser on arguments with unknown strings: unfold the
    actions, use what is known of the strings, split the tests left
    ([actions_eval] leaves the loop folded). *)
Ltac parse_eval :=
  repeat first
    [ progress cbn
    | progress unfold take_action, get_values, convert, conflicts
    | progress eqb_hyps
    | match goal with |- context [if ?b then _ else _] => destruct b end ].

Ltac actions_eval :=
  repeat first
    [ progress cbn -[loop]
    | progress unfold take_action, get_values, convert, conflicts
    | progress eqb_hyps
    | match goal with |- context [if ?b then _ else _] => destruct b end ].

Lemma subparser_choice (name : string) (p : parser) :
  find (fun e => String.eqb (fst e) name) subparsers = Some (name, p) ->
  classify (opt_table top_parser) name = Ok KA /\ existsb (String.eqb name) (map fst subparsers) = true
  /\ String.eqb name "--" = false.
Proof.
  intros H. apply find_some in H as [H _].
  repeat (destruct H as [H|H]; [inv H; repeat split; reflexivity|]). destruct H.
Qed.

(** The global options are stored; the rest of the line goes to the
    subcommand's parser. *)
Lemma parse_args_cmd (rpc : string) (vault account : option string) (name : string) (p : parser)
    (rest : list string) :
  rpc <> "--" -> not_sep vault -> not_sep account ->
  find (fun e => String.eqb (fst e) name) subparsers = Some (name, p) ->
  (exists items, tokenize (opt_table top_parser) rest = Ok items) ->
  parse_args (globals rpc vault account ++ name :: rest) =
    let? r := parse_known_args p no_sub rest in
    match snd r with [] => Ok (fst r ++ top_ns rpc vault account name)%list | _ => Err (SystemExit 2) end.
Proof.
  intros Hr Hv Ha Hf [items Hi].
  destruct (subparser_choice name p Hf) as (Hk & Hc & Hn). cbn in Hc.
  apply String.eqb_neq in Hr.
  assert (Hv' : match vault with Some x => String.eqb x "--" = false | None => True end)
    by (destruct vault; auto; apply String.eqb_neq, Hv; reflexivity).
  assert (Ha' : match account with Some x => String.eqb x "--" = false | None => True end)
    by (destruct account; auto; apply String.eqb_neq, Ha; reflexivity).
  unfold parse_args, parse_known_args at 1.
  replace (globals rpc vault account ++ name :: rest)%list with ((globals rpc vault account ++ [name]) ++ rest)%list
    by (rewrite <- app_assoc; reflexivity).
  rewrite tokenize_app by
    (destruct vault, account; repeat constructor; try discriminate; intros E; subst; discriminate).
  rewrite Hi. pose proof (tokenize_strings _ _ _ Hi) as Hs.
  destruct vault as [v|], account as [x|]; cbn [globals opt_arg app tokenize];
    rewrite Hn, Hk; cbn -[loop]; repeat (rewrite loop_explicit by reflexivity; actions_eval).
  all: rewrite loop_parsers by reflexivity; actions_eval.
  all: replace (parse_sub name (map fst items)) with (parse_known_args p no_sub rest) by (unfold parse_sub; rewrite Hs, Hf; reflexivity).
  all: destruct (parse_known_args p no_sub rest) as [[ns ex]|e]; cbn; auto.
  all: destruct ex; reflexivity.
Qed.

(** ** Printing a command line *)

(** The positionals, after [--] so that any string reads as one (a
    [--] with nothing after it would be an unrecognised argument). *)
Definition positionals (pos : list string) : list string :=
  match pos with [] => [] | _ => "--" :: pos end.

(** The options and the positionals of a subcommand. *)
Definition unparse_cmd (c : command) : string * list string * list string :=
  match c with
  | CmdInfo => ("info", [], [])
  | CmdPortfolio => ("portfolio", [], [])
  | CmdDeposit amount => ("deposit", [], [amount])
  | CmdWithdraw amount percentage all =>
      ("withdraw", List.app (opt_arg "--amount=" amount)
                     (List.app (opt_arg "--percentage=" percentage) (if all then ["--all"] else [])), [])
  | CmdBuy token amount min => ("buy", ["--min=" ++ min], [token; amount])
  | CmdSell token amount min => ("sell", ["--amount=" ++ amount; "--min=" ++ min], [token])
  | CmdPair token max min_exit disable =>
      ("pair", List.app [String.append "--max=" max; String.append "--min-exit=" min_exit]
                        (if disable then ["--disable"] else []), [token])
  | CmdRole role address revoke => ("role", if revoke then ["--revoke"] else [], [role; address])
  | CmdStrategy enabled => ("strategy", ["--enabled=" ++ (if enabled then "1" else "")], [])
  | CmdPrice token_a token_b price => ("price", [], [token_a; token_b; price])
  | CmdMint token amount to => ("mint", opt_arg "--to=" to, [token; amount])
  | CmdTransfer token recipient amount => ("transfer", [], [token; recipient; amount])
  end.

Definition unparse (a : args) : list string :=
  (globals (args_rpc a) (args_vault a) (args_account a) ++
  match args_command a with
  | None => []
  | Some c => let '(name, opts, pos) := unparse_cmd c in name :: (opts ++ positionals pos)%list
  end)%list.

(** The arguments a command line can carry: [--] is the separator (an
    option given [=--] gets a list, and so does a positional after the
    first one), a role is one of the [choices], and withdraw takes exactly
    one of its group. *)
Definition wf_command (c : command) : Prop :=
  match c with
  | CmdInfo | CmdPortfolio | CmdDeposit _ | CmdStrategy _ => True
  | CmdWithdraw amount percentage all =>
      not_sep amount /\ not_sep percentage /\
      match amount, percentage, all with
      | Some _, None, false | None, Some _, false | None, None, true => True
      | _, _, _ => False
      end
  | CmdBuy _ amount min | CmdSell _ amount min => amount <> "--" /\ min <> "--"
  | CmdPair _ max min_exit _ => max <> "--" /\ min_exit <> "--"
  | CmdRole role address _ => In role ["oracle"; "strategy_manager"; "admin"] /\ address <> "--"
  | CmdPrice _ token_b price => token_b <> "--" /\ price <> "--"
  | CmdMint _ amount to => amount <> "--" /\ not_sep to
  | CmdTransfer _ recipient amount => recipient <> "--" /\ amount <> "--"
  end.

Definition wf_args (a : args) : Prop :=
  args_rpc a <> "--" /\ not_sep (args_vault a) /\ not_sep (args_account a) /\
  match args_command a with Some c => wf_command c | None => True end.

Lemma tokenize_sep (tbl : list (string * action)) (opts pos : list string) :
  Forall (fun t => t <> "--" /\ exists k, classify tbl t = Ok k) opts ->
  exists items, tokenize tbl (opts ++ positionals pos) = Ok items.
Proof.
  induction 1 as [|t opts [Ht [k Hk]] _ [items IH]]; cbn.
  - destruct pos; cbn; eexists; reflexivity.
  - apply String.eqb_neq in Ht. rewrite Ht, Hk, IH. eexists; reflexivity.
Qed.

(** Every argument before the separator classifies at the top level. *)
Ltac sep_ok :=
  apply tokenize_sep; repeat constructor; try (cbn; discriminate);
  unfold classify; cbn -[is_neg_number has_space];
  repeat match goal with |- context [if ?b then _ else _] => destruct b end; eexists; reflexivity.

(** The hypotheses on the strings, as the tests the parser makes. *)
Ltac sep_hyps :=
  repeat match goal with
  | H : not_sep (Some ?x) |- _ => assert (x <> "--") by (apply H; reflexivity); clear H
  | H : not_sep None |- _ => clear H
  | H : ?x <> "--" |- _ => apply String.eqb_neq in H
  | H : _ /\ _ |- _ => destruct H
  | H : In _ (_ :: _) |- _ => destruct H as [<-|H]
  | H : In _ [] |- _ => destruct H
  end.

(** C14: Printing the arguments as a command line and parsing it back
    gives the same arguments: every subcommand, option and positional the
    model's [args] has is reachable from the command line, with any
    strings (but the separator). *)
Theorem args_of_unparse (a : args) : wf_args a -> args_of (unparse a) = Some a.
Proof.
  destruct a as [rpc vault account [c|]]; unfold wf_args, args_of, unparse;
    cbn [args_rpc args_vault args_account args_command]; intros (Hr & Hv & Ha & Hc).
  - destruct c; cbn [unparse_cmd];
      repeat match goal with
      | |- context [opt_arg _ ?o] => is_var o; destruct o
      | |- context [if ?b then _ else _] => is_var b; destruct b
      end;
      cbn [wf_command] in Hc; try (exfalso; tauto);
      (erewrite parse_args_cmd; [| assumption .. | reflexivity | sep_ok]).
    all: sep_hyps; unfold parse_known_args; parse_eval.
    all: destruct vault, account; reflexivity.
  - rewrite app_nil_r. sep_hyps. destruct vault, account; sep_hyps;
      unfold parse_args, parse_known_args; parse_eval; reflexivity.
Qed.

(** C30: [strategy --enabled=S] runs the strategy update with [bool(S)]
    (line 675 declares [type=bool]): every nonempty string, ["False"]
    and ["0"] included, enables the strategy, and only the empty string
    disables it. *)
Theorem strategy_enabled_truthiness (rpc : string) (vault account : option string) (s : string) :
  rpc <> "--" -> not_sep vault -> not_sep account -> s <> "--" ->
  args_of (globals rpc vault account ++ ["strategy"; "--enabled=" ++ s]) =
    Some (Args rpc vault account (Some (CmdStrategy (negb (String.eqb s ""))))).
Proof.
  intros Hr Hv Ha Hs. unfold args_of.
  erewrite parse_args_cmd; [| assumption .. | reflexivity |
    change [String.append "--enabled=" s] with (List.app [String.append "--enabled=" s] (positionals [])); sep_ok].
  sep_hyps. unfold parse_known_args. parse_eval.
  all: destruct vault, account; reflexivity.
Qed.

(** C31: [-h] right after [withdraw], [buy], [sell] or [pair] raises
    ValueError, whatever the global options before it and whatever
    strings follow it (those the parsers classify, as argparse does
    before acting): the help texts of lines 645, 651, 657 and 663 hold a
    bare [%], which argparse's %-formatting of the help rejects, so the
    help is never printed. *)
Theorem help_raises (rpc : string) (vault account : option string) (name : string) (p : parser)
    (rest : list string) :
  In (name, p) [("withdraw", withdraw_parser); ("buy", buy_parser); ("sell", sell_parser);
                ("pair", pair_parser)] ->
  rpc <> "--" -> not_sep vault -> not_sep account ->
  (exists items, tokenize (opt_table top_parser) ("-h" :: rest) = Ok items) ->
  (exists items, tokenize (opt_table p) rest = Ok items) ->
  parse_args (globals rpc vault account ++ name :: "-h" :: rest) = Err ValueError.
Proof.
  intros Hin Hr Hv Ha Htop [items Hsub].
  assert (Hf : find (fun e => String.eqb (fst e) name) subparsers = Some (name, p))
    by (repeat destruct Hin as [E|Hin]; try contradiction; inv E; reflexivity).
  rewrite (parse_args_cmd rpc vault account name p ("-h" :: rest) Hr Hv Ha Hf Htop).
  unfold parse_known_args. cbn [tokenize]. rewrite Hsub.
  repeat destruct Hin as [E|Hin]; try contradiction; inv E; cbn; reflexivity.
Qed.

(** [withdraw --percentage=] (or [--amount=]) satisfies the required
    group with an empty string, which [main] tests for truth (lines
    744-750): no branch runs, and the command does nothing. *)
Example withdraw_empty_value_noop (vault oracle account : Interact.addr) :
  args_of ["withdraw"; "--percentage="] = Some (Args DEFAULT_RPC None None (Some (CmdWithdraw None (Some "") false))) /\
  args_of ["withdraw"; "--amount="] = Some (Args DEFAULT_RPC None None (Some (CmdWithdraw (Some "") None false))) /\
  (forall `{Checksum} `{Submitter},
     dispatch vault oracle account (CmdWithdraw None (Some "") false) = Ret tt /\
     dispatch vault oracle account (CmdWithdraw (Some "") None false) = Ret tt).
Proof. split; [vm_compute; reflexivity|]. split; [vm_compute; reflexivity|]. intros. split; reflexivity. Qed.

(** ** Witnesses *)

Ltac not_sep_ok := intros ? E; inv E; discriminate.

Definition unparse_example : args :=
  Args "http://10.0.0.1:8545" (Some "0xV") None (Some (CmdWithdraw None (Some "50") false)).

Lemma args_of_unparse_witness : wf_args unparse_example /\ args_of (unparse unparse_example) = Some unparse_example.
Proof.
  assert (H : wf_args unparse_example).
  { unfold wf_args, unparse_example; cbn. repeat split; try discriminate; try not_sep_ok; intros ? E; discriminate. }
  exact (conj H (args_of_unparse unparse_example H)).
Defined.

Lemma role_parsed_known_witness :
  exists a, args_of ["role"; "admin"; "0xabc"] = Some a /\
    args_command a = Some (CmdRole "admin" "0xabc" false) /\
    In "admin" ["oracle"; "strategy_manager"; "admin"] /\ Vault.role_of_name "admin" <> None.
Proof.
  let r := eval vm_compute in (args_of ["role"; "admin"; "0xabc"]) in
  match r with Some ?a => exists a end.
  assert (H : args_of ["role"; "admin"; "0xabc"] = Some _) by (vm_compute; reflexivity).
  refine (conj H (conj _ (role_parsed_known _ _ _ _ _ H _))); reflexivity.
Defined.

Lemma help_raises_witness :
  parse_args (globals "http://10.0.0.1:8545" None None ++ "buy" :: "-h" :: ["0xabc"; "--min=5"]) =
    Err ValueError.
Proof.
  apply (help_raises "http://10.0.0.1:8545" None None "buy" buy_parser ["0xabc"; "--min=5"]);
    [cbn; tauto | discriminate | intros ? E; discriminate | intros ? E; discriminate
    | eexists; vm_compute; reflexivity | eexists; vm_compute; reflexivity].
Defined.

Lemma strategy_enabled_truthiness_witness :
  args_of (globals "http://10.0.0.1:8545" None None ++ ["strategy"; "--enabled=False"]) =
    Some (Args "http://10.0.0.1:8545" None None (Some (CmdStrategy true))).
Proof.
  apply (strategy_enabled_truthiness "http://10.0.0.1:8545" None None "False");
    try discriminate; intros ? E; discriminate.
Defined.

Section Cli.
Context `{Checksum} `{Submitter}.

(** [main()] on a command line: a parse error or [--help] exits, a help
    text that does not format raises ValueError. *)
Definition cli (argv : list string) : option (prog unit) :=
  match parse_args argv with
  | Err x => Some (Raise x)
  | Ok ns => option_map main (of_namespace ns)
  end.

End Cli.

End Argparse.
